(** * Complaint and transaction automation: a shallow embedding

    The backend keeps tickets, transactions, an audit log and several
    notification logs in PostgreSQL and drives them from Express handlers, a
    transaction service and a cron service.  This development embeds the
    handlers and services the specification talks about as functions over an
    explicit store, and settles the specification's claims against them.

    Conventions.
    - Timestamps are integers ([Z]); [now] of the environment is the value of
      [CURRENT_TIMESTAMP] / [new Date()] during one request.
    - String-literal union types of the TypeScript sources are inductive
      types; the columns that carry them are typed accordingly, so the CHECK
      constraints of the schema hold by construction.  A status that arrives
      as a plain [string] (the external status API) is parsed against the
      CHECK constraint when it reaches the table.
    - A statement that PostgreSQL rejects is a [Throw]; the pool itself never
      fails.  A statement can be rejected when it is prepared (module [Pg]:
      the types deduced for its parameters, the columns it names), or when it
      runs (a CHECK or UNIQUE constraint, a value too long for its VARCHAR
      column, a text that is no [int4]).  Every statement is its own
      transaction: what earlier statements of a request wrote stays written.
    - Rows that are already stored are taken to fit their columns; the widths
      are checked where a request or the JSON metadata of a row supplies the
      value.
    - Rendered message bodies of e-mails and WhatsApp messages are left out of
      the log rows; everything else the handlers write is kept. *)

From Stdlib Require Import ZArith List String Ascii Bool Lia DecimalString.
From Stdlib Require Import Sorted Permutation.
Import ListNotations.
Open Scope string_scope.
Open Scope Z_scope.
Set Warnings "-register-all".

(** * Helpers shared by all modules *)

Module Util.

Definition string_of_Z (z : Z) : string := NilZero.string_of_int (Z.to_int z).

Definition bytes_of_string (s : string) : list Z :=
  map (fun c => Z.of_N (N_of_ascii c)) (list_ascii_of_string s).

Definition lower_ascii (c : ascii) : ascii :=
  let n := N_of_ascii c in
  if ((65 <=? n) && (n <=? 90))%N then ascii_of_N (n + 32) else c.

Definition toLowerCase (s : string) : string :=
  string_of_list_ascii (map lower_ascii (list_ascii_of_string s)).

(** [s.includes(sub)] *)
Fixpoint prefixb (p s : list ascii) : bool :=
  match p, s with
  | [], _ => true
  | _ :: _, [] => false
  | a :: p', b :: s' => Ascii.eqb a b && prefixb p' s'
  end.

Fixpoint includes_la (s sub : list ascii) : bool :=
  prefixb sub s ||
  match s with
  | [] => false
  | _ :: s' => includes_la s' sub
  end.

Definition includes (s sub : string) : bool :=
  includes_la (list_ascii_of_string s) (list_ascii_of_string sub).

Definition startsWith (s p : string) : bool :=
  prefixb (list_ascii_of_string p) (list_ascii_of_string s).

(** SQL [LIKE]: [%] matches any run of characters, [_] one character and a
    backslash quotes the next pattern character. *)
Fixpoint like_la (p s : list ascii) {struct p} : bool :=
  match p with
  | [] => match s with [] => true | _ => false end
  | c :: p' =>
      if Ascii.eqb c "%" then
        (fix any (s : list ascii) : bool :=
           like_la p' s ||
           match s with
           | [] => false
           | _ :: s' => any s'
           end) s
      else if Ascii.eqb c "_" then
        match s with
        | [] => false
        | _ :: s' => like_la p' s'
        end
      else if Ascii.eqb c "\" then
        match p' with
        | [] => false
        | q :: p'' =>
            match s with
            | [] => false
            | d :: s' => Ascii.eqb q d && like_la p'' s'
            end
        end
      else
        match s with
        | [] => false
        | d :: s' => Ascii.eqb c d && like_la p' s'
        end
  end.

(** SQL [ILIKE] on ASCII text. *)
Definition ilike (s pattern : string) : bool :=
  like_la (list_ascii_of_string (toLowerCase pattern))
          (list_ascii_of_string (toLowerCase s)).

(** [a || b] on an optional string: the empty string is falsy. *)
Definition truthy_string (s : string) : bool := negb (String.eqb s "").

Definition or_default (o : option string) (d : string) : string :=
  match o with
  | Some s => if truthy_string s then s else d
  | None => d
  end.

(** [x || null] *)
Definition or_null (o : option string) : option string :=
  match o with
  | Some s => if truthy_string s then Some s else None
  | None => None
  end.

End Util.

(** * JSON values ([any] in the sources) and [JSON.stringify] *)

Module JSON.

(** Numbers are restricted to integers. *)
Inductive value : Type :=
| Null
| Bool (b : bool)
| Num (n : Z)
| Str (s : string)
| Arr (items : list value)
| Obj (fields : list (string * value)).

(** JavaScript truthiness. *)
Definition truthy (v : value) : bool :=
  match v with
  | Null => false
  | Bool b => b
  | Num n => negb (n =? 0)
  | Str s => Util.truthy_string s
  | Arr _ => true
  | Obj _ => true
  end.

Fixpoint assoc (k : string) (fields : list (string * value)) : option value :=
  match fields with
  | [] => None
  | (k', v) :: rest => if String.eqb k k' then Some v else assoc k rest
  end.

(** [v.k] and [v?.k]; [None] is [undefined]. *)
Definition get (k : string) (v : value) : option value :=
  match v with
  | Obj fields => assoc k fields
  | _ => None
  end.

Definition truthy_opt (o : option value) : bool :=
  match o with
  | Some v => truthy v
  | None => false
  end.

(** A field read as a string; the request validators only test truthiness. *)
Definition get_string (k : string) (v : value) : option string :=
  match get k v with
  | Some (Str s) => Some s
  | _ => None
  end.

Definition dquote : string := String (ascii_of_N 34) EmptyString.

Definition hex_digit (n : Z) : ascii :=
  if n <? 10 then ascii_of_N (Z.to_N (48 + n)) else ascii_of_N (Z.to_N (87 + n)).

Definition escape_char (c : ascii) : string :=
  let n := Z.of_N (N_of_ascii c) in
  if n =? 34 then "\" ++ dquote
  else if n =? 92 then "\\"
  else if n =? 8 then "\b"
  else if n =? 12 then "\f"
  else if n =? 10 then "\n"
  else if n =? 13 then "\r"
  else if n =? 9 then "\t"
  else if n <? 32 then
    "\u00" ++ String (hex_digit (n / 16)) (String (hex_digit (n mod 16)) "")
  else String c "".

Fixpoint escape (s : string) : string :=
  match s with
  | EmptyString => ""
  | String c s' => escape_char c ++ escape s'
  end.

Definition quote (s : string) : string := dquote ++ escape s ++ dquote.

Fixpoint join (sep : string) (l : list string) : string :=
  match l with
  | [] => ""
  | [x] => x
  | x :: rest => x ++ sep ++ join sep rest
  end.

Fixpoint stringify (v : value) : string :=
  match v with
  | Null => "null"
  | Bool true => "true"
  | Bool false => "false"
  | Num n => Util.string_of_Z n
  | Str s => quote s
  | Arr items => "[" ++ join "," (map stringify items) ++ "]"
  | Obj fields =>
      "{" ++ join ","
        ((fix go (l : list (string * value)) : list string :=
            match l with
            | [] => []
            | (k, x) :: rest => (quote k ++ ":" ++ stringify x) :: go rest
            end) fields) ++ "}"
  end.

(** ** [JSON.parse], as [express.json()] applies it to the raw body

    Integers only, no [\u] escapes; of a repeated key the first is read by
    [get]. *)

Definition is_ws (c : ascii) : bool :=
  let n := N_of_ascii c in
  ((n =? 32) || (n =? 9) || (n =? 10) || (n =? 13))%N.

Fixpoint skip_ws (s : list ascii) : list ascii :=
  match s with
  | c :: r => if is_ws c then skip_ws r else s
  | [] => []
  end.

Definition strip_prefix (p : string) (s : list ascii) : option (list ascii) :=
  let pl := list_ascii_of_string p in
  if Util.prefixb pl s then Some (skipn (List.length pl) s) else None.

Definition unescape (c : ascii) : option ascii :=
  let n := N_of_ascii c in
  if (n =? 34)%N then Some c                      (* quote *)
  else if (n =? 92)%N then Some c                 (* backslash *)
  else if (n =? 47)%N then Some c                 (* slash *)
  else if (n =? 98)%N then Some (ascii_of_N 8)    (* b *)
  else if (n =? 102)%N then Some (ascii_of_N 12)  (* f *)
  else if (n =? 110)%N then Some (ascii_of_N 10)  (* n *)
  else if (n =? 114)%N then Some (ascii_of_N 13)  (* r *)
  else if (n =? 116)%N then Some (ascii_of_N 9)   (* t *)
  else None.

(** The characters of a string literal after its opening quote. *)
Fixpoint parse_chars (s : list ascii) (acc : list ascii)
  : option (string * list ascii) :=
  match s with
  | [] => None
  | c :: r =>
      if (N_of_ascii c =? 34)%N then Some (string_of_list_ascii (rev acc), r)
      else if (N_of_ascii c =? 92)%N then
        match r with
        | e :: r' =>
            match unescape e with
            | Some x => parse_chars r' (x :: acc)
            | None => None
            end
        | [] => None
        end
      else if (N_of_ascii c <? 32)%N then None
      else parse_chars r (c :: acc)
  end.

Definition digit (c : ascii) : option Z :=
  let n := N_of_ascii c in
  if ((48 <=? n) && (n <=? 57))%N then Some (Z.of_N n - 48) else None.

Fixpoint parse_digits (s : list ascii) (acc : Z) : Z * list ascii :=
  match s with
  | c :: r =>
      match digit c with
      | Some d => parse_digits r (acc * 10 + d)
      | None => (acc, s)
      end
  | [] => (acc, [])
  end.

(** An integer literal: no leading zero, no fraction, no exponent. *)
Definition parse_int (s : list ascii) : option (Z * list ascii) :=
  match s with
  | c :: r =>
      match digit c with
      | Some d =>
          let '(n, rest) := parse_digits r d in
          if (d =? 0) && negb (n =? 0) then None
          else
            match rest with
            | x :: _ =>
                if (N_of_ascii x =? 46)%N || (N_of_ascii x =? 101)%N ||
                   (N_of_ascii x =? 69)%N then None
                else Some (n, rest)
            | [] => Some (n, rest)
            end
      | None => None
      end
  | [] => None
  end.

Fixpoint parse_value (fuel : nat) (s : list ascii) : option (value * list ascii) :=
  match fuel with
  | O => None
  | S f =>
      match skip_ws s with
      | [] => None
      | c :: r =>
          let n := N_of_ascii c in
          if (n =? 34)%N then
            option_map (fun p => (Str (fst p), snd p)) (parse_chars r [])
          else if (n =? 91)%N then
            match skip_ws r with
            | x :: r' =>
                if (N_of_ascii x =? 93)%N then Some (Arr [], r')
                else option_map (fun p => (Arr (fst p), snd p)) (parse_items f r)
            | [] => None
            end
          else if (n =? 123)%N then
            match skip_ws r with
            | x :: r' =>
                if (N_of_ascii x =? 125)%N then Some (Obj [], r')
                else option_map (fun p => (Obj (fst p), snd p)) (parse_members f r)
            | [] => None
            end
          else if (n =? 45)%N then
            option_map (fun p => (Num (- fst p), snd p)) (parse_int r)
          else
            match strip_prefix "null" (c :: r), strip_prefix "true" (c :: r),
                  strip_prefix "false" (c :: r) with
            | Some rest, _, _ => Some (Null, rest)
            | _, Some rest, _ => Some (Bool true, rest)
            | _, _, Some rest => Some (Bool false, rest)
            | _, _, _ => option_map (fun p => (Num (fst p), snd p)) (parse_int (c :: r))
            end
      end
  end

with parse_items (fuel : nat) (s : list ascii) : option (list value * list ascii) :=
  match fuel with
  | O => None
  | S f =>
      match parse_value f s with
      | Some (v, r) =>
          match skip_ws r with
          | x :: r' =>
              if (N_of_ascii x =? 44)%N then
                option_map (fun p => (v :: fst p, snd p)) (parse_items f r')
              else if (N_of_ascii x =? 93)%N then Some ([v], r')
              else None
          | [] => None
          end
      | None => None
      end
  end

with parse_members (fuel : nat) (s : list ascii)
  : option (list (string * value) * list ascii) :=
  match fuel with
  | O => None
  | S f =>
      match skip_ws s with
      | q :: r =>
          if (N_of_ascii q =? 34)%N then
            match parse_chars r [] with
            | Some (k, r1) =>
                match skip_ws r1 with
                | colon :: r2 =>
                    if (N_of_ascii colon =? 58)%N then
                      match parse_value f r2 with
                      | Some (v, r3) =>
                          match skip_ws r3 with
                          | x :: r4 =>
                              if (N_of_ascii x =? 44)%N then
                                option_map (fun p => ((k, v) :: fst p, snd p))
                                           (parse_members f r4)
                              else if (N_of_ascii x =? 125)%N then Some ([(k, v)], r4)
                              else None
                          | [] => None
                          end
                      | None => None
                      end
                    else None
                | [] => None
                end
            | None => None
            end
          else None
      | [] => None
      end
  end.

Definition parse (s : string) : option value :=
  let l := list_ascii_of_string s in
  match parse_value (S (2 * List.length l)) l with
  | Some (v, rest) =>
      match skip_ws rest with
      | [] => Some v
      | _ => None
      end
  | None => None
  end.

End JSON.

(** * Node's [crypto]: SHA-256 (FIPS 180-4), HMAC (RFC 2104), hex digests *)

Module Crypto.
#[local] Open Scope list_scope.

Definition mask32 : Z := 0xFFFFFFFF.
Definition add32 (a b : Z) : Z := Z.land (a + b) mask32.
Definition rotr (n x : Z) : Z :=
  Z.lor (Z.shiftr x n) (Z.land (Z.shiftl x (32 - n)) mask32).
Definition not32 (x : Z) : Z := Z.lxor x mask32.

Definition Ch (x y z : Z) : Z := Z.lxor (Z.land x y) (Z.land (not32 x) z).
Definition Maj (x y z : Z) : Z :=
  Z.lxor (Z.lxor (Z.land x y) (Z.land x z)) (Z.land y z).
Definition Sigma0 (x : Z) : Z := Z.lxor (Z.lxor (rotr 2 x) (rotr 13 x)) (rotr 22 x).
Definition Sigma1 (x : Z) : Z := Z.lxor (Z.lxor (rotr 6 x) (rotr 11 x)) (rotr 25 x).
Definition sigma0 (x : Z) : Z := Z.lxor (Z.lxor (rotr 7 x) (rotr 18 x)) (Z.shiftr x 3).
Definition sigma1 (x : Z) : Z := Z.lxor (Z.lxor (rotr 17 x) (rotr 19 x)) (Z.shiftr x 10).

(** The constants as FIPS 180-4 defines them: the first 32 bits of the
    fractional parts of the cube roots (round constants) and of the square
    roots (initial hash value) of the first primes. *)
Definition is_prime (n : Z) : bool :=
  forallb (fun d => negb (n mod d =? 0)) (map Z.of_nat (seq 2 (Z.to_nat n - 2))).

(** The 64 primes up to 311. *)
Definition primes : list Z := filter is_prime (map Z.of_nat (seq 2 310)).

(** The integer cube root, one bit at a time from the top. *)
Fixpoint cube_root_bits (bits : nat) (n x : Z) : Z :=
  match bits with
  | O => x
  | S b =>
      let y := x + 2 ^ Z.of_nat b in
      cube_root_bits b n (if y * y * y <=? n then y else x)
  end.

Definition cube_root (n : Z) : Z := cube_root_bits 40 n 0.

Definition K256 : list Z :=
  Eval vm_compute in map (fun p => cube_root (p * 2 ^ 96) mod 2 ^ 32) primes.

Definition H0 : list Z :=
  Eval vm_compute in map (fun p => Z.sqrt (p * 2 ^ 64) mod 2 ^ 32) (firstn 8 primes).

(** Big-endian bytes of a word and back. *)
Definition word_of_bytes (b : list Z) : Z :=
  fold_left (fun acc x => acc * 256 + x) b 0.

Fixpoint bytes_of_word (n : nat) (w : Z) : list Z :=
  match n with
  | O => []
  | S n' => bytes_of_word n' (w / 256) ++ [w mod 256]
  end.

Fixpoint words_of_bytes (n : nat) (b : list Z) : list Z :=
  match n with
  | O => []
  | S n' => word_of_bytes (firstn 4 b) :: words_of_bytes n' (skipn 4 b)
  end.

(** Padding: a one bit, zeros, and the bit length on eight bytes. *)
Definition pad (msg : list Z) : list Z :=
  let len := Z.of_nat (List.length msg) in
  let zeros := Z.to_nat ((55 - len) mod 64) in
  msg ++ [0x80] ++ repeat 0 zeros ++ bytes_of_word 8 (len * 8).

(** The message schedule, most recent word first. *)
Fixpoint extend (n : nat) (rev_w : list Z) : list Z :=
  match n with
  | O => rev_w
  | S n' =>
      let w := add32 (add32 (sigma1 (nth 1 rev_w 0)) (nth 6 rev_w 0))
                     (add32 (sigma0 (nth 14 rev_w 0)) (nth 15 rev_w 0)) in
      extend n' (w :: rev_w)
  end.

Definition schedule (block : list Z) : list Z :=
  rev (extend 48 (rev (words_of_bytes 16 block))).

Definition round (st : list Z) (kw : Z * Z) : list Z :=
  match st with
  | [a; b; c; d; e; f; g; h] =>
      let t1 := add32 (add32 (add32 h (Sigma1 e)) (add32 (Ch e f g) (fst kw))) (snd kw) in
      let t2 := add32 (Sigma0 a) (Maj a b c) in
      [add32 t1 t2; a; b; c; add32 d t1; e; f; g]
  | _ => st
  end.

Definition compress (h : list Z) (block : list Z) : list Z :=
  let st := fold_left round (combine K256 (schedule block)) h in
  map (fun p => add32 (fst p) (snd p)) (combine h st).

Fixpoint blocks (n : nat) (b : list Z) : list (list Z) :=
  match n with
  | O => []
  | S n' =>
      match b with
      | [] => []
      | _ => firstn 64 b :: blocks n' (skipn 64 b)
      end
  end.

Definition sha256 (msg : list Z) : list Z :=
  let padded := pad msg in
  let h := fold_left compress (blocks (List.length padded) padded) H0 in
  flat_map (bytes_of_word 4) h.

Definition block_size : nat := 64.

Definition hmac_sha256 (key msg : list Z) : list Z :=
  let key0 := if (Nat.ltb block_size (List.length key)) then sha256 key else key in
  let key1 := key0 ++ repeat 0 (block_size - List.length key0) in
  let ipad := map (fun k => Z.lxor k 0x36) key1 in
  let opad := map (fun k => Z.lxor k 0x5c) key1 in
  sha256 (opad ++ sha256 (ipad ++ msg)).

Definition hex (b : list Z) : string :=
  string_of_list_ascii
    (flat_map (fun x => [JSON.hex_digit (x / 16); JSON.hex_digit (x mod 16)]) b).

(** [crypto.createHmac('sha256', secret).update(payload).digest('hex')] *)
Definition createHmac_sha256_hex (secret payload : string) : string :=
  hex (hmac_sha256 (Util.bytes_of_string secret) (Util.bytes_of_string payload)).

End Crypto.

(** * The data model (models/Ticket.ts, services/transactionService.ts and the
      tables of [Database.initializeTables]) *)

Module Ticket.

Inductive Status := open | in_progress | resolved | closed.
Inductive Priority := low | medium | high | urgent.

Definition status_to_string (s : Status) : string :=
  match s with
  | open => "open"
  | in_progress => "in_progress"
  | resolved => "resolved"
  | closed => "closed"
  end.

Definition priority_to_string (p : Priority) : string :=
  match p with
  | low => "low"
  | medium => "medium"
  | high => "high"
  | urgent => "urgent"
  end.

Definition status_eqb (a b : Status) : bool :=
  match a, b with
  | open, open | in_progress, in_progress | resolved, resolved | closed, closed => true
  | _, _ => false
  end.

Record t := mk {
  id : Z;
  ticket_number : string;
  customer_email : string;
  merchant_email : option string;
  subject : string;
  description : option string;
  status : Status;
  priority : Priority;
  transaction_id : option string;
  created_at : Z;
  updated_at : Z;
  resolved_at : option Z;
  assigned_to : option string;
  tags : list string;
  metadata : JSON.value
}.

Record TicketCreationData := mkCreation {
  c_customer_email : option string;
  c_merchant_email : option string;
  c_subject : option string;
  c_description : option string;
  c_priority : option Priority;
  c_transaction_id : option string;
  c_tags : option (list string);
  c_metadata : option JSON.value
}.

(** The request body of an update; [updated_by] is read from the same body. *)
Record TicketUpdateData := mkUpdate {
  u_status : option Status;
  u_priority : option Priority;
  u_assigned_to : option string;
  u_resolution : option string;
  u_tags : option (list string);
  u_metadata : option JSON.value;
  u_updated_by : option string
}.

Record TicketFilter := mkFilter {
  f_status : option string;
  f_priority : option string;
  f_customer_email : option string;
  f_merchant_email : option string;
  f_assigned_to : option string;
  f_date_from : option string;
  f_date_to : option string;
  f_search : option string;
  f_transaction_id : option string
}.

End Ticket.

Module Transaction.

Inductive Status :=
  initiated | pending | processing | success | failed | refunded | cancelled.

Definition status_to_string (s : Status) : string :=
  match s with
  | initiated => "initiated"
  | pending => "pending"
  | processing => "processing"
  | success => "success"
  | failed => "failed"
  | refunded => "refunded"
  | cancelled => "cancelled"
  end.

Definition all_statuses : list Status :=
  [initiated; pending; processing; success; failed; refunded; cancelled].

(** The CHECK constraint of [transactions.status], read as a parser. *)
Definition status_of_string (s : string) : option Status :=
  find (fun x => String.eqb (status_to_string x) s) all_statuses.

(** [$1 IN ('success', 'failed', 'refunded', 'cancelled')] *)
Definition terminal (s : Status) : bool :=
  match s with
  | success | failed | refunded | cancelled => true
  | _ => false
  end.

Record t := mk {
  id : Z;
  transaction_id : string;
  payer_email : string;
  merchant_email : string;
  amount : Z;
  currency : string;
  status : Status;
  payment_method : option string;
  gateway_response : JSON.value;
  created_at : Z;
  updated_at : Z;
  completed_at : option Z;
  metadata : JSON.value
}.

(** What the driver hands to JavaScript for the [amount] of a row it has
    read: the text of the DECIMAL(10,2) value, not a number. *)
Definition row_amount (x : t) : JSON.value :=
  JSON.Str (Util.string_of_Z (amount x) ++ ".00").

Record TransactionStatusResponse := mkStatusResponse {
  r_transaction_id : string;
  r_status : string;
  r_amount : Z;
  r_currency : string;
  r_payment_method : string;
  r_gateway_response : JSON.value;
  r_last_updated : string;
  r_metadata : option JSON.value
}.

End Transaction.

Module StatusUpdate.

Inductive EntityType := ticket | transaction.

Record t := mk {
  entity_type : EntityType;
  entity_id : Z;
  old_status : option string;
  new_status : string;
  update_reason : string;
  updated_by : option string;
  created_at : Z
}.

End StatusUpdate.

Module EmailLog.
Record t := mk {
  ticket_id : option Z;
  transaction_id : option string;
  recipient_email : string;
  email_type : string;
  status : string;
  sent_at : option Z;
  created_at : Z
}.
End EmailLog.

Module WhatsAppLog.
Record t := mk {
  ticket_id : option Z;
  transaction_id : option string;
  phone_number : JSON.value;
  message_type : string;
  status : string;
  sent_at : option Z;
  created_at : Z
}.
End WhatsAppLog.

Module WebhookLog.
Record t := mk {
  source : string;
  event_type : string;
  payload : string;
  status : string;
  processed_at : option Z;
  error_message : option string;
  created_at : Z
}.

(** [CHECK (status IN ('pending', 'processed', 'failed'))] *)
Definition status_check (s : string) : bool :=
  String.eqb s "pending" || String.eqb s "processed" || String.eqb s "failed".
End WebhookLog.

(** Events pushed to the dashboard with [io.emit]: the event name and the
    entity it carries (status and timestamp fields of the payload are left
    out, except for ticket updates). *)
Inductive Event :=
| ticket_created (ticket : Ticket.t)
| ticket_updated (ticket : Ticket.t) (oldStatus : Ticket.Status)
                 (newStatus : option Ticket.Status)
| transaction_created (transaction : Transaction.t)
| transaction_updated (transaction : Transaction.t).

(** * The store, the environment of a request and the effect monad *)

Record Store := mkStore {
  tickets : list Ticket.t;
  tickets_id_seq : Z;
  transactions : list Transaction.t;
  transactions_id_seq : Z;
  status_updates : list StatusUpdate.t;
  email_logs : list EmailLog.t;
  whatsapp_logs : list WhatsAppLog.t;
  webhook_logs : list WebhookLog.t;
  emitted : list Event
}.

Definition set_tickets (l : list Ticket.t) (seq : Z) (s : Store) : Store :=
  mkStore l seq (transactions s) (transactions_id_seq s) (status_updates s)
          (email_logs s) (whatsapp_logs s) (webhook_logs s) (emitted s).

Definition set_transactions (l : list Transaction.t) (seq : Z) (s : Store) : Store :=
  mkStore (tickets s) (tickets_id_seq s) l seq (status_updates s)
          (email_logs s) (whatsapp_logs s) (webhook_logs s) (emitted s).

Definition set_status_updates (l : list StatusUpdate.t) (s : Store) : Store :=
  mkStore (tickets s) (tickets_id_seq s) (transactions s) (transactions_id_seq s) l
          (email_logs s) (whatsapp_logs s) (webhook_logs s) (emitted s).

Definition set_email_logs (l : list EmailLog.t) (s : Store) : Store :=
  mkStore (tickets s) (tickets_id_seq s) (transactions s) (transactions_id_seq s)
          (status_updates s) l (whatsapp_logs s) (webhook_logs s) (emitted s).

Definition set_whatsapp_logs (l : list WhatsAppLog.t) (s : Store) : Store :=
  mkStore (tickets s) (tickets_id_seq s) (transactions s) (transactions_id_seq s)
          (status_updates s) (email_logs s) l (webhook_logs s) (emitted s).

Definition set_webhook_logs (l : list WebhookLog.t) (s : Store) : Store :=
  mkStore (tickets s) (tickets_id_seq s) (transactions s) (transactions_id_seq s)
          (status_updates s) (email_logs s) (whatsapp_logs s) l (emitted s).

Definition set_emitted (l : list Event) (s : Store) : Store :=
  mkStore (tickets s) (tickets_id_seq s) (transactions s) (transactions_id_seq s)
          (status_updates s) (email_logs s) (whatsapp_logs s) (webhook_logs s) l.

(** What a request sees of the outside world. *)
Record Env := mkEnv {
  now : Z;
  (** [Math.floor(Math.random() * 1000)] *)
  random1000 : Z;
  (** the external status source, [TransactionService.fetchTransactionStatus] *)
  fetchTransactionStatus : string -> option Transaction.TransactionStatusResponse;
  (** [EmailService.configured] and whether [transporter.sendMail] succeeds *)
  email_configured : bool;
  sendMail : string -> bool;
  (** [WhatsAppService.configured] and whether the Graph API accepts a message *)
  whatsapp_configured : bool;
  whatsapp_post : JSON.value -> bool;
  (** [WhatsAppService.handleWebhook]: it catches its own errors and reads
      and writes [whatsapp_logs] only *)
  whatsapp_handleWebhook : JSON.value -> list WhatsAppLog.t -> list WhatsAppLog.t;
  (** PostgreSQL's conversion of a text parameter to [timestamptz] *)
  timestamptz_in : string -> option Z;
  (** [process.env] *)
  TRANSACTION_WEBHOOK_SECRET : option string;
  CRM_WEBHOOK_SECRET : option string;
  SUPPORT_EMAILS : option string
}.

Inductive Result (A : Type) :=
| Ok (a : A)
| Throw (message : string).
Arguments Ok {A} a.
Arguments Throw {A} message.

(** An [async] body: it threads the store and may throw; what was written
    before a throw stays written (every statement is its own transaction). *)
Definition M (A : Type) : Type := Store -> Result A * Store.

Definition ret {A} (a : A) : M A := fun s => (Ok a, s).
Definition throw {A} (msg : string) : M A := fun s => (Throw msg, s).
Definition bind {A B} (m : M A) (k : A -> M B) : M B :=
  fun s =>
    match m s with
    | (Ok a, s') => k a s'
    | (Throw e, s') => (Throw e, s')
    end.
Definition try_catch {A} (m : M A) (handler : string -> M A) : M A :=
  fun s =>
    match m s with
    | (Ok a, s') => (Ok a, s')
    | (Throw e, s') => handler e s'
    end.
Definition gets {A} (f : Store -> A) : M A := fun s => (Ok (f s), s).
Definition modify (f : Store -> Store) : M unit := fun s => (Ok tt, f s).

Declare Scope m_scope.
Delimit Scope m_scope with M.
Notation "x <- m ;; k" := (bind m (fun x => k))
  (at level 61, m at next level, right associativity) : m_scope.
Notation "m ;;; k" := (bind m (fun _ => k))
  (at level 61, right associativity) : m_scope.
Open Scope m_scope.

(** [rows[0]] followed by a property read: a [TypeError] on an empty result. *)
Definition first_row {A} (rows : list A) : M A :=
  match rows with
  | r :: _ => ret r
  | [] => throw "TypeError: Cannot read properties of undefined"
  end.

(** Column types of the schema: a value fits [VARCHAR(n)]; NULL always does. *)
Definition varchar (n : nat) (s : string) : bool := Nat.leb (String.length s) n.

Definition varchar_opt (n : nat) (o : option string) : bool :=
  match o with
  | Some s => varchar n s
  | None => true
  end.

(** [DECIMAL(10,2)] on a whole amount: at most eight digits. *)
Definition decimal_10_2 (a : Z) : bool := Z.abs a <? 10 ^ 8.

(** A number that fits the [int4] of the serial [id] columns. *)
Definition int4 (n : Z) : bool := (- 2 ^ 31 <=? n) && (n <? 2 ^ 31).

(** [INSERT INTO status_updates ...].  [updated_by] is VARCHAR(255) and the
    request supplies it; the statuses are short and [update_reason] is TEXT. *)
Definition insert_status_update (env : Env) (ty : StatusUpdate.EntityType) (id : Z)
    (old : option string) (new reason : string) (by_ : option string) : M unit :=
  if varchar_opt 255 by_ then
    modify (fun s =>
      set_status_updates
        (status_updates s ++
         [StatusUpdate.mk ty id old new reason by_ (now env)])%list s)
  else throw "value too long for type character varying(255)".

(** * How the server prepares a statement

    The driver sends the text of a statement and its values and names no
    parameter types.  The server deduces the type of every [$n] from the
    places it stands in and resolves every column name against the tables in
    scope; a statement that fails there is refused whatever values come with
    it, before a row is read or written.  A parameter that stands in one
    place only is always typed, so the statements below are checked where a
    parameter stands in two places, or where a column name can mean two
    things. *)

Module Pg.

Inductive Ty := integer | character_varying | text | jsonb.

Definition Ty_eqb (a b : Ty) : bool :=
  match a, b with
  | integer, integer | character_varying, character_varying | text, text
  | jsonb, jsonb => true
  | _, _ => false
  end.

Definition textual (t : Ty) : bool :=
  match t with
  | character_varying | text => true
  | _ => false
  end.

(** [column = value]: the comparisons these types have.  The character
    types share the operators of [text]. *)
Definition has_equality (column value : Ty) : bool :=
  match column, value with
  | integer, integer | jsonb, jsonb => true
  | _, _ => textual column && textual value
  end.

(** A value of a known type goes into a column of its own type, and into a
    character column, without a cast being written. *)
Definition assignable (value column : Ty) : bool :=
  Ty_eqb value column || textual column.

(** A place a parameter stands in. *)
Inductive Use :=
| compared_with (column : Ty)  (** [column = $n] *)
| assigned_to (column : Ty)    (** [SET column = $n] *)
| among_literals.              (** [$n IN ('a', 'b', ...)] *)

(** What is known of a parameter while the statement is read: its type, once
    a place has fixed it, and the columns it was assigned to before. *)
Record Known := mkKnown {
  type_of : option Ty;
  waiting : list Ty
}.

(** One place, read with what is known so far; [None] is a refusal.  A
    comparison or a list of literals fixes the type of a parameter that has
    none, and has to accept the type of one that has.  An assignment of a
    parameter without a type is settled after the whole statement has been
    read. *)
Definition read (k : option Known) (u : Use) : option Known :=
  match k with
  | None => None
  | Some k =>
      match u, type_of k with
      | compared_with c, None =>
          Some (mkKnown (Some (if textual c then text else c)) (waiting k))
      | compared_with c, Some t => if has_equality c t then Some k else None
      | among_literals, None => Some (mkKnown (Some text) (waiting k))
      | among_literals, Some t => if textual t then Some k else None
      | assigned_to c, None => Some (mkKnown None (waiting k ++ [c])%list)
      | assigned_to c, Some t => if assignable t c then Some k else None
      end
  end.

(** The assignments that waited: the parameter has to have got the type of
    each of these columns, or gets the type they agree on. *)
Definition settle (k : Known) : bool :=
  match type_of k, waiting k with
  | Some t, columns => forallb (Ty_eqb t) columns
  | None, c :: columns => forallb (Ty_eqb c) columns
  | None, [] => false
  end.

(** The places of one parameter, in the order the server reads them: the
    WHERE clause first, then the SET list from left to right. *)
Definition deduced (uses : list Use) : bool :=
  match fold_left read uses (Some (mkKnown None [])) with
  | Some k => settle k
  | None => false
  end.

(** [params] lists, for [$1], [$2], ..., the places each stands in. *)
Definition prepare (params : list (list Use)) : M unit :=
  if forallb deduced params then ret tt
  else throw "inconsistent types deduced for a parameter".

(** A column in an expression of [ON CONFLICT ... DO UPDATE SET]: the row in
    the table and the row proposed for insertion ([EXCLUDED]) are both in
    scope there and have the same columns, so the name needs its table. *)
Inductive ColumnRef :=
| bare (column : string)
| of_table (table column : string).

Definition resolved (r : ColumnRef) : bool :=
  match r with
  | bare _ => false
  | of_table _ _ => true
  end.

Definition prepare_on_conflict (refs : list ColumnRef) : M unit :=
  if forallb resolved refs then ret tt
  else throw "column reference is ambiguous".

End Pg.

(** How the driver sends a JavaScript value as a text parameter. *)
Definition text_param (v : JSON.value) : string :=
  match v with
  | JSON.Str s => s
  | _ => JSON.stringify v
  end.

(** [v || {}] *)
Definition or_empty_object (o : option JSON.value) : JSON.value :=
  match o with
  | Some v => if JSON.truthy v then v else JSON.Obj []
  | None => JSON.Obj []
  end.

(** [id || null] on a serial id: zero is falsy. *)
Definition id_or_null (o : option Z) : option Z :=
  match o with
  | Some n => if n =? 0 then None else Some n
  | None => None
  end.

(** HTTP responses: [res.status(c).json({success, message, data})]. *)
Record Pagination := mkPagination {
  page : Z;
  limit : Z;
  total : Z;
  totalPages : Z;
  hasNext : bool;
  hasPrev : bool
}.

Inductive Data :=
| NoData
| TicketData (ticket : Ticket.t)
| TicketCreated (ticketId : Z) (ticketNumber : string)
| TicketPage (rows : list Ticket.t) (pagination : Pagination)
| TransactionData (transaction : Transaction.t)
| BatchData (updated_count : Z) (rows : list Transaction.t).

Record Response := mkResponse {
  statusCode : Z;
  success : bool;
  message : string;
  data : Data
}.

(** The outermost [try { ... } catch (error) { ... }] of a handler. *)
Definition handler {A} (body : M A) (on_error : string -> M A) (fallback : A)
  : Store -> A * Store :=
  fun s =>
    match try_catch body on_error s with
    | (Ok r, s') => (r, s')
    | (Throw _, s') => (fallback, s')
    end.

(** * services/emailService.ts *)

Module EmailService.

Record EmailData := mkEmailData {
  to : string;
  ticketId : option Z;
  transactionId : option string;
  type : string
}.

Definition logEmail (env : Env) (d : EmailData) (status : string) : M unit :=
  modify (fun s =>
    set_email_logs
      (email_logs s ++
       [EmailLog.mk (id_or_null (ticketId d)) (Util.or_null (transactionId d)) (to d)
          (type d) status
          (if String.eqb status "sent" then Some (now env) else None)
          (now env)])%list s).

(** [getTransactionStatusUpdateTemplate(transactionId, status, amount,
    currency)].  The text it renders is not kept; what matters is whether
    rendering throws: [amount.toFixed(2)] exists on a JavaScript number
    only. *)
Definition getTransactionStatusUpdateTemplate (amount : JSON.value) : M unit :=
  match amount with
  | JSON.Num _ => ret tt
  | _ => throw "TypeError: amount.toFixed is not a function"
  end.

Definition sendEmail (env : Env) (d : EmailData) : M bool :=
  if negb (email_configured env) then
    logEmail env d "sent" ;;; ret true
  else if sendMail env (to d) then
    logEmail env d "sent" ;;; ret true
  else
    logEmail env d "failed" ;;; ret false.

End EmailService.

(** * services/whatsappService.ts *)

Module WhatsAppService.

Record WhatsAppMessage := mkMessage {
  to : JSON.value;
  ticketId : option Z;
  transactionId : option string;
  messageType : string
}.

(** [phone_number] is VARCHAR(20) and comes from JSON metadata; the method
    catches the refusal of its INSERT. *)
Definition logMessage (env : Env) (m : WhatsAppMessage) (status : string) : M unit :=
  try_catch
    (if varchar 20 (text_param (to m)) then
       modify (fun s =>
         set_whatsapp_logs
           (whatsapp_logs s ++
            [WhatsAppLog.mk (id_or_null (ticketId m)) (Util.or_null (transactionId m))
               (to m) (messageType m) status
               (if String.eqb status "sent" then Some (now env) else None)
               (now env)])%list s)
     else throw "value too long for type character varying(20)")
    (fun _ => ret tt).

Definition sendMessage (env : Env) (m : WhatsAppMessage) : M bool :=
  if negb (whatsapp_configured env) then
    logMessage env m "sent" ;;; ret true
  else if whatsapp_post env (to m) then
    logMessage env m "sent" ;;; ret true
  else
    logMessage env m "failed" ;;; ret false.

Definition sendStatusUpdate (env : Env) (phoneNumber : JSON.value) (ticketId : Z)
    (status : string) : M bool :=
  sendMessage env (mkMessage phoneNumber (Some ticketId) None "status_update").

Definition sendTransactionUpdate (env : Env) (phoneNumber : JSON.value)
    (transactionId : string) : M bool :=
  sendMessage env (mkMessage phoneNumber None (Some transactionId) "transaction_update").

Definition sendTrackingLink (env : Env) (phoneNumber : JSON.value)
    (ticketNumber : string) : M bool :=
  sendMessage env (mkMessage phoneNumber None None "tracking_link").

Definition handleWebhook (env : Env) (webhookData : JSON.value) : M unit :=
  modify (fun s =>
    set_whatsapp_logs (whatsapp_handleWebhook env webhookData (whatsapp_logs s)) s).

(** [verifyWebhook]; [verifyToken] is [process.env.WHATSAPP_VERIFY_TOKEN], and
    [None] stands for [undefined] in all four values, for [null] in the
    result. *)
Definition verifyWebhook (verifyToken mode token challenge : option string)
  : option string :=
  match mode with
  | Some m =>
      if String.eqb m "subscribe" &&
         match token, verifyToken with
         | Some a, Some b => String.eqb a b
         | None, None => true
         | _, _ => false
         end
      then challenge
      else None
  | None => None
  end.

End WhatsAppService.

(** Shared by TransactionController, WebhookController and CronService, each
    of which carries its own copy of this method.  Every caller passes a row
    it got from the database, so [transaction.amount] is what the driver made
    of the DECIMAL column; the template is rendered first, inside the [try]. *)
Definition sendTransactionNotifications (env : Env) (transaction : Transaction.t)
  : M unit :=
  try_catch
    (EmailService.getTransactionStatusUpdateTemplate
       (Transaction.row_amount transaction) ;;;
     _ <- EmailService.sendEmail env
            (EmailService.mkEmailData (Transaction.payer_email transaction) None
               (Some (Transaction.transaction_id transaction))
               "transaction_status_update") ;;
     match JSON.get "phone" (Transaction.metadata transaction) with
     | Some phoneNumber =>
         if JSON.truthy phoneNumber then
           _ <- WhatsAppService.sendTransactionUpdate env phoneNumber
                  (Transaction.transaction_id transaction) ;;
           ret tt
         else ret tt
     | None => ret tt
     end)
    (fun _ => ret tt).

(** * services/transactionService.ts *)

Module TransactionService.

Import Transaction.

(** The SET list the UPDATE statements on [transactions] share: the status,
    [gateway_response] where the statement sets it, [updated_at], and
    [completed_at] through the CASE on the new status. *)
Definition with_status (env : Env) (st : Status) (gw : option JSON.value) (x : t) : t :=
  mk (id x) (transaction_id x) (payer_email x) (merchant_email x) (amount x)
     (currency x) st (payment_method x)
     (match gw with Some g => g | None => gateway_response x end)
     (created_at x) (now env)
     (if terminal st then Some (now env) else completed_at x)
     (metadata x).

(** [SELECT * FROM transactions WHERE transaction_id = $1] *)
Definition select_by_transaction_id (transactionId : string) : M (list t) :=
  gets (fun s =>
    filter (fun x => String.eqb (transaction_id x) transactionId) (transactions s)).

(** A status outside the CHECK constraint makes the statement fail. *)
Definition check_status (status : string) : M Status :=
  match status_of_string status with
  | Some st => ret st
  | None => throw "new row for relation transactions violates check constraint"
  end.

(** [UPDATE transactions SET status = $1, gateway_response = $2, updated_at =
    CURRENT_TIMESTAMP, completed_at = CASE WHEN $1 IN ('success', ...) THEN
    CURRENT_TIMESTAMP ELSE completed_at END WHERE transaction_id = $3
    RETURNING *].  [$1] is assigned to the VARCHAR column [status] and stands
    before a list of literals. *)
Definition update_by_transaction_id (env : Env) (status : string) (gw : JSON.value)
    (transactionId : string) : M (list t) :=
  Pg.prepare [[Pg.assigned_to Pg.character_varying; Pg.among_literals];
              [Pg.assigned_to Pg.jsonb];
              [Pg.compared_with Pg.character_varying]] ;;;
  st <- check_status status ;;
  fun s =>
    let hit x := String.eqb (transaction_id x) transactionId in
    let rows := map (fun x => if hit x then with_status env st (Some gw) x else x)
                    (transactions s) in
    (Ok (filter hit rows), set_transactions rows (transactions_id_seq s) s).

Definition metadata_email (md : option JSON.value) (key default : string) : string :=
  match md with
  | Some m =>
      match JSON.get key m with
      | Some v => if JSON.truthy v then text_param v else default
      | None => default
      end
  | None => default
  end.

(** [INSERT INTO transactions ... VALUES ($1, ..., $9) ON CONFLICT
    (transaction_id) DO UPDATE SET status = EXCLUDED.status, gateway_response
    = EXCLUDED.gateway_response, updated_at = CURRENT_TIMESTAMP, completed_at
    = CASE WHEN EXCLUDED.status IN (...) THEN CURRENT_TIMESTAMP ELSE
    completed_at END RETURNING *].  The last [completed_at] is written
    without its table. *)
Definition upsert (env : Env) (r : TransactionStatusResponse) : M (list t) :=
  Pg.prepare_on_conflict
    [Pg.of_table "excluded" "status"; Pg.of_table "excluded" "gateway_response";
     Pg.of_table "excluded" "status"; Pg.bare "completed_at"] ;;;
  st <- check_status (r_status r) ;;
  fun s =>
    let hit x := String.eqb (transaction_id x) (r_transaction_id r) in
    if existsb hit (transactions s) then
      let rows := map (fun x => if hit x
                                then with_status env st (Some (r_gateway_response r)) x
                                else x) (transactions s) in
      (Ok (filter hit rows), set_transactions rows (transactions_id_seq s) s)
    else
      let row :=
        mk (transactions_id_seq s) (r_transaction_id r)
           (metadata_email (r_metadata r) "payer_email" "unknown@example.com")
           (metadata_email (r_metadata r) "merchant_email" "merchant@example.com")
           (r_amount r) (r_currency r) st (Some (r_payment_method r))
           (r_gateway_response r) (now env) (now env) None
           (or_empty_object (r_metadata r)) in
      (Ok [row],
       set_transactions (transactions s ++ [row])%list (transactions_id_seq s + 1) s).

Definition updateTransactionStatus (env : Env) (transactionId : string)
  : M (option t) :=
  try_catch
    (match fetchTransactionStatus env transactionId with
     | None => ret None
     | Some statusResponse =>
         currentResult <- select_by_transaction_id transactionId ;;
         match currentResult with
         | [] =>
             insertResult <- upsert env statusResponse ;;
             ret (hd_error insertResult)
         | currentTransaction :: _ =>
             if negb (String.eqb (status_to_string (status currentTransaction))
                                 (r_status statusResponse)) then
               updateResult <- update_by_transaction_id env (r_status statusResponse)
                                 (r_gateway_response statusResponse) transactionId ;;
               transaction <- first_row updateResult ;;
               insert_status_update env StatusUpdate.transaction (id transaction)
                 (Some (status_to_string (status currentTransaction)))
                 (r_status statusResponse) "External API update" None ;;;
               ret (Some transaction)
             else ret (Some currentTransaction)
         end
     end)
    (fun _ => ret None).

(** The loop body of [batchUpdateTransactions], with its own try/catch. *)
Definition batch_step (env : Env) (updatedTransactions : list t)
    (transactionId : string) : M (list t) :=
  try_catch
    (transaction <- updateTransactionStatus env transactionId ;;
     match transaction with
     | Some x => ret (updatedTransactions ++ [x])%list
     | None => ret updatedTransactions
     end)
    (fun _ => ret updatedTransactions).

Fixpoint batch_loop (env : Env) (transactionIds : list string)
    (updatedTransactions : list t) : M (list t) :=
  match transactionIds with
  | [] => ret updatedTransactions
  | transactionId :: rest =>
      acc <- batch_step env updatedTransactions transactionId ;;
      batch_loop env rest acc
  end.

Definition batchUpdateTransactions (env : Env) (transactionIds : list string)
  : M (list t) :=
  batch_loop env transactionIds [].

(** ** getPendingTransactions *)

Definition minutes_5 : Z := 5 * 60 * 1000.

(** [status IN ('initiated', 'pending', 'processing')] *)
Definition in_flight (s : Status) : bool :=
  match s with
  | initiated | pending | processing => true
  | _ => false
  end.

(** [ORDER BY updated_at ASC]; rows with equal times keep their table order. *)
Fixpoint insert_asc (x : t) (l : list t) : list t :=
  match l with
  | [] => [x]
  | y :: rest =>
      if updated_at x <=? updated_at y then x :: l else y :: insert_asc x rest
  end.

Definition order_by_updated_at_asc (l : list t) : list t :=
  fold_right insert_asc [] l.

(** [SELECT transaction_id FROM transactions WHERE status IN (...) AND
    updated_at < CURRENT_TIMESTAMP - INTERVAL '5 minutes' ORDER BY updated_at
    ASC LIMIT 50]; an error of the store gives the empty list. *)
Definition getPendingTransactions (env : Env) : M (list string) :=
  try_catch
    (gets (fun s =>
       map transaction_id
         (firstn 50
            (order_by_updated_at_asc
               (filter (fun x => in_flight (status x) &&
                                 (updated_at x <? now env - minutes_5))
                       (transactions s))))))
    (fun _ => ret []).

(** ** createTransaction *)

(** [Partial<Transaction>], as far as the INSERT reads it. *)
Record TransactionCreationData := mkCreation {
  c_transaction_id : option string;
  c_payer_email : option string;
  c_merchant_email : option string;
  c_amount : option Z;
  c_currency : option string;
  c_status : option Status;
  c_payment_method : option string;
  c_metadata : option JSON.value
}.

(** [INSERT INTO transactions (...) VALUES ($1, ..., $8) RETURNING *].  The
    row gets the next value of the id sequence, which is taken also when a
    constraint then refuses the row; [gateway_response], the timestamps and
    [completed_at] take their defaults. *)
Definition insert_transaction (env : Env) (d : TransactionCreationData)
  : M (list t) :=
  fun s =>
    let currency_ := Util.or_default (c_currency d) "USD" in
    let refused msg :=
      (Throw msg, set_transactions (transactions s) (transactions_id_seq s + 1) s) in
    match c_transaction_id d, c_payer_email d, c_merchant_email d, c_amount d with
    | Some tid, Some payer, Some merchant, Some amt =>
        if negb (varchar 100 tid && varchar 255 payer && varchar 255 merchant &&
                 varchar 3 currency_ && varchar_opt 50 (c_payment_method d)) then
          refused "value too long for type character varying"
        else if negb (decimal_10_2 amt) then refused "numeric field overflow"
        else if existsb (fun x => String.eqb (transaction_id x) tid) (transactions s) then
          refused "duplicate key value violates unique constraint"
        else
          let row :=
            mk (transactions_id_seq s) tid payer merchant amt currency_
               (match c_status d with Some st => st | None => initiated end)
               (c_payment_method d) (JSON.Obj []) (now env) (now env) None
               (or_empty_object (c_metadata d)) in
          (Ok [row],
           set_transactions (transactions s ++ [row])%list
                            (transactions_id_seq s + 1) s)
    | _, _, _, _ => refused "null value violates not-null constraint"
    end.

Definition createTransaction (env : Env) (transactionData : TransactionCreationData)
  : M (option t) :=
  try_catch
    (result <- insert_transaction env transactionData ;;
     ret (hd_error result))
    (fun _ => ret None).

End TransactionService.

Definition emit (e : Event) : M unit :=
  modify (fun s => set_emitted (emitted s ++ [e])%list s).

(** * controllers/transactionController.ts *)

Module TransactionController.

Import Transaction.

(** [PUT /api/transactions/:id/status] with body [{status, reason, updated_by}]. *)
Record StatusRequest := mkStatusRequest {
  req_id : string;
  req_status : option Status;
  req_reason : option string;
  req_updated_by : option string
}.

(** [SELECT * FROM transactions WHERE transaction_id = $1 OR id = $1]: [$1]
    is compared with the VARCHAR column [transaction_id] and with the serial
    column [id]. *)
Definition select_by_id_or_transaction_id (id_ : string) : M (list t) :=
  Pg.prepare [[Pg.compared_with Pg.character_varying;
               Pg.compared_with Pg.integer]] ;;;
  gets (fun s =>
    filter (fun x => String.eqb (transaction_id x) id_ ||
                     String.eqb (Util.string_of_Z (id x)) id_)
           (transactions s)).

(** [UPDATE transactions SET status = $1, updated_at = CURRENT_TIMESTAMP,
    completed_at = CASE WHEN $1 IN ('success', ...) THEN CURRENT_TIMESTAMP
    ELSE completed_at END WHERE id = $2 RETURNING *] *)
Definition update_by_id (env : Env) (st : Status) (id_ : Z) : M (list t) :=
  Pg.prepare [[Pg.assigned_to Pg.character_varying; Pg.among_literals];
              [Pg.compared_with Pg.integer]] ;;;
  fun s =>
    let hit x := id x =? id_ in
    let rows := map (fun x => if hit x
                              then TransactionService.with_status env st None x
                              else x) (transactions s) in
    (Ok (filter hit rows), set_transactions rows (transactions_id_seq s) s).

Definition internal_error (msg : string) : Response := mkResponse 500 false msg NoData.

Definition updateTransactionStatus (env : Env) (req : StatusRequest)
  : Store -> Response * Store :=
  handler
    (match req_status req with
     | None => ret (mkResponse 400 false "Status is required" NoData)
     | Some status_ =>
         currentResult <- select_by_id_or_transaction_id (req_id req) ;;
         match currentResult with
         | [] => ret (mkResponse 404 false "Transaction not found" NoData)
         | currentTransaction :: _ =>
             updateResult <- update_by_id env status_ (id currentTransaction) ;;
             updatedTransaction <- first_row updateResult ;;
             insert_status_update env StatusUpdate.transaction (id updatedTransaction)
               (Some (status_to_string (status currentTransaction)))
               (status_to_string status_)
               (Util.or_default (req_reason req) "Manual status update")
               (Some (Util.or_default (req_updated_by req) "admin")) ;;;
             sendTransactionNotifications env updatedTransaction ;;;
             emit (transaction_updated updatedTransaction) ;;;
             ret (mkResponse 200 true "Transaction status updated successfully"
                    (TransactionData updatedTransaction))
         end
     end)
    (fun _ => ret (internal_error "Failed to update transaction status"))
    (internal_error "Failed to update transaction status").

(** [POST /api/transactions/:id/refresh] *)
Definition refreshTransactionStatus (env : Env) (id_ : string)
  : Store -> Response * Store :=
  handler
    (transactionResult <- select_by_id_or_transaction_id id_ ;;
     match transactionResult with
     | [] => ret (mkResponse 404 false "Transaction not found" NoData)
     | currentTransaction :: _ =>
         updated <- TransactionService.updateTransactionStatus env
                      (transaction_id currentTransaction) ;;
         match updated with
         | None => ret (internal_error "Failed to refresh transaction status")
         | Some updatedTransaction =>
             (if negb (String.eqb (status_to_string (status updatedTransaction))
                                  (status_to_string (status currentTransaction))) then
                sendTransactionNotifications env updatedTransaction ;;;
                emit (transaction_updated updatedTransaction)
              else ret tt) ;;;
             ret (mkResponse 200 true "Transaction status refreshed successfully"
                    (TransactionData updatedTransaction))
         end
     end)
    (fun _ => ret (internal_error "Failed to refresh transaction status"))
    (internal_error "Failed to refresh transaction status").

Fixpoint notify_all (env : Env) (l : list t) : M unit :=
  match l with
  | [] => ret tt
  | x :: rest => sendTransactionNotifications env x ;;; notify_all env rest
  end.

(** [POST /api/transactions/batch-update]; [None] is a body whose
    [transaction_ids] is not an array. *)
Definition batchUpdateTransactions (env : Env) (transaction_ids : option (list string))
  : Store -> Response * Store :=
  handler
    (match transaction_ids with
     | None | Some [] =>
         ret (mkResponse 400 false "Transaction IDs array is required" NoData)
     | Some ids =>
         updatedTransactions <- TransactionService.batchUpdateTransactions env ids ;;
         notify_all env updatedTransactions ;;;
         ret (mkResponse 200 true
                ("Updated " ++
                 Util.string_of_Z (Z.of_nat (List.length updatedTransactions)) ++
                 " transactions")
                (BatchData (Z.of_nat (List.length updatedTransactions))
                           updatedTransactions))
     end)
    (fun _ => ret (internal_error "Failed to batch update transactions"))
    (internal_error "Failed to batch update transactions").

(** ** createTransaction *)

(** [POST /api/transactions] *)
Definition truthy_text (o : option string) : bool :=
  match o with
  | Some s => Util.truthy_string s
  | None => false
  end.

Definition truthy_number (o : option Z) : bool :=
  match o with
  | Some n => negb (n =? 0)
  | None => false
  end.

Definition createTransaction (env : Env)
    (transactionData : TransactionService.TransactionCreationData)
  : Store -> Response * Store :=
  handler
    (if negb (truthy_text (TransactionService.c_transaction_id transactionData)) ||
        negb (truthy_text (TransactionService.c_payer_email transactionData)) ||
        negb (truthy_number (TransactionService.c_amount transactionData)) then
       ret (mkResponse 400 false
              "Transaction ID, payer email, and amount are required" NoData)
     else
       transaction <- TransactionService.createTransaction env transactionData ;;
       match transaction with
       | None => ret (mkResponse 500 false "Failed to create transaction" NoData)
       | Some x =>
           emit (transaction_created x) ;;;
           ret (mkResponse 201 true "Transaction created successfully"
                  (TransactionData x))
       end)
    (fun _ => ret (internal_error "Failed to create transaction"))
    (internal_error "Failed to create transaction").

End TransactionController.

(** * Parameterised queries over [tickets]

    The handlers assemble SQL text with numbered placeholders and pass the
    values in an array.  The text is kept as a syntax tree of the conditions
    the handlers can produce; a placeholder is its number. *)

Module Sql.

Inductive Column :=
| status | priority | customer_email | merchant_email | assigned_to
| transaction_id | created_at | subject | description | ticket_number.

Inductive Cond :=
| Eq (c : Column) (p : nat)
| ILike (c : Column) (p : nat)
| Ge (c : Column) (p : nat)
| Le (c : Column) (p : nat)
| Or3 (a b c : Cond).

Inductive Param := PText (s : string) | PNum (n : Z).

Fixpoint placeholders (c : Cond) : list nat :=
  match c with
  | Eq _ p | ILike _ p | Ge _ p | Le _ p => [p]
  | Or3 a b c => (placeholders a ++ placeholders b ++ placeholders c)%list
  end.

(** The statement needs the parameters [$1 .. $n] it mentions, each with a
    type it can infer from a use, and the bind message has to supply exactly
    those: the placeholders must be the numbers from 1 to the length of the
    array, none missing. *)
Definition placeholders_match (refs : list nat) (n : nat) : bool :=
  forallb (fun r => Nat.leb 1 r && Nat.leb r n) refs &&
  forallb (fun i => existsb (Nat.eqb i) refs) (seq 1 n).

Definition param (params : list Param) (p : nat) : option Param :=
  nth_error params (p - 1).

Definition param_text (x : Param) : string :=
  match x with
  | PText s => s
  | PNum n => Util.string_of_Z n
  end.

(** A text column of a row; [None] is NULL. *)
Definition text_of (c : Column) (t : Ticket.t) : option string :=
  match c with
  | status => Some (Ticket.status_to_string (Ticket.status t))
  | priority => Some (Ticket.priority_to_string (Ticket.priority t))
  | customer_email => Some (Ticket.customer_email t)
  | merchant_email => Ticket.merchant_email t
  | assigned_to => Ticket.assigned_to t
  | transaction_id => Ticket.transaction_id t
  | subject => Some (Ticket.subject t)
  | description => Ticket.description t
  | ticket_number => Some (Ticket.ticket_number t)
  | created_at => None
  end.

(** Conditions with their parameters bound. *)
Inductive Bound :=
| BEq (c : Column) (v : string)
| BILike (c : Column) (pattern : string)
| BGe (ts : Z)
| BLe (ts : Z)
| BOr3 (a b c : Bound).

Fixpoint bind_cond (env : Env) (params : list Param) (c : Cond) : option Bound :=
  match c with
  | Eq col p => option_map (fun x => BEq col (param_text x)) (param params p)
  | ILike col p => option_map (fun x => BILike col (param_text x)) (param params p)
  | Ge _ p =>
      match param params p with
      | Some x => option_map BGe (timestamptz_in env (param_text x))
      | None => None
      end
  | Le _ p =>
      match param params p with
      | Some x => option_map BLe (timestamptz_in env (param_text x))
      | None => None
      end
  | Or3 a b c =>
      match bind_cond env params a, bind_cond env params b, bind_cond env params c with
      | Some a', Some b', Some c' => Some (BOr3 a' b' c')
      | _, _, _ => None
      end
  end.

Fixpoint bind_all (env : Env) (params : list Param) (cs : list Cond)
  : option (list Bound) :=
  match cs with
  | [] => Some []
  | c :: rest =>
      match bind_cond env params c, bind_all env params rest with
      | Some b, Some bs => Some (b :: bs)
      | _, _ => None
      end
  end.

(** A comparison with NULL is not true. *)
Fixpoint holds (b : Bound) (t : Ticket.t) : bool :=
  match b with
  | BEq c v =>
      match text_of c t with
      | Some x => String.eqb x v
      | None => false
      end
  | BILike c pattern =>
      match text_of c t with
      | Some x => Util.ilike x pattern
      | None => false
      end
  | BGe ts => ts <=? Ticket.created_at t
  | BLe ts => Ticket.created_at t <=? ts
  | BOr3 a b c => holds a t || holds b t || holds c t
  end.

(** [ORDER BY created_at DESC].  SQL leaves the order of rows with equal
    times open; here they keep their table order, and no statement below
    depends on it. *)
Fixpoint insert_desc (t : Ticket.t) (l : list Ticket.t) : list Ticket.t :=
  match l with
  | [] => [t]
  | x :: rest =>
      if Ticket.created_at x <=? Ticket.created_at t then t :: l
      else x :: insert_desc t rest
  end.

Definition order_by_created_at_desc (l : list Ticket.t) : list Ticket.t :=
  fold_right insert_desc [] l.

Definition int_param (params : list Param) (p : nat) : option Z :=
  match param params p with
  | Some (PNum n) => Some n
  | _ => None
  end.

(** [SELECT * FROM tickets WHERE c1 AND ... ORDER BY created_at DESC
    LIMIT $l OFFSET $o] *)
Definition select_page (env : Env) (where_ : list Cond) (l o : nat)
    (params : list Param) : M (list Ticket.t) :=
  if negb (placeholders_match (flat_map placeholders where_ ++ [l; o])%list
                              (List.length params)) then
    throw "bind message supplies the wrong number of parameters"
  else
    match bind_all env params where_, int_param params l, int_param params o with
    | Some bs, Some lim, Some off =>
        if (lim <? 0) || (off <? 0) then throw "LIMIT and OFFSET must not be negative"
        else
          gets (fun s =>
            firstn (Z.to_nat lim)
              (skipn (Z.to_nat off)
                 (order_by_created_at_desc
                    (filter (fun t => forallb (fun b => holds b t) bs) (tickets s)))))
    | _, _, _ => throw "invalid input syntax"
    end.

(** [SELECT COUNT( * ) FROM tickets WHERE c1 AND ...] *)
Definition select_count (env : Env) (where_ : list Cond) (params : list Param)
  : M Z :=
  if negb (placeholders_match (flat_map placeholders where_) (List.length params)) then
    throw "bind message supplies the wrong number of parameters"
  else
    match bind_all env params where_ with
    | Some bs =>
        gets (fun s =>
          Z.of_nat (List.length
            (filter (fun t => forallb (fun b => holds b t) bs) (tickets s))))
    | None => throw "invalid input syntax"
    end.

End Sql.

(** * controllers/ticketController.ts *)

Module TicketController.

Import Ticket.

Definition internal_error (msg : string) : Response := mkResponse 500 false msg NoData.

(** ** getTickets *)

Record ListQuery := mkListQuery {
  (** [parseInt(req.query.page)]; [None] is [NaN] *)
  q_page : option Z;
  q_limit : option Z;
  q_filters : TicketFilter
}.

(** [parseInt(x) || d] *)
Definition int_or (o : option Z) (d : Z) : Z :=
  match o with
  | Some n => if n =? 0 then d else n
  | None => d
  end.

Record Builder := mkBuilder {
  whereConditions : list Sql.Cond;
  queryParams : list Sql.Param;
  paramIndex : nat
}.

(** [whereConditions.push(`col op $${paramIndex++}`); queryParams.push(v)] *)
Definition push (cond : nat -> Sql.Cond) (v : string) (b : Builder) : Builder :=
  mkBuilder (whereConditions b ++ [cond (paramIndex b)])%list
            (queryParams b ++ [Sql.PText v])%list
            (S (paramIndex b)).

(** The search filter: three placeholders in the text, three values pushed,
    and then [paramIndex += 2] on top of the three increments. *)
Definition push_search (v : string) (b : Builder) : Builder :=
  let p := paramIndex b in
  mkBuilder
    (whereConditions b ++
     [Sql.Or3 (Sql.ILike Sql.subject p) (Sql.ILike Sql.description (p + 1))
              (Sql.ILike Sql.ticket_number (p + 2))])%list
    (queryParams b ++ [Sql.PText v; Sql.PText v; Sql.PText v])%list
    (p + 3 + 2).

(** [if (filters.x) { ... }] *)
Definition when_set (o : option string) (f : string -> Builder -> Builder)
    (b : Builder) : Builder :=
  match o with
  | Some v => if Util.truthy_string v then f v b else b
  | None => b
  end.

Definition wildcard (v : string) : string := "%" ++ v ++ "%".

Definition before_search (filters : TicketFilter) : Builder :=
  let b := mkBuilder [] [] 1 in
  let b := when_set (f_status filters) (push (Sql.Eq Sql.status)) b in
  let b := when_set (f_priority filters) (push (Sql.Eq Sql.priority)) b in
  let b := when_set (f_customer_email filters)
             (fun v => push (Sql.ILike Sql.customer_email) (wildcard v)) b in
  let b := when_set (f_merchant_email filters)
             (fun v => push (Sql.ILike Sql.merchant_email) (wildcard v)) b in
  let b := when_set (f_assigned_to filters)
             (fun v => push (Sql.ILike Sql.assigned_to) (wildcard v)) b in
  let b := when_set (f_transaction_id filters) (push (Sql.Eq Sql.transaction_id)) b in
  let b := when_set (f_date_from filters) (push (Sql.Ge Sql.created_at)) b in
  let b := when_set (f_date_to filters) (push (Sql.Le Sql.created_at)) b in
  b.

Definition build_where (filters : TicketFilter) : Builder :=
  when_set (f_search filters) (fun v => push_search (wildcard v))
           (before_search filters).

(** [Math.ceil(total / limit)] for a non-zero limit *)
Definition ceil_div (a b : Z) : Z := - ((- a) / b).

(** [queryParams.slice(0, -2)] *)
Definition drop_last_two {A} (l : list A) : list A :=
  firstn (List.length l - 2) l.

Definition getTickets (env : Env) (q : ListQuery) : Store -> Response * Store :=
  handler
    (let page := int_or (q_page q) 1 in
     let limit := int_or (q_limit q) 10 in
     let offset := (page - 1) * limit in
     let b := build_where (q_filters q) in
     let limit_ix := paramIndex b in
     let offset_ix := S (paramIndex b) in
     let queryParams := (queryParams b ++ [Sql.PNum limit; Sql.PNum offset])%list in
     rows <- Sql.select_page env (whereConditions b) limit_ix offset_ix queryParams ;;
     total <- Sql.select_count env (whereConditions b) (drop_last_two queryParams) ;;
     let totalPages := ceil_div total limit in
     ret (mkResponse 200 true ""
            (TicketPage rows
               (mkPagination page limit total totalPages
                  (page <? totalPages) (1 <? page)))))
    (fun _ => ret (internal_error "Failed to fetch tickets"))
    (internal_error "Failed to fetch tickets").

(** ** createTicket *)

Definition ticketNumber (env : Env) : string :=
  "TK" ++ Util.string_of_Z (now env) ++ Util.string_of_Z (random1000 env).

(** [INSERT INTO tickets (...) VALUES (...) RETURNING *]; [ticket_number] is
    UNIQUE, [status] takes its default.  The row gets the next value of the
    id sequence, which is taken also when the row is then refused. *)
Definition insert_ticket (env : Env) (number customer : string)
    (merchant : option string) (subject_ : string) (description_ : option string)
    (priority_ : Priority) (transaction : option string) (tags_ : list string)
    (metadata_ : JSON.value) : M (list t) :=
  fun s =>
    let refused msg :=
      (Throw msg, set_tickets (tickets s) (tickets_id_seq s + 1) s) in
    if negb (varchar 50 number && varchar 255 customer && varchar_opt 255 merchant &&
             varchar_opt 100 transaction) then
      refused "value too long for type character varying"
    else if existsb (fun x => String.eqb (ticket_number x) number) (tickets s) then
      refused "duplicate key value violates unique constraint"
    else
      let row := mk (tickets_id_seq s) number customer merchant subject_ description_
                    open priority_ transaction (now env) (now env) None None tags_
                    metadata_ in
      (Ok [row], set_tickets (tickets s ++ [row])%list (tickets_id_seq s + 1) s).

Definition option_default {A} (o : option A) (d : A) : A :=
  match o with
  | Some a => a
  | None => d
  end.

Definition createTicket (env : Env) (ticketData : TicketCreationData)
  : Store -> Response * Store :=
  handler
    (match Util.or_null (c_customer_email ticketData),
           Util.or_null (c_subject ticketData) with
     | Some customer, Some subject_ =>
         let number := ticketNumber env in
         result <- insert_ticket env number customer
                     (Util.or_null (c_merchant_email ticketData)) subject_
                     (Util.or_null (c_description ticketData))
                     (option_default (c_priority ticketData) medium)
                     (Util.or_null (c_transaction_id ticketData))
                     (option_default (c_tags ticketData) [])
                     (or_empty_object (c_metadata ticketData)) ;;
         ticket <- first_row result ;;
         insert_status_update env StatusUpdate.ticket (id ticket) None "open"
           "Ticket created" None ;;;
         _ <- EmailService.sendEmail env
                (EmailService.mkEmailData customer (Some (id ticket)) None
                   "acknowledgment") ;;
         (match c_metadata ticketData with
          | Some md =>
              match JSON.get "phone" md with
              | Some phoneNumber =>
                  if JSON.truthy phoneNumber then
                    _ <- WhatsAppService.sendTrackingLink env phoneNumber number ;;
                    ret tt
                  else ret tt
              | None => ret tt
              end
          | None => ret tt
          end) ;;;
         emit (ticket_created ticket) ;;;
         ret (mkResponse 201 true "Ticket created successfully" (TicketData ticket))
     | _, _ =>
         ret (mkResponse 400 false "Customer email and subject are required" NoData)
     end)
    (fun _ => ret (internal_error "Failed to create ticket"))
    (internal_error "Failed to create ticket").

(** ** updateTicket *)

(** The SET list the handler assembles: only supplied fields change,
    [updated_at] always does, [resolved_at] on the way into [resolved]. *)
Definition apply_update (env : Env) (updateData : TicketUpdateData)
    (currentTicket : t) (x : t) : t :=
  mk (id x) (ticket_number x) (customer_email x) (merchant_email x) (subject x)
     (description x)
     (option_default (u_status updateData) (status x))
     (option_default (u_priority updateData) (priority x))
     (transaction_id x) (created_at x)
     (now env)
     (match u_status updateData with
      | Some resolved =>
          if negb (status_eqb (status currentTicket) resolved) then Some (now env)
          else resolved_at x
      | _ => resolved_at x
      end)
     (match u_assigned_to updateData with
      | Some a => Some a
      | None => assigned_to x
      end)
     (option_default (u_tags updateData) (tags x))
     (match u_metadata updateData with
      | Some m => if JSON.truthy m then m else metadata x
      | None => metadata x
      end).

(** [req.params.id] reaches a statement as text and is compared there with
    the serial column [id], so the server reads it as an [int4] and refuses a
    text that is none.  [id_] is the integer the text of the route denotes. *)
Definition route_id (id_ : Z) : M Z :=
  if int4 id_ then ret id_
  else throw "value is out of range for type integer".

(** [SELECT * FROM tickets WHERE id = $1] on the id of the route *)
Definition select_by_id (id_ : Z) : M (list t) :=
  n <- route_id id_ ;;
  gets (fun s => filter (fun x => id x =? n) (tickets s)).

(** [UPDATE tickets SET ... WHERE id = $n RETURNING *] on an id that is an
    [int4]: the id of a row, or the id of the route once it has been read. *)
Definition update_by_id (f : t -> t) (id_ : Z) : M (list t) :=
  fun s =>
    let hit x := id x =? id_ in
    let rows := map (fun x => if hit x then f x else x) (tickets s) in
    (Ok (filter hit rows), set_tickets rows (tickets_id_seq s) s).

(** The UPDATE of [updateTicket]: the id is the text of the route again, and
    [assigned_to] is VARCHAR(255). *)
Definition update_fields (env : Env) (updateData : TicketUpdateData)
    (currentTicket : t) (id_ : Z) : M (list t) :=
  n <- route_id id_ ;;
  if varchar_opt 255 (u_assigned_to updateData) then
    update_by_id (apply_update env updateData currentTicket) n
  else throw "value too long for type character varying(255)".

Definition sendStatusNotifications (env : Env) (ticket : t) (newStatus : Status)
    (resolution : option string) : M unit :=
  try_catch
    ((match newStatus, Util.or_null resolution with
      | resolved, Some _ =>
          _ <- EmailService.sendEmail env
                 (EmailService.mkEmailData (customer_email ticket) (Some (id ticket))
                    None "closure") ;;
          ret tt
      | _, _ => ret tt
      end) ;;;
     match JSON.get "phone" (metadata ticket) with
     | Some phoneNumber =>
         if JSON.truthy phoneNumber then
           _ <- WhatsAppService.sendStatusUpdate env phoneNumber (id ticket)
                  (status_to_string newStatus) ;;
           ret tt
         else ret tt
     | None => ret tt
     end)
    (fun _ => ret tt).

Definition updateTicket (env : Env) (id_ : Z) (updateData : TicketUpdateData)
  : Store -> Response * Store :=
  handler
    (currentResult <- select_by_id id_ ;;
     match currentResult with
     | [] => ret (mkResponse 404 false "Ticket not found" NoData)
     | currentTicket :: _ =>
         result <- update_fields env updateData currentTicket id_ ;;
         (** the UPDATE returns at least the row the SELECT has just found *)
         updatedTicket <- first_row result ;;
         (match u_status updateData with
          | Some newStatus =>
              if negb (status_eqb newStatus (status currentTicket)) then
                insert_status_update env StatusUpdate.ticket (id updatedTicket)
                  (Some (status_to_string (status currentTicket)))
                  (status_to_string newStatus)
                  (Util.or_default (u_resolution updateData) "Status updated")
                  (Some (Util.or_default (u_updated_by updateData) "system")) ;;;
                sendStatusNotifications env updatedTicket newStatus
                  (u_resolution updateData)
              else ret tt
          | None => ret tt
          end) ;;;
         emit (ticket_updated updatedTicket (status currentTicket)
                 (u_status updateData)) ;;;
         ret (mkResponse 200 true "Ticket updated successfully"
                (TicketData updatedTicket))
     end)
    (fun _ => ret (internal_error "Failed to update ticket"))
    (internal_error "Failed to update ticket").

(** ** deleteTicket: the soft delete *)

Definition close (env : Env) (x : t) : t :=
  mk (id x) (ticket_number x) (customer_email x) (merchant_email x) (subject x)
     (description x) closed (priority x) (transaction_id x) (created_at x)
     (now env) (resolved_at x) (assigned_to x) (tags x) (metadata x).

Definition deleteTicket (env : Env) (id_ : Z) : Store -> Response * Store :=
  handler
    (n <- route_id id_ ;;
     result <- update_by_id (close env) n ;;
     match result with
     | [] => ret (mkResponse 404 false "Ticket not found" NoData)
     | _ :: _ => ret (mkResponse 200 true "Ticket closed successfully" NoData)
     end)
    (fun _ => ret (internal_error "Failed to close ticket"))
    (internal_error "Failed to close ticket").

(** ** processIncomingEmail *)

(** [JSON.stringify] leaves out the fields whose value is [undefined]. *)
Definition defined_fields (l : list (string * option JSON.value)) : JSON.value :=
  JSON.Obj (flat_map (fun kv => match snd kv with
                                | Some v => [(fst kv, v)]
                                | None => []
                                end) l).

(** The handler rethrows whatever it catches. *)
Definition processIncomingEmail (env : Env) (emailData : JSON.value) : M t :=
  let number := ticketNumber env in
  result <- insert_ticket env number
              (match JSON.get "from" emailData with
               | Some v => text_param v
               | None => ""
               end)
              None
              (match JSON.get "subject" emailData with
               | Some v => text_param v
               | None => ""
               end)
              (option_map text_param (JSON.get "body" emailData))
              medium None []
              (defined_fields
                 [("original_email_id", JSON.get "id" emailData);
                  ("email_thread_id", JSON.get "threadId" emailData);
                  ("received_at", JSON.get "receivedAt" emailData)]) ;;
  ticket <- first_row result ;;
  (** [ticketData.customer_email.split('@')] needs a string *)
  match JSON.get "from" emailData with
  | Some (JSON.Str customer) =>
      _ <- EmailService.sendEmail env
             (EmailService.mkEmailData customer (Some (id ticket)) None
                "acknowledgment") ;;
      emit (ticket_created ticket) ;;;
      ret ticket
  | _ => throw "TypeError: ticketData.customer_email.split is not a function"
  end.

End TicketController.

(** * controllers/webhookController.ts *)

Module WebhookController.

(** An inbound POST: the bytes on the wire, what [express.json()] made of
    them, and the headers.  Handlers only ever see [body] and [headers]. *)
Record Request := mkRequest {
  rawBody : string;
  body : JSON.value;
  headers : list (string * string)
}.

Fixpoint header (name : string) (l : list (string * string)) : option string :=
  match l with
  | [] => None
  | (k, v) :: rest => if String.eqb k name then Some v else header name rest
  end.

Definition internal_error : Response :=
  mkResponse 500 false "Internal server error" NoData.

(** ** verifyWhatsAppWebhook: the status and the text that is sent *)

Definition verifyWhatsAppWebhook (verifyToken : option string)
    (query : list (string * string)) : Z * string :=
  let mode := header "hub.mode" query in
  let token := header "hub.verify_token" query in
  let challenge := header "hub.challenge" query in
  match WhatsAppService.verifyWebhook verifyToken mode token challenge with
  | Some result => if Util.truthy_string result then (200, result) else (403, "Forbidden")
  | None => (403, "Forbidden")
  end.

(** ** logWebhook: one INSERT, its failure swallowed.  [source] and
    [event_type] are VARCHAR(100) and [status] has a CHECK constraint. *)

Definition insert_webhook_log (env : Env) (source eventType : string)
    (payload : JSON.value) (status : string) (errorMessage : option string) : M unit :=
  fun s =>
    if negb (varchar 100 source && varchar 100 eventType) then
      (Throw "value too long for type character varying(100)", s)
    else if WebhookLog.status_check status then
      (Ok tt,
       set_webhook_logs
         (webhook_logs s ++
          [WebhookLog.mk source eventType (JSON.stringify payload) status
             (if String.eqb status "processed" then Some (now env) else None)
             (Util.or_null errorMessage) (now env)])%list s)
    else (Throw "new row for relation webhook_logs violates check constraint", s).

Definition logWebhook (env : Env) (source eventType : string) (payload : JSON.value)
    (status : string) (errorMessage : option string) : M unit :=
  try_catch (insert_webhook_log env source eventType payload status errorMessage)
            (fun _ => ret tt).

(** The default value of the [status] parameter. *)
Definition pending : string := "pending".

(** ** verifySignature *)

(** [Buffer.from(s)]: a [TypeError] when the header is absent. *)
Definition Buffer_from (s : option string) : Result (list Z) :=
  match s with
  | Some x => Ok (Util.bytes_of_string x)
  | None => Throw "TypeError: The first argument must be of type string"
  end.

Fixpoint bytes_eqb (a b : list Z) : bool :=
  match a, b with
  | [], [] => true
  | x :: a', y :: b' => (x =? y) && bytes_eqb a' b'
  | _, _ => false
  end.

(** [crypto.timingSafeEqual]: a [RangeError] on buffers of different length. *)
Definition timingSafeEqual (a b : list Z) : Result bool :=
  if Nat.eqb (List.length a) (List.length b) then Ok (bytes_eqb a b)
  else Throw "RangeError: Input buffers must have the same byte length".

Definition verifySignature (payload : string) (signature : option string)
    (secret : string) : bool :=
  let expectedSignature := Crypto.createHmac_sha256_hex secret payload in
  match Buffer_from signature with
  | Ok a =>
      match timingSafeEqual a (Util.bytes_of_string ("sha256=" ++ expectedSignature)) with
      | Ok b => b
      | Throw _ => false
      end
  | Throw _ => false
  end.

(** [process.env.X] as a condition and a value. *)
Definition configured (v : option string) : option string := Util.or_null v.

(** ** handleWhatsAppWebhook *)

Definition handleWhatsAppWebhook (env : Env) (req : Request)
  : Store -> Response * Store :=
  handler
    (logWebhook env "whatsapp" "message_received" (body req) pending None ;;;
     WhatsAppService.handleWebhook env (body req) ;;;
     ret (mkResponse 200 true "" NoData))
    (fun e =>
       logWebhook env "whatsapp" "message_received" (body req) "failed" (Some e) ;;;
       ret internal_error)
    internal_error.

(** ** handleEmailWebhook *)

Fixpoint split_la (sep : ascii) (cur : list ascii) (s : list ascii) : list string :=
  match s with
  | [] => [string_of_list_ascii (rev cur)]
  | c :: rest =>
      if Ascii.eqb c sep then string_of_list_ascii (rev cur) :: split_la sep [] rest
      else split_la sep (c :: cur) rest
  end.

(** [s.split(',')] *)
Definition split_comma (s : string) : list string :=
  split_la "," [] (list_ascii_of_string s).

Definition is_space (c : ascii) : bool :=
  let n := N_of_ascii c in
  ((n =? 32) || ((9 <=? n) && (n <=? 13)))%N.

Fixpoint trim_start (s : list ascii) : list ascii :=
  match s with
  | c :: rest => if is_space c then trim_start rest else s
  | [] => []
  end.

Definition trim (s : string) : string :=
  string_of_list_ascii
    (rev (trim_start (rev (trim_start (list_ascii_of_string s))))).

Definition isToSupport (env : Env) (to : string) : bool :=
  existsb (fun email => Util.includes (Util.toLowerCase to)
                                      (trim (Util.toLowerCase email)))
          (split_comma (Util.or_default (SUPPORT_EMAILS env) "support@company.com")).

Definition handleEmailWebhook (env : Env) (req : Request)
  : Store -> Response * Store :=
  handler
    (logWebhook env "email" "email_received" (body req) pending None ;;;
     let emailData := body req in
     if negb (JSON.truthy_opt (JSON.get "from" emailData)) ||
        negb (JSON.truthy_opt (JSON.get "subject" emailData)) then
       ret (mkResponse 400 false "Invalid email data - missing from or subject" NoData)
     else
       supported <-
         (match JSON.get "to" emailData with
          | Some to =>
              if JSON.truthy to then
                match to with
                | JSON.Str x => ret (isToSupport env x)
                | _ => throw "TypeError: emailData.to.toLowerCase is not a function"
                end
              else ret false
          | None => ret false
          end) ;;
       if supported then
         ticket <- TicketController.processIncomingEmail env emailData ;;
         logWebhook env "email" "email_received" (body req) "processed" None ;;;
         ret (mkResponse 200 true "Email processed as ticket"
                (TicketCreated (Ticket.id ticket) (Ticket.ticket_number ticket)))
       else
         logWebhook env "email" "email_received" (body req) "ignored"
           (Some "Not a support email") ;;;
         ret (mkResponse 200 true "Email received but not processed" NoData))
    (fun e =>
       logWebhook env "email" "email_received" (body req) "failed" (Some e) ;;;
       ret internal_error)
    internal_error.

(** ** handleTransactionWebhook *)

Definition handleTransactionWebhook (env : Env) (req : Request)
  : Store -> Response * Store :=
  handler
    (logWebhook env "transaction" "status_update" (body req) pending None ;;;
     let transactionData := body req in
     let signature_ok :=
       match configured (TRANSACTION_WEBHOOK_SECRET env) with
       | Some secret =>
           verifySignature (JSON.stringify (body req))
                           (header "x-signature" (headers req)) secret
       | None => true
       end in
     if negb signature_ok then
       ret (mkResponse 401 false "Invalid webhook signature" NoData)
     else
       match JSON.get "transaction_id" transactionData,
             JSON.truthy_opt (JSON.get "status" transactionData) with
       | Some transaction_id, true =>
           if JSON.truthy transaction_id then
             updated <- TransactionService.updateTransactionStatus env
                          (text_param transaction_id) ;;
             match updated with
             | Some updatedTransaction =>
                 sendTransactionNotifications env updatedTransaction ;;;
                 emit (transaction_updated updatedTransaction) ;;;
                 logWebhook env "transaction" "status_update" (body req)
                   "processed" None ;;;
                 ret (mkResponse 200 true "Transaction status updated"
                        (TransactionData updatedTransaction))
             | None =>
                 logWebhook env "transaction" "status_update" (body req) "failed"
                   (Some "Failed to update transaction") ;;;
                 ret (mkResponse 500 false "Failed to update transaction status"
                        NoData)
             end
           else
             ret (mkResponse 400 false
                    "Invalid transaction data - missing transaction_id or status"
                    NoData)
       | _, _ =>
           ret (mkResponse 400 false
                  "Invalid transaction data - missing transaction_id or status"
                  NoData)
       end)
    (fun e =>
       logWebhook env "transaction" "status_update" (body req) "failed" (Some e) ;;;
       ret internal_error)
    internal_error.

(** ** handleCRMWebhook *)

(** [req.body.event_type || 'unknown'] *)
Definition crm_event_type (b : JSON.value) : string :=
  match JSON.get "event_type" b with
  | Some v => if JSON.truthy v then text_param v else "unknown"
  | None => "unknown"
  end.

Definition handleCRMWebhook (env : Env) (req : Request)
  : Store -> Response * Store :=
  handler
    (logWebhook env "crm" (crm_event_type (body req)) (body req) pending None ;;;
     let signature_ok :=
       match configured (CRM_WEBHOOK_SECRET env) with
       | Some secret =>
           verifySignature (JSON.stringify (body req))
                           (header "x-crm-signature" (headers req)) secret
       | None => true
       end in
     if negb signature_ok then
       ret (mkResponse 401 false "Invalid CRM webhook signature" NoData)
     else
       (** the three event handlers only write to the console *)
       logWebhook env "crm" (crm_event_type (body req)) (body req) "processed" None ;;;
       ret (mkResponse 200 true "CRM webhook processed" NoData))
    (fun e =>
       logWebhook env "crm" (crm_event_type (body req)) (body req) "failed" (Some e) ;;;
       ret internal_error)
    internal_error.

End WebhookController.

(** * services/cronService.ts *)

Module CronService.

(** Timestamps count milliseconds, as [Date.now()] does. *)
Definition hours_24 : Z := 24 * 60 * 60 * 1000.

(** [SELECT id, ticket_number, customer_email FROM tickets WHERE status =
    'resolved' AND resolved_at < NOW() - INTERVAL '24 hours'] *)
Definition select_tickets_to_close (env : Env) : M (list Ticket.t) :=
  gets (fun s =>
    filter (fun x =>
              Ticket.status_eqb (Ticket.status x) Ticket.resolved &&
              match Ticket.resolved_at x with
              | Some r => r <? now env - hours_24
              | None => false
              end) (tickets s)).

Fixpoint close_all (env : Env) (l : list Ticket.t) : M unit :=
  match l with
  | [] => ret tt
  | ticket :: rest =>
      _ <- TicketController.update_by_id (TicketController.close env)
             (Ticket.id ticket) ;;
      insert_status_update env StatusUpdate.ticket (Ticket.id ticket)
        (Some "resolved") "closed" "Auto-closed after 24 hours" (Some "system") ;;;
      close_all env rest
  end.

Definition autoCloseResolvedTickets (env : Env) : Store -> unit * Store :=
  handler
    (ticketsToClose <- select_tickets_to_close env ;;
     close_all env ticketsToClose)
    (fun _ => ret tt)
    tt.

(** ** updateTransactionStatuses *)

(** The service's own copy of the notification method. *)
Definition sendTransactionStatusNotifications (env : Env)
    (transaction : Transaction.t) : M unit :=
  sendTransactionNotifications env transaction.

Fixpoint notify_each (env : Env) (l : list Transaction.t) : M unit :=
  match l with
  | [] => ret tt
  | transaction :: rest =>
      sendTransactionStatusNotifications env transaction ;;; notify_each env rest
  end.

Definition batchSize : nat := 10.

(** [for (let i = 0; i < ids.length; i += batchSize)] on the ids from [i]
    on; [rounds] bounds the number of iterations. *)
Fixpoint batches (env : Env) (rounds : nat) (ids : list string) : M unit :=
  match rounds, ids with
  | S rounds', _ :: _ =>
      updatedTransactions <-
        TransactionService.batchUpdateTransactions env (firstn batchSize ids) ;;
      notify_each env updatedTransactions ;;;
      batches env rounds' (skipn batchSize ids)
  | _, _ => ret tt
  end.

Definition updateTransactionStatuses (env : Env) : Store -> unit * Store :=
  handler
    (pendingTransactionIds <- TransactionService.getPendingTransactions env ;;
     match pendingTransactionIds with
     | [] => ret tt
     | _ :: _ =>
         batches env (List.length pendingTransactionIds) pendingTransactionIds
     end)
    (fun _ => ret tt)
    tt.

End CronService.

(** * Vocabulary of the statements below *)

(** A computation that leaves one component of the store alone, whatever its
    outcome. *)
Definition Preserves {A B} (proj : Store -> A) (m : M B) : Prop :=
  forall s, proj (snd (m s)) = proj s.

(** The stored row of an id whose status the source confirms: the first
    row with that external id, when the source answers for the id and reports
    the status the row has. *)
Definition confirmed_row (env : Env) (transactionId : string) (st : Store)
  : option Transaction.t :=
  match fetchTransactionStatus env transactionId with
  | Some r =>
      match filter (fun x => String.eqb (Transaction.transaction_id x) transactionId)
                   (transactions st) with
      | cur :: _ =>
          if String.eqb (Transaction.status_to_string (Transaction.status cur))
                        (Transaction.r_status r)
          then Some cur else None
      | [] => None
      end
  | None => None
  end.

Definition confirmed_rows (env : Env) (ids : list string) (st : Store)
  : list Transaction.t :=
  flat_map (fun id_ => match confirmed_row env id_ st with
                       | Some x => [x]
                       | None => []
                       end) ids.

(** Every filter before the search keeps the next placeholder number one
    ahead of the number of values pushed. *)
Definition in_step (b : TicketController.Builder) : Prop :=
  TicketController.paramIndex b = S (List.length (TicketController.queryParams b)).

(** The audit rows an update appends. *)
Definition audit_rows (env : Env) (updateData : Ticket.TicketUpdateData)
    (cur : Ticket.t) : list StatusUpdate.t :=
  match Ticket.u_status updateData with
  | Some newStatus =>
      if Ticket.status_eqb newStatus (Ticket.status cur) then []
      else [StatusUpdate.mk StatusUpdate.ticket (Ticket.id cur)
              (Some (Ticket.status_to_string (Ticket.status cur)))
              (Ticket.status_to_string newStatus)
              (Util.or_default (Ticket.u_resolution updateData) "Status updated")
              (Some (Util.or_default (Ticket.u_updated_by updateData) "system"))
              (now env)]
  | None => []
  end.

(** The audit row the scheduler writes when it closes a ticket. *)
Definition auto_close_row (env : Env) (ticket : Ticket.t) : StatusUpdate.t :=
  StatusUpdate.mk StatusUpdate.ticket (Ticket.id ticket) (Some "resolved") "closed"
    "Auto-closed after 24 hours" (Some "system") (now env).

(** The row a handler writes first. *)
Definition pending_row (env : Env) (source eventType : string) (payload : JSON.value)
  : WebhookLog.t :=
  WebhookLog.mk source eventType (JSON.stringify payload) "pending" None None (now env).

(** The statuses a handler records as the outcome of a call. *)
Definition is_outcome (r : WebhookLog.t) : Prop :=
  WebhookLog.status r = "processed" \/ WebhookLog.status r = "failed".

(** A computation that appends no row to the webhook log, or appends one
    outcome row and then returns normally. *)
Definition records_at_most_one_outcome {B} (m : M B) : Prop :=
  forall s,
    webhook_logs (snd (m s)) = webhook_logs s \/
    exists r b,
      fst (m s) = Ok b /\ is_outcome r /\
      webhook_logs (snd (m s)) = (webhook_logs s ++ [r])%list.

(** The webhook log after a call: the rows that were there, the pending row
    of this call, and at most one outcome row. *)
Definition call_logged (env : Env) (st : Store) (source eventType : string)
    (payload : JSON.value) (out : Response * Store) : Prop :=
  exists extra,
    webhook_logs (snd out)
    = (webhook_logs st ++ pending_row env source eventType payload :: extra)%list /\
    (List.length extra <= 1)%nat /\ Forall is_outcome extra.

(** A request field that is missing or empty: what [!x] tests. *)
Definition absent (o : option string) : Prop := o = None \/ o = Some "".

(** The WHERE clause of the auto-close job. *)
Definition due (env : Env) (x : Ticket.t) : bool :=
  Ticket.status_eqb (Ticket.status x) Ticket.resolved &&
  match Ticket.resolved_at x with
  | Some r => r <? now env - CronService.hours_24
  | None => false
  end.

(** A filter of the query that is absent or empty does not restrict. *)
Definition filter_ok (o : option string) (test : string -> bool) : bool :=
  match o with
  | Some v => if Util.truthy_string v then test v else true
  | None => true
  end.

(** What the filters of a List request mean for one row: the conjunction of
    those that are set. *)
Definition matches (env : Env) (fl : Ticket.TicketFilter) (t : Ticket.t) : bool :=
  filter_ok (Ticket.f_status fl)
    (fun v => String.eqb (Ticket.status_to_string (Ticket.status t)) v) &&
  filter_ok (Ticket.f_priority fl)
    (fun v => String.eqb (Ticket.priority_to_string (Ticket.priority t)) v) &&
  filter_ok (Ticket.f_customer_email fl)
    (fun v => Util.ilike (Ticket.customer_email t) (TicketController.wildcard v)) &&
  filter_ok (Ticket.f_merchant_email fl)
    (fun v => match Ticket.merchant_email t with
              | Some x => Util.ilike x (TicketController.wildcard v)
              | None => false
              end) &&
  filter_ok (Ticket.f_assigned_to fl)
    (fun v => match Ticket.assigned_to t with
              | Some x => Util.ilike x (TicketController.wildcard v)
              | None => false
              end) &&
  filter_ok (Ticket.f_transaction_id fl)
    (fun v => match Ticket.transaction_id t with
              | Some x => String.eqb x v
              | None => false
              end) &&
  filter_ok (Ticket.f_date_from fl)
    (fun v => match timestamptz_in env v with
              | Some ts => ts <=? Ticket.created_at t
              | None => false
              end) &&
  filter_ok (Ticket.f_date_to fl)
    (fun v => match timestamptz_in env v with
              | Some ts => Ticket.created_at t <=? ts
              | None => false
              end).

(** A date filter that is set is a text the store can read as a timestamp. *)
Definition date_ok (env : Env) (o : option string) : Prop :=
  forall v, o = Some v -> v <> "" -> timestamptz_in env v <> None.

(** The state of the query builder: the counter is in step, the text
    mentions exactly the placeholders 1..n for the n values pushed, and the
    conditions, bound to the values (and to whatever is pushed after them),
    mean [sem]. *)
Definition built (env : Env) (b : TicketController.Builder)
    (sem : Ticket.t -> bool) : Prop :=
  in_step b /\
  flat_map Sql.placeholders (TicketController.whereConditions b) =
    seq 1 (List.length (TicketController.queryParams b)) /\
  forall more, exists bs,
    Sql.bind_all env (TicketController.queryParams b ++ more)%list
                 (TicketController.whereConditions b) = Some bs /\
    forall t, forallb (fun c => Sql.holds c t) bs = sem t.

(** Newest first: the creation times never increase along the list. *)
Definition newest_first (l : list Ticket.t) : Prop :=
  StronglySorted (fun a b => Ticket.created_at b <= Ticket.created_at a) l.

(** The store after a call that wrote its pending row and nothing else. *)
Definition only_pending (env : Env) (source eventType : string) (req : WebhookController.Request)
    (st : Store) : Store :=
  set_webhook_logs
    (webhook_logs st ++
     [pending_row env source eventType (WebhookController.body req)])%list st.

(** [emailData.to] is missing or falsy, or is a string that mentions none of
    the support addresses. *)
Definition not_for_support (env : Env) (emailData : JSON.value) : Prop :=
  JSON.truthy_opt (JSON.get "to" emailData) = false \/
  exists x, JSON.get "to" emailData = Some (JSON.Str x) /\
            WebhookController.isToSupport env x = false.

(** The signature check lets the call through: no secret is configured, or
    the header is the HMAC of the re-serialised body. *)
Definition signature_passes (env : Env) (req : WebhookController.Request) : Prop :=
  match WebhookController.configured (TRANSACTION_WEBHOOK_SECRET env) with
  | Some secret =>
      WebhookController.header "x-signature" (WebhookController.headers req) =
      Some ("sha256=" ++ Crypto.createHmac_sha256_hex secret
                           (JSON.stringify (WebhookController.body req)))
  | None => True
  end.

(** In flight and not updated in the last five minutes. *)
Definition stale (env : Env) (x : Transaction.t) : bool :=
  TransactionService.in_flight (Transaction.status x) &&
  (Transaction.updated_at x <? now env - TransactionService.minutes_5).

Definition oldest_first (l : list Transaction.t) : Prop :=
  StronglySorted (fun a b => Transaction.updated_at a <= Transaction.updated_at b) l.

(** Ticket ids, ticket numbers, transaction ids (both the serial one and the
    external one) are unique, and the two id sequences are ahead of every id
    in use. *)
Definition keys_ok (s : Store) : Prop :=
  NoDup (map Ticket.id (tickets s)) /\
  NoDup (map Ticket.ticket_number (tickets s)) /\
  Forall (fun i => i < tickets_id_seq s) (map Ticket.id (tickets s)) /\
  NoDup (map Transaction.id (transactions s)) /\
  NoDup (map Transaction.transaction_id (transactions s)) /\
  Forall (fun i => i < transactions_id_seq s) (map Transaction.id (transactions s)).

Definition tables (s : Store)
  : list Ticket.t * Z * list Transaction.t * Z :=
  (tickets s, tickets_id_seq s, transactions s, transactions_id_seq s).

(** A computation, or a handler, that keeps the keys in order. *)
Definition Keeps {B} (m : M B) : Prop :=
  forall s, keys_ok s -> keys_ok (snd (m s)).

Definition Safe {B} (h : Store -> B * Store) : Prop :=
  forall s, keys_ok s -> keys_ok (snd (h s)).

(** The closure mail: sent when the new status is [resolved] and the request
    carries a resolution text. *)
Definition closure_mail_due (newStatus : Ticket.Status) (resolution : option string)
  : bool :=
  Ticket.status_eqb newStatus Ticket.resolved &&
  match Util.or_null resolution with
  | Some _ => true
  | None => false
  end.

(** A character that stands for itself in a LIKE pattern. *)
Definition plain_char (c : ascii) : bool :=
  negb (Ascii.eqb c "%") && negb (Ascii.eqb c "_") && negb (Ascii.eqb c "\").

Definition plain (v : string) : bool := forallb plain_char (list_ascii_of_string v).

(** * Worked data *)

Module TxExample.

Definition paid : Transaction.t :=
  Transaction.mk 1 "tx_1" "payer@example.com" "merchant@example.com" 4200 "USD"
    Transaction.success (Some "credit_card") (JSON.Obj []) 5 10 (Some 10)
    (JSON.Obj []).

Definition waiting : Transaction.t :=
  Transaction.mk 2 "tx_2" "payer@example.com" "merchant@example.com" 900 "USD"
    Transaction.pending (Some "credit_card") (JSON.Obj []) 6 6 None (JSON.Obj []).

Definition store : Store := mkStore [] 1 [paid; waiting] 3 [] [] [] [] [].

Definition response (id_ status_ : string) : Transaction.TransactionStatusResponse :=
  Transaction.mkStatusResponse id_ status_ 4200 "USD" "credit_card" (JSON.Obj [])
    "2024-01-01T00:00:00Z" None.

(** The status source knows [tx_1] as successful and [tx_2] as still pending;
    every other id is unknown to it. *)
Definition source (id_ : string) : option Transaction.TransactionStatusResponse :=
  if String.eqb id_ "tx_1" then Some (response "tx_1" "success")
  else if String.eqb id_ "tx_2" then Some (response "tx_2" "pending")
  else None.

Definition env_at (t : Z) : Env :=
  mkEnv t 7 source false (fun _ => true) false (fun _ => true) (fun _ l => l)
        (fun _ => None) None None None.

(** The same source after [tx_2] has failed. *)
Definition source_later (id_ : string) : option Transaction.TransactionStatusResponse :=
  if String.eqb id_ "tx_2" then Some (response "tx_2" "failed") else source id_.

Definition env_later (t : Z) : Env :=
  mkEnv t 7 source_later false (fun _ => true) false (fun _ => true) (fun _ l => l)
        (fun _ => None) None None None.

Definition success_again : TransactionController.StatusRequest :=
  TransactionController.mkStatusRequest "tx_1" (Some Transaction.success) None None.

(** [PUT /api/transactions/tx_2/status] with body [{status: 'success'}] *)
Definition settle : TransactionController.StatusRequest :=
  TransactionController.mkStatusRequest "tx_2" (Some Transaction.success) None None.

End TxExample.

Module ListExample.

Definition ticket (i : Z) (subject_ : string) (created : Z) : Ticket.t :=
  Ticket.mk i ("TK" ++ Util.string_of_Z i) "c@x.com" None subject_ None Ticket.open
    Ticket.medium None created created None None [] (JSON.Obj []).

Definition store : Store :=
  mkStore [ticket 1 "Payment failed" 10; ticket 2 "Refund" 20;
           ticket 3 "payment late" 30] 4 [] 1 [] [] [] [] [].

Definition env : Env :=
  mkEnv 100 7 (fun _ => None) false (fun _ => true) false (fun _ => true)
        (fun _ l => l) (fun _ => None) None None None.

(** [GET /api/tickets?search=pay] *)
Definition search_pay : TicketController.ListQuery :=
  TicketController.mkListQuery None None
    (Ticket.mkFilter None None None None None None None (Some "pay") None).

(** [GET /api/tickets?status=open&limit=2] *)
Definition open_first_two : TicketController.ListQuery :=
  TicketController.mkListQuery None (Some 2)
    (Ticket.mkFilter (Some "open") None None None None None None None None).

End ListExample.

Module TicketExample.

Definition complaint : Ticket.t :=
  Ticket.mk 1 "TK17000000000001" "customer@example.com" None "Payment failed" None
    Ticket.open Ticket.medium None 10 10 None None [] (JSON.Obj []).

Definition settled : Ticket.t :=
  Ticket.mk 2 "TK17000000000002" "customer@example.com" None "Refund missing" None
    Ticket.resolved Ticket.high None 20 30 (Some 30) None [] (JSON.Obj []).

Definition store : Store := mkStore [complaint; settled] 3 [] 1 [] [] [] [] [].

Definition env_at (t : Z) : Env :=
  mkEnv t 7 (fun _ => None) false (fun _ => true) false (fun _ => true)
        (fun _ l => l) (fun _ => None) None None None.

Definition set_status (s : Ticket.Status) : Ticket.TicketUpdateData :=
  Ticket.mkUpdate (Some s) None None None None None None.

(** A name of 256 characters, one more than [updated_by] takes. *)
Definition long_name : string := string_of_list_ascii (repeat "a"%char 256).

(** The body [{status, updated_by}] *)
Definition signed_by (name : string) (s : Ticket.Status) : Ticket.TicketUpdateData :=
  Ticket.mkUpdate (Some s) None None None None None (Some name).

End TicketExample.

Module WebhookExample.

Definition q : string := JSON.dquote.

(** The body as a sender that puts a space after each colon and comma
    serialises it, and as [JSON.stringify] does. *)
Definition spaced : string :=
  "{" ++ q ++ "transaction_id" ++ q ++ ": " ++ q ++ "tx_2" ++ q ++ ", "
      ++ q ++ "status" ++ q ++ ": " ++ q ++ "failed" ++ q ++ "}".

Definition compact : string :=
  "{" ++ q ++ "transaction_id" ++ q ++ ":" ++ q ++ "tx_2" ++ q ++ ","
      ++ q ++ "status" ++ q ++ ":" ++ q ++ "failed" ++ q ++ "}".

Definition parsed : JSON.value :=
  JSON.Obj [("transaction_id", JSON.Str "tx_2"); ("status", JSON.Str "failed")].

Definition secret : string := "s".

Definition env : Env :=
  mkEnv 40 7 TxExample.source_later false (fun _ => true) false (fun _ => true)
        (fun _ l => l) (fun _ => None) (Some secret) None None.

(** A request signed over the bytes that were sent. *)
Definition signed (raw : string) : WebhookController.Request :=
  WebhookController.mkRequest raw parsed
    [("x-signature", "sha256=" ++ Crypto.createHmac_sha256_hex secret raw)].

End WebhookExample.

Module LogExample.

(** No secret configured; the status source of the transaction examples. *)
Definition env : Env :=
  mkEnv 40 7 TxExample.source_later false (fun _ => true) false (fun _ => true)
        (fun _ l => l) (fun _ => None) None None None.

Definition good : WebhookController.Request :=
  WebhookController.mkRequest WebhookExample.compact WebhookExample.parsed [].

(** A payload without [transaction_id] and [status]. *)
Definition malformed : WebhookController.Request :=
  WebhookController.mkRequest "{}" (JSON.Obj []) [].

(** The same endpoint while the source still reports [tx_2] as pending. *)
Definition env_before : Env :=
  mkEnv 40 7 TxExample.source false (fun _ => true) false (fun _ => true)
        (fun _ l => l) (fun _ => None) None None None.

(** A CRM event whose type has 101 characters. *)
Definition long_event : WebhookController.Request :=
  WebhookController.mkRequest ""
    (JSON.Obj [("event_type", JSON.Str (string_of_list_ascii (repeat "e"%char 101)))])
    [].

End LogExample.

Module CreateExample.

Definition request : Ticket.TicketCreationData :=
  Ticket.mkCreation (Some "c@x.com") None (Some "Payment failed") None None None None
    None.

Definition no_subject : Ticket.TicketCreationData :=
  Ticket.mkCreation (Some "c@x.com") None None None None None None None.

(** At time 50 with random number 7 the generated number is [TK507]. *)
Definition taken : Ticket.t :=
  Ticket.mk 9 "TK507" "other@x.com" None "Earlier complaint" None Ticket.open
    Ticket.low None 50 50 None None [] (JSON.Obj []).

Definition crowded : Store := mkStore [taken] 10 [] 1 [] [] [] [] [].

End CreateExample.

Module MailExample.

Definition mail (to : string) : WebhookController.Request :=
  WebhookController.mkRequest ""
    (JSON.Obj [("from", JSON.Str "c@x.com"); ("to", JSON.Str to);
               ("subject", JSON.Str "Payment failed")]) [].

(** The default inbox, written the way mail clients show it. *)
Definition to_support : WebhookController.Request :=
  mail "Help Desk <Support@Company.com>".

Definition to_sales : WebhookController.Request := mail "sales@company.com".

Definition store : Store := mkStore [] 1 [] 1 [] [] [] [] [].

End MailExample.

Module TxCreateExample.

Definition request (id_ : string) (merchant : option string) (amount : option Z)
    (status : option Transaction.Status) : TransactionService.TransactionCreationData :=
  TransactionService.mkCreation (Some id_) (Some "payer@example.com") merchant amount
    None status None None.

End TxCreateExample.

(** * Proofs *)

(** ** The digest functions on the published test vectors *)

Example sha256_abc :
  Crypto.hex (Crypto.sha256 (Util.bytes_of_string "abc"))
  = "ba7816bf8f01cfea414140de5dae2223b00361a396177a9cb410ff61f20015ad".
Proof. vm_compute. reflexivity. Qed.

Example hmac_sha256_quick_brown_fox :
  Crypto.createHmac_sha256_hex "key" "The quick brown fox jumps over the lazy dog"
  = "f7bc83f430538424b13298e6aa6fb143ef4d59a14946175997479dbc2d1a3cd8".
Proof. vm_compute. reflexivity. Qed.

(** * Reasoning about the effect monad *)

Section Frames.

Context {A : Type} (proj : Store -> A).

Lemma preserves_ret {B} (b : B) : Preserves proj (ret b).
Proof. intros s. reflexivity. Qed.

Lemma preserves_throw {B} (e : string) : Preserves proj (@throw B e).
Proof. intros s. reflexivity. Qed.

Lemma preserves_gets {B} (f : Store -> B) : Preserves proj (gets f).
Proof. intros s. reflexivity. Qed.

Lemma preserves_bind {B C} (m : M B) (k : B -> M C) :
  Preserves proj m -> (forall b, Preserves proj (k b)) -> Preserves proj (bind m k).
Proof.
  intros Hm Hk s. unfold bind.
  specialize (Hm s). destruct (m s) as [[b | e] s1]; simpl in *.
  - rewrite Hk. exact Hm.
  - exact Hm.
Qed.

Lemma preserves_try_catch {B} (m : M B) (h : string -> M B) :
  Preserves proj m -> (forall e, Preserves proj (h e)) ->
  Preserves proj (try_catch m h).
Proof.
  intros Hm Hh s. unfold try_catch.
  specialize (Hm s). destruct (m s) as [[b | e] s1]; simpl in *.
  - exact Hm.
  - rewrite Hh. exact Hm.
Qed.

Lemma preserves_modify (f : Store -> Store) :
  (forall s, proj (f s) = proj s) -> Preserves proj (modify f).
Proof. intros H s. apply H. Qed.

End Frames.

(** The audit INSERT with an author that fits its column. *)
Lemma insert_status_update_run (env : Env) (ty : StatusUpdate.EntityType) (id_ : Z)
    (old : option string) (new reason : string) (by_ : option string) (s : Store) :
  varchar_opt 255 by_ = true ->
  insert_status_update env ty id_ old new reason by_ s =
  (Ok tt,
   set_status_updates
     (status_updates s ++ [StatusUpdate.mk ty id_ old new reason by_ (now env)])%list s).
Proof. intros H. unfold insert_status_update. now rewrite H. Qed.

(** * Lists of rows *)

Section Rows.

Context {R : Type}.

(** An UPDATE that does not touch the column of its WHERE clause returns,
    in order, the updated images of the rows the clause selects. *)
Lemma filter_map_update (hit : R -> bool) (f : R -> R) (l : list R) :
  (forall x, hit (f x) = hit x) ->
  filter hit (map (fun x => if hit x then f x else x) l) = map f (filter hit l).
Proof.
  intros Hf. induction l as [| x l IH]; simpl; [reflexivity |].
  destruct (hit x) eqn:Hx.
  - rewrite Hf, Hx. simpl. now rewrite IH.
  - rewrite Hx. exact IH.
Qed.

Lemma filter_head_in (p : R -> bool) (l : list R) (x : R) (rest : list R) :
  filter p l = x :: rest -> In x l /\ p x = true.
Proof.
  intros H. apply filter_In. rewrite H. now left.
Qed.

End Rows.

(** * Transactions: manual status updates and status sync *)

Section TransactionFacts.

Import Transaction.

Variable env : Env.

Lemma sendEmail_spec (d : EmailService.EmailData) (s : Store) :
  exists b e,
    EmailService.sendEmail env d s = (Ok b, set_email_logs (email_logs s ++ [e])%list s) /\
    EmailLog.recipient_email e = EmailService.to d /\
    EmailLog.email_type e = EmailService.type d /\
    EmailLog.transaction_id e = Util.or_null (EmailService.transactionId d) /\
    EmailLog.ticket_id e = id_or_null (EmailService.ticketId d).
Proof.
  unfold EmailService.sendEmail.
  destruct (email_configured env); simpl;
    [destruct (sendMail env (EmailService.to d)) |];
    eexists _, _; (split; [reflexivity | simpl; auto]).
Qed.

Lemma set_whatsapp_logs_same (s : Store) :
  set_whatsapp_logs (whatsapp_logs s ++ [])%list s = s.
Proof. rewrite app_nil_r. now destruct s. Qed.

(** A message leaves at most one row in the WhatsApp log: none when the
    number does not fit its column. *)
Lemma sendMessage_spec (m : WhatsAppService.WhatsAppMessage) (s : Store) :
  exists b r,
    WhatsAppService.sendMessage env m s =
    (Ok b, set_whatsapp_logs (whatsapp_logs s ++ r)%list s).
Proof.
  unfold WhatsAppService.sendMessage, WhatsAppService.logMessage, try_catch, bind.
  destruct (varchar 20 (text_param (WhatsAppService.to m))).
  - destruct (whatsapp_configured env); simpl;
      [destruct (whatsapp_post env (WhatsAppService.to m)) |];
      eexists _, [_]; reflexivity.
  - destruct (whatsapp_configured env); simpl;
      [destruct (whatsapp_post env (WhatsAppService.to m)) |];
      eexists _, []; cbn; now rewrite set_whatsapp_logs_same.
Qed.

(** The notification helper renders its template first.  The amount of a
    stored row is text, [toFixed] throws, and the helper's own [catch] ends
    the call before anything is sent or logged. *)
Lemma sendTransactionNotifications_run (x : t) (s : Store) :
  sendTransactionNotifications env x s = (Ok tt, s).
Proof. reflexivity. Qed.

(** The three statements with a parameter in two places, and the upsert,
    are refused when they are prepared. *)
Lemma select_by_id_or_transaction_id_refused (id_ : string) (s : Store) :
  exists e, TransactionController.select_by_id_or_transaction_id id_ s = (Throw e, s).
Proof. eexists. reflexivity. Qed.

Lemma update_by_id_refused (st : Status) (id_ : Z) (s : Store) :
  exists e, TransactionController.update_by_id env st id_ s = (Throw e, s).
Proof. eexists. reflexivity. Qed.

Lemma update_by_transaction_id_refused (status : string) (gw : JSON.value)
    (transactionId : string) (s : Store) :
  exists e,
    TransactionService.update_by_transaction_id env status gw transactionId s =
    (Throw e, s).
Proof. eexists. reflexivity. Qed.

Lemma upsert_refused (r : TransactionStatusResponse) (s : Store) :
  exists e, TransactionService.upsert env r s = (Throw e, s).
Proof. eexists. reflexivity. Qed.

(** The manual update: 400 without a status, and otherwise 500 from the
    lookup, with the store as it was. *)
Lemma manual_update_run (req : TransactionController.StatusRequest) (st : Store) :
  TransactionController.updateTransactionStatus env req st =
  (match TransactionController.req_status req with
   | None => mkResponse 400 false "Status is required" NoData
   | Some _ =>
       TransactionController.internal_error "Failed to update transaction status"
   end, st).
Proof.
  unfold TransactionController.updateTransactionStatus, handler, try_catch.
  destruct (TransactionController.req_status req); reflexivity.
Qed.

Lemma refresh_run (id_ : string) (st : Store) :
  TransactionController.refreshTransactionStatus env id_ st =
  (TransactionController.internal_error "Failed to refresh transaction status", st).
Proof. reflexivity. Qed.

(** SyncStatus never throws and never writes; it has a row to return exactly
    when the source confirms the status of the stored one. *)
Lemma sync_run (transactionId : string) (st : Store) :
  TransactionService.updateTransactionStatus env transactionId st =
  (Ok (confirmed_row env transactionId st), st).
Proof.
  unfold TransactionService.updateTransactionStatus, confirmed_row, try_catch.
  destruct (fetchTransactionStatus env transactionId) as [r |]; [| reflexivity].
  unfold bind at 1. unfold TransactionService.select_by_transaction_id, gets.
  destruct (filter _ (transactions st)) as [| cur rest]; [reflexivity |].
  destruct (String.eqb _ _); reflexivity.
Qed.

Lemma confirmed_row_sound (transactionId : string) (st : Store) (x : t) :
  confirmed_row env transactionId st = Some x ->
  In x (transactions st) /\ transaction_id x = transactionId /\
  exists r, fetchTransactionStatus env transactionId = Some r /\
            r_status r = status_to_string (status x).
Proof.
  unfold confirmed_row.
  destruct (fetchTransactionStatus env transactionId) as [r |]; [| discriminate].
  destruct (filter _ (transactions st)) as [| cur rest] eqn:Hsel; [discriminate |].
  destruct (String.eqb _ _) eqn:Heq; [| discriminate].
  intros H. injection H as <-.
  destruct (filter_head_in _ _ _ _ Hsel) as [Hin Hid].
  apply String.eqb_eq in Hid, Heq.
  split; [exact Hin |]. split; [exact Hid |]. exists r. auto.
Qed.

Lemma batch_loop_run (ids : list string) :
  forall (acc : list t) (st : Store),
    TransactionService.batch_loop env ids acc st =
    (Ok (acc ++ confirmed_rows env ids st)%list, st).
Proof.
  induction ids as [| id_ rest IH]; intros acc st.
  - cbn. now rewrite app_nil_r.
  - cbn [TransactionService.batch_loop]. unfold bind at 1.
    unfold TransactionService.batch_step, try_catch. unfold bind at 1.
    rewrite sync_run. unfold confirmed_rows. cbn [flat_map].
    fold (confirmed_rows env rest st).
    destruct (confirmed_row env id_ st) as [x |]; unfold ret at 1; rewrite IH.
    + now rewrite <- app_assoc.
    + reflexivity.
Qed.

Lemma batch_run (ids : list string) (st : Store) :
  TransactionService.batchUpdateTransactions env ids st =
  (Ok (confirmed_rows env ids st), st).
Proof. unfold TransactionService.batchUpdateTransactions. now rewrite batch_loop_run. Qed.

Lemma notify_all_run (l : list t) (s : Store) :
  TransactionController.notify_all env l s = (Ok tt, s).
Proof.
  induction l as [| x l IH]; [reflexivity |].
  cbn [TransactionController.notify_all]. unfold bind.
  now rewrite sendTransactionNotifications_run.
Qed.

Lemma notify_each_run (l : list t) (s : Store) :
  CronService.notify_each env l s = (Ok tt, s).
Proof.
  induction l as [| x l IH]; [reflexivity |].
  cbn [CronService.notify_each]. unfold bind.
  unfold CronService.sendTransactionStatusNotifications.
  now rewrite sendTransactionNotifications_run.
Qed.

Lemma batches_step (rounds : nat) (id_ : string) (rest : list string) :
  CronService.batches env (S rounds) (id_ :: rest) =
  (updatedTransactions <-
     TransactionService.batchUpdateTransactions env
       (firstn CronService.batchSize (id_ :: rest)) ;;
   CronService.notify_each env updatedTransactions ;;;
   CronService.batches env rounds (skipn CronService.batchSize (id_ :: rest))).
Proof. reflexivity. Qed.

Lemma batches_run (rounds : nat) :
  forall (ids : list string) (s : Store),
    CronService.batches env rounds ids s = (Ok tt, s).
Proof.
  induction rounds as [| rounds IH]; intros ids s.
  - destruct ids; reflexivity.
  - destruct ids as [| id_ rest]; [reflexivity |].
    rewrite batches_step. remember (id_ :: rest) as ids eqn:Eids. clear Eids.
    unfold bind at 1. rewrite batch_run.
    unfold bind at 1. rewrite notify_each_run. apply IH.
Qed.

Lemma getPendingTransactions_run (st : Store) :
  TransactionService.getPendingTransactions env st =
  (Ok (map Transaction.transaction_id
         (firstn 50 (TransactionService.order_by_updated_at_asc
                       (filter (stale env) (transactions st))))), st).
Proof. reflexivity. Qed.

(** The polling job: whatever is on the list, the store is left as it was. *)
Lemma polling_job_run (st : Store) :
  CronService.updateTransactionStatuses env st = (tt, st).
Proof.
  unfold CronService.updateTransactionStatuses, handler, try_catch.
  unfold bind at 1. rewrite getPendingTransactions_run.
  match goal with
  | |- context [match ?l with [] => ret tt | _ :: _ => _ end] =>
      remember l as ids eqn:Eids; clear Eids
  end.
  destruct ids as [| id_ rest]; [reflexivity |].
  now rewrite batches_run.
Qed.

End TransactionFacts.

(** ** C1: when [completed_at] is written *)

(** C1.  Neither update path ever writes [completed_at].  The manual update
    leaves the table [transactions] as it was, whatever the request, and
    answers 500 whenever the request carries a status: its lookup compares
    [$1] with a text column and with an integer column and is refused, and so
    would be its UPDATE, whose [$1] is assigned to [status] and tested against
    the list of terminal statuses.  SyncStatus leaves the table as it was as
    well: its UPDATE is refused for the same reason and its INSERT names
    [completed_at] ambiguously, so a reported status that differs from the
    stored one ends in the [catch] and the caller gets [null]. *)
Theorem C1_completed_at_is_never_written (env : Env) (st : Store) :
  (forall req,
      transactions (snd (TransactionController.updateTransactionStatus env req st))
      = transactions st) /\
  (forall id_ s reason by_,
      fst (TransactionController.updateTransactionStatus env
             (TransactionController.mkStatusRequest id_ (Some s) reason by_) st)
      = TransactionController.internal_error "Failed to update transaction status") /\
  (forall transactionId,
      transactions (snd (TransactionService.updateTransactionStatus env transactionId st))
      = transactions st) /\
  (forall transactionId r cur rest,
      fetchTransactionStatus env transactionId = Some r ->
      fst (TransactionService.select_by_transaction_id transactionId st)
        = Ok (cur :: rest) ->
      Transaction.r_status r <> Transaction.status_to_string (Transaction.status cur) ->
      fst (TransactionService.updateTransactionStatus env transactionId st) = Ok None).
Proof.
  split; [| split; [| split]].
  - intros req. now rewrite manual_update_run.
  - intros id_ s reason by_. now rewrite manual_update_run.
  - intros transactionId. now rewrite sync_run.
  - intros transactionId r cur rest Hfetch Hsel Hne.
    rewrite sync_run. cbn [fst]. unfold confirmed_row. rewrite Hfetch.
    unfold TransactionService.select_by_transaction_id, gets in Hsel.
    cbn [fst] in Hsel. injection Hsel as Hsel. rewrite Hsel.
    assert (E : String.eqb (Transaction.status_to_string (Transaction.status cur))
                           (Transaction.r_status r) = false).
    { apply String.eqb_neq. congruence. }
    now rewrite E.
Qed.

(** C1 at the failing input.  [tx_2] is pending and has no [completed_at].
    The manual update to [success] at time 20 is answered 500, and a sync
    after the source has come to report [failed] returns nothing; in both
    cases the transaction is still pending and [completed_at] still empty. *)
Example C1_first_terminal_update_sets_nothing :
  let manual :=
    TransactionController.updateTransactionStatus (TxExample.env_at 20)
      TxExample.settle TxExample.store in
  let synced :=
    TransactionService.updateTransactionStatus (TxExample.env_later 30) "tx_2"
      TxExample.store in
  statusCode (fst manual) = 500 /\
  map Transaction.completed_at (transactions (snd manual)) = [Some 10; None] /\
  map Transaction.status (transactions (snd manual))
    = [Transaction.success; Transaction.pending] /\
  fst synced = Ok None /\
  map Transaction.completed_at (transactions (snd synced)) = [Some 10; None] /\
  map Transaction.status (transactions (snd synced))
    = [Transaction.success; Transaction.pending].
Proof. repeat split. Qed.

(** ** C3: SyncStatus when the external status has not changed *)

Lemma sync_unchanged (env : Env) (transactionId : string) (st : Store)
    (cur : Transaction.t) (rest : list Transaction.t)
    (r : Transaction.TransactionStatusResponse) :
  fetchTransactionStatus env transactionId = Some r ->
  fst (TransactionService.select_by_transaction_id transactionId st)
    = Ok (cur :: rest) ->
  Transaction.r_status r = Transaction.status_to_string (Transaction.status cur) ->
  TransactionService.updateTransactionStatus env transactionId st = (Ok (Some cur), st).
Proof.
  intros Hfetch Hsel Heq.
  unfold TransactionService.select_by_transaction_id, gets in Hsel.
  cbn [fst] in Hsel. injection Hsel as Hsel.
  rewrite sync_run. unfold confirmed_row.
  now rewrite Hfetch, Hsel, Heq, String.eqb_refl.
Qed.

(** Two calls in a row under the same external state: the second returns
    what the first returned and leaves the store as the first left it. *)
Lemma sync_twice (env env' : Env) (transactionId : string) (st : Store)
    (r : Transaction.TransactionStatusResponse) :
  fetchTransactionStatus env transactionId = Some r ->
  fetchTransactionStatus env' transactionId = Some r ->
  TransactionService.updateTransactionStatus env' transactionId
    (snd (TransactionService.updateTransactionStatus env transactionId st))
  = TransactionService.updateTransactionStatus env transactionId st.
Proof.
  intros Hfetch Hfetch'.
  rewrite (sync_run env). cbn [snd]. rewrite (sync_run env').
  unfold confirmed_row. now rewrite Hfetch, Hfetch'.
Qed.

(** C3.  When the status source reports the status the local row already
    has, SyncStatus returns that very row and the store it was given: no
    field of the row moves ([updated_at] included), no audit row is appended,
    no notification log row is written.  A second call under the same external
    state, at any later time, does the same again; and whatever a first call
    did, the second call returns what the first returned and leaves the store
    as the first left it. *)
Theorem C3_sync_with_unchanged_status_is_a_no_op
    (env : Env) (transactionId : string) (st : Store)
    (cur : Transaction.t) (rest : list Transaction.t)
    (r : Transaction.TransactionStatusResponse) :
  fetchTransactionStatus env transactionId = Some r ->
  fst (TransactionService.select_by_transaction_id transactionId st)
    = Ok (cur :: rest) ->
  (Transaction.r_status r = Transaction.status_to_string (Transaction.status cur) ->
   TransactionService.updateTransactionStatus env transactionId st
     = (Ok (Some cur), st)) /\
  (forall env',
      fetchTransactionStatus env' transactionId = Some r ->
      TransactionService.updateTransactionStatus env' transactionId
        (snd (TransactionService.updateTransactionStatus env transactionId st))
      = TransactionService.updateTransactionStatus env transactionId st).
Proof.
  intros Hfetch Hsel. split.
  - intros Heq. exact (sync_unchanged env _ _ _ _ _ Hfetch Hsel Heq).
  - intros env' Hfetch'. exact (sync_twice env env' _ _ _ Hfetch Hfetch').
Qed.

(** C3, witness: [tx_1] is stored as successful and reported as successful. *)
Lemma C3_witness :
  TransactionService.updateTransactionStatus (TxExample.env_at 20) "tx_1"
    TxExample.store
  = (Ok (Some TxExample.paid), TxExample.store).
Proof.
  apply (C3_sync_with_unchanged_status_is_a_no_op (TxExample.env_at 20) "tx_1"
           TxExample.store TxExample.paid [] (TxExample.response "tx_1" "success"));
    reflexivity.
Defined.

(** ** C10: the manual update of a transaction *)

(** C10.  A manual status update that carries a status is answered 500 and
    leaves the whole store as it was, for every id and every status: the
    lookup statement is refused before a row is read, so the handler reaches
    neither its UPDATE nor the audit INSERT nor the notifications.  No audit
    row and no e-mail log row is written and no event is published, the first
    time and every time the request is repeated. *)
Theorem C10_manual_update_writes_nothing
    (env : Env) (id_ : string) (s : Transaction.Status)
    (reason updated_by : option string) (st : Store) :
  TransactionController.updateTransactionStatus env
    (TransactionController.mkStatusRequest id_ (Some s) reason updated_by) st
  = (TransactionController.internal_error "Failed to update transaction status", st).
Proof. now rewrite manual_update_run. Qed.

(** C10 at the failing input.  [tx_1] is stored as [success]; the request to
    set it to [success], sent twice, is answered 500 twice and leaves neither
    an audit row nor an e-mail log row. *)
Example C10_repeated_manual_update :
  let out1 :=
    TransactionController.updateTransactionStatus (TxExample.env_at 20)
      TxExample.success_again TxExample.store in
  let out2 :=
    TransactionController.updateTransactionStatus (TxExample.env_at 21)
      TxExample.success_again (snd out1) in
  statusCode (fst out1) = 500 /\ statusCode (fst out2) = 500 /\
  status_updates (snd out2) = [] /\ email_logs (snd out2) = [] /\
  emitted (snd out2) = [].
Proof. repeat split. Qed.

(** ** C6: BatchSync *)

(** C6.  BatchSync never throws and never writes.  It returns, in the order
    of the ids, the stored rows whose status the source confirms, each of them
    a row of the table as it was before the call, so no row it returns was
    updated.  An id whose reported status differs from the stored one, the
    case in which there is something to update, is passed over like an id
    the source cannot answer or the table does not have. *)
Theorem C6_batch_sync_returns_no_updated_row (env : Env) (ids : list string)
    (st : Store) :
  TransactionService.batchUpdateTransactions env ids st
    = (Ok (confirmed_rows env ids st), st) /\
  (forall x, In x (confirmed_rows env ids st) ->
     In x (transactions st) /\ In (Transaction.transaction_id x) ids /\
     exists r, fetchTransactionStatus env (Transaction.transaction_id x) = Some r /\
               Transaction.r_status r =
               Transaction.status_to_string (Transaction.status x)) /\
  (forall id_ r cur rest,
      fetchTransactionStatus env id_ = Some r ->
      fst (TransactionService.select_by_transaction_id id_ st) = Ok (cur :: rest) ->
      Transaction.r_status r <> Transaction.status_to_string (Transaction.status cur) ->
      confirmed_rows env [id_] st = []).
Proof.
  split; [apply batch_run |]. split.
  - intros x Hx. unfold confirmed_rows in Hx. apply in_flat_map in Hx.
    destruct Hx as (id_ & Hid & Hx).
    destruct (confirmed_row env id_ st) as [y |] eqn:Hrow; [| contradiction].
    destruct Hx as [<- | []].
    destruct (confirmed_row_sound env id_ st y Hrow) as (Hin & Htid & r & Hfetch & Hr).
    split; [exact Hin |]. split; [now rewrite Htid |].
    exists r. now rewrite Htid.
  - intros id_ r cur rest Hfetch Hsel Hne.
    unfold confirmed_rows, confirmed_row. cbn [flat_map]. rewrite Hfetch.
    unfold TransactionService.select_by_transaction_id, gets in Hsel.
    cbn [fst] in Hsel. injection Hsel as Hsel. rewrite Hsel.
    assert (E : String.eqb (Transaction.status_to_string (Transaction.status cur))
                           (Transaction.r_status r) = false).
    { apply String.eqb_neq. congruence. }
    now rewrite E.
Qed.

(** C6 at the failing input.  [tx_1] is stored as [success] and reported as
    [success]; [tx_2] is stored as [pending] and reported as [failed].
    BatchSync over both returns [tx_1], which it did not update, leaves out
    [tx_2], which it should have updated, and the table is as it was. *)
Example C6_batch_returns_the_unchanged_row_only :
  TransactionService.batchUpdateTransactions (TxExample.env_later 30)
    ["tx_1"; "tx_2"] TxExample.store
  = (Ok [TxExample.paid], TxExample.store).
Proof. reflexivity. Qed.

(** * Tickets *)

(** ** C8: listing with a free-text search *)

Section ListTickets.

Import TicketController.

Lemma in_step_push cond v b : in_step b -> in_step (push cond v b).
Proof.
  unfold in_step, push. cbn. intros ->. rewrite length_app. cbn. lia.
Qed.

Lemma in_step_when_set o f b :
  (forall v b', in_step b' -> in_step (f v b')) ->
  in_step b -> in_step (when_set o f b).
Proof.
  intros Hf Hb. unfold when_set.
  destruct o as [v |]; [destruct (Util.truthy_string v) |]; auto.
Qed.

Lemma in_step_before_search filters : in_step (before_search filters).
Proof.
  unfold before_search.
  repeat (apply in_step_when_set; [intros; now apply in_step_push |]).
  reflexivity.
Qed.

(** After the search filter the counter is three ahead: two numbers are
    skipped. *)
Lemma search_skips_two filters v :
  Ticket.f_search filters = Some v -> v <> "" ->
  paramIndex (build_where filters) =
  (List.length (queryParams (build_where filters)) + 3)%nat.
Proof.
  intros Hv Hne. unfold build_where, when_set. rewrite Hv.
  assert (Ht : Util.truthy_string v = true).
  { unfold Util.truthy_string. apply negb_true_iff. now apply String.eqb_neq. }
  rewrite Ht. unfold push_search. cbn [paramIndex queryParams].
  rewrite (in_step_before_search filters), length_app. cbn. lia.
Qed.

Lemma placeholders_out_of_range refs extra p n :
  (n < p)%nat -> Sql.placeholders_match (refs ++ p :: extra) n = false.
Proof.
  intros Hlt. unfold Sql.placeholders_match.
  apply andb_false_iff. left.
  rewrite forallb_app. apply andb_false_iff. right.
  cbn [forallb]. apply andb_false_iff. left.
  apply andb_false_iff. right. apply Nat.leb_gt. exact Hlt.
Qed.

End ListTickets.

(** Without the search filter the listing works: newest first, with the page
    metadata. *)
Example getTickets_without_search :
  fst (TicketController.getTickets ListExample.env ListExample.open_first_two
         ListExample.store)
  = mkResponse 200 true ""
      (TicketPage [ListExample.ticket 3 "payment late" 30; ListExample.ticket 2 "Refund" 20]
         (mkPagination 1 2 3 2 true false)).
Proof. vm_compute. reflexivity. Qed.

(** C8.  What the code does on every List request that carries a non-empty
    search text: the statement mentions placeholders beyond the values
    supplied, the store rejects it, and the handler answers 500 without a
    page. *)
Theorem C8_search_request_is_rejected (env : Env) (q : TicketController.ListQuery)
    (st : Store) (v : string) :
  Ticket.f_search (TicketController.q_filters q) = Some v -> v <> "" ->
  TicketController.getTickets env q st =
  (mkResponse 500 false "Failed to fetch tickets" NoData, st).
Proof.
  intros Hv Hne.
  unfold TicketController.getTickets, handler, try_catch.
  unfold bind at 1. unfold Sql.select_page.
  rewrite placeholders_out_of_range.
  - reflexivity.
  - rewrite (search_skips_two _ v Hv Hne), length_app. cbn. lia.
Qed.

(** C8, witness: two of the three stored tickets have pay in their subject,
    and the search for it answers 500. *)
Lemma C8_witness :
  TicketController.getTickets ListExample.env ListExample.search_pay ListExample.store
  = (mkResponse 500 false "Failed to fetch tickets" NoData, ListExample.store).
Proof.
  apply (C8_search_request_is_rejected ListExample.env ListExample.search_pay
           ListExample.store "pay").
  - reflexivity.
  - discriminate.
Defined.

(** ** Updating and closing a ticket *)

Section TicketFacts.

Import Ticket.

Variable env : Env.

Lemma status_eqb_eq (a b : Status) : status_eqb a b = true <-> a = b.
Proof. destruct a, b; cbn; split; intros H; try discriminate; reflexivity. Qed.

Lemma status_eqb_neq (a b : Status) : status_eqb a b = false <-> a <> b.
Proof.
  split.
  - intros H E. apply status_eqb_eq in E. congruence.
  - intros H. destruct (status_eqb a b) eqn:E; [| reflexivity].
    apply status_eqb_eq in E. contradiction.
Qed.

(** The status notifications write to the two notification logs only. *)
Lemma sendStatusNotifications_frame (ticket : t) (newStatus : Status)
    (resolution : option string) (s : Store) :
  exists s',
    TicketController.sendStatusNotifications env ticket newStatus resolution s
      = (Ok tt, s') /\
    tickets s' = tickets s /\ tickets_id_seq s' = tickets_id_seq s /\
    transactions s' = transactions s /\
    transactions_id_seq s' = transactions_id_seq s /\
    status_updates s' = status_updates s /\
    webhook_logs s' = webhook_logs s /\ emitted s' = emitted s.
Proof.
  unfold TicketController.sendStatusNotifications, try_catch.
  unfold bind at 1.
  assert (Hmail : exists s1,
             (match newStatus, Util.or_null resolution with
              | resolved, Some _ =>
                  _ <- EmailService.sendEmail env
                         (EmailService.mkEmailData (customer_email ticket)
                            (Some (id ticket)) None "closure") ;;
                  ret tt
              | _, _ => ret tt
              end) s = (Ok tt, s1) /\
             tickets s1 = tickets s /\ tickets_id_seq s1 = tickets_id_seq s /\
             transactions s1 = transactions s /\
             transactions_id_seq s1 = transactions_id_seq s /\
             status_updates s1 = status_updates s /\
             webhook_logs s1 = webhook_logs s /\ emitted s1 = emitted s).
  { destruct newStatus, (Util.or_null resolution);
      try (exists s; repeat split; reflexivity).
    unfold bind.
    match goal with
    | |- context [EmailService.sendEmail env ?d s] =>
        destruct (sendEmail_spec env d s) as (b & e & He & _); rewrite He
    end.
    eexists. split; [reflexivity |]. repeat split. }
  destruct Hmail as (s1 & Hrun & Ht & Hts & Htx & Htxs & Hsu & Hwh & Hem).
  rewrite Hrun.
  destruct (JSON.get "phone" (metadata ticket)) as [ph |];
    [destruct (JSON.truthy ph) |];
    try (exists s1; repeat split; assumption).
  unfold WhatsAppService.sendStatusUpdate, bind.
  match goal with
  | |- context [WhatsAppService.sendMessage env ?m s1] =>
      destruct (sendMessage_spec env m s1) as (b & r & Hm); rewrite Hm
  end.
  eexists. split; [reflexivity |]. cbn. repeat split; assumption.
Qed.

(** What a request has to get right for its statements to be accepted. *)
Lemma or_default_fits (n : nat) (o : option string) (d : string) :
  varchar_opt n o = true -> varchar n d = true ->
  varchar_opt n (Some (Util.or_default o d)) = true.
Proof.
  intros Ho Hd. unfold Util.or_default. destruct o as [s |]; [| exact Hd].
  destruct (Util.truthy_string s); [exact Ho | exact Hd].
Qed.

Lemma select_by_id_run (id_ : Z) (st : Store) :
  int4 id_ = true ->
  TicketController.select_by_id id_ st =
  (Ok (filter (fun x => id x =? id_) (tickets st)), st).
Proof.
  intros Hid. unfold TicketController.select_by_id, TicketController.route_id, bind.
  now rewrite Hid.
Qed.

Lemma select_by_id_refused (id_ : Z) (st : Store) :
  int4 id_ = false ->
  exists e, TicketController.select_by_id id_ st = (Throw e, st).
Proof.
  intros Hid. unfold TicketController.select_by_id, TicketController.route_id, bind.
  rewrite Hid. eexists. reflexivity.
Qed.

(** A SELECT that found a row was given an id the server could read. *)
Lemma select_by_id_found (id_ : Z) (st : Store) (cur : t) (rest : list t) :
  fst (TicketController.select_by_id id_ st) = Ok (cur :: rest) ->
  int4 id_ = true /\ filter (fun x => id x =? id_) (tickets st) = cur :: rest.
Proof.
  intros Hsel. destruct (int4 id_) eqn:Hid.
  - rewrite (select_by_id_run id_ st Hid) in Hsel. cbn [fst] in Hsel.
    injection Hsel as Hsel. auto.
  - destruct (select_by_id_refused id_ st Hid) as (e & Hrun).
    rewrite Hrun in Hsel. discriminate Hsel.
Qed.

(** The UPDATE of [updateTicket] on the row the SELECT found. *)
Lemma update_fields_run (id_ : Z) (updateData : TicketUpdateData) (st : Store)
    (cur : t) (rest : list t) :
  fst (TicketController.select_by_id id_ st) = Ok (cur :: rest) ->
  varchar_opt 255 (u_assigned_to updateData) = true ->
  let f := TicketController.apply_update env updateData cur in
  TicketController.update_fields env updateData cur id_ st =
  (Ok (f cur :: map f rest),
   set_tickets (map (fun x => if id x =? id_ then f x else x) (tickets st))
               (tickets_id_seq st) st).
Proof.
  intros Hsel Hfit f. destruct (select_by_id_found _ _ _ _ Hsel) as [Hid Hrows].
  unfold TicketController.update_fields, TicketController.route_id, bind.
  rewrite Hid. unfold ret at 1. rewrite Hfit.
  unfold TicketController.update_by_id. fold f.
  rewrite (filter_map_update (fun x => id x =? id_) f) by reflexivity.
  now rewrite Hrows.
Qed.

(** The table [tickets] after an update, also when the audit INSERT that
    follows the UPDATE is refused. *)
Lemma updateTicket_tickets (id_ : Z) (updateData : TicketUpdateData) (st : Store)
    (cur : t) (rest : list t) :
  fst (TicketController.select_by_id id_ st) = Ok (cur :: rest) ->
  varchar_opt 255 (u_assigned_to updateData) = true ->
  tickets (snd (TicketController.updateTicket env id_ updateData st)) =
  map (fun x => if id x =? id_
                then TicketController.apply_update env updateData cur x else x)
      (tickets st).
Proof.
  intros Hsel Hfit.
  destruct (select_by_id_found _ _ _ _ Hsel) as [Hid Hrows].
  unfold TicketController.updateTicket, handler, try_catch.
  unfold bind at 1. rewrite (select_by_id_run id_ st Hid), Hrows.
  unfold bind at 1. rewrite (update_fields_run id_ updateData st cur rest Hsel Hfit).
  unfold bind at 1. unfold first_row at 1, ret at 1.
  unfold bind at 1.
  destruct (u_status updateData) as [newStatus |].
  - destruct (status_eqb newStatus (status cur)); cbn [negb].
    + reflexivity.
    + unfold bind at 1. unfold insert_status_update at 1.
      match goal with
      | |- context [varchar_opt 255 (Some ?by_)] =>
          destruct (varchar_opt 255 (Some by_))
      end; [| reflexivity].
      unfold modify.
      match goal with
      | |- context [TicketController.sendStatusNotifications env ?a ?b ?c ?s1] =>
          destruct (sendStatusNotifications_frame a b c s1)
            as (s2 & Hn & Ht & _);
          rewrite Hn
      end.
      unfold bind, emit, modify, ret. cbn in *. exact Ht.
  - reflexivity.
Qed.

Lemma updateTicket_spec (id_ : Z) (updateData : TicketUpdateData) (st : Store)
    (cur : t) (rest : list t) :
  fst (TicketController.select_by_id id_ st) = Ok (cur :: rest) ->
  varchar_opt 255 (u_assigned_to updateData) = true ->
  varchar_opt 255 (u_updated_by updateData) = true ->
  exists st',
    TicketController.updateTicket env id_ updateData st =
      (mkResponse 200 true "Ticket updated successfully"
         (TicketData (TicketController.apply_update env updateData cur cur)), st') /\
    tickets st' =
      map (fun x => if id x =? id_
                    then TicketController.apply_update env updateData cur x else x)
          (tickets st) /\
    status_updates st' = (status_updates st ++ audit_rows env updateData cur)%list.
Proof.
  intros Hsel Hfit Hby.
  destruct (select_by_id_found _ _ _ _ Hsel) as [Hid Hrows].
  set (f := TicketController.apply_update env updateData cur).
  unfold TicketController.updateTicket, handler, try_catch.
  unfold bind at 1. rewrite (select_by_id_run id_ st Hid), Hrows.
  unfold bind at 1. rewrite (update_fields_run id_ updateData st cur rest Hsel Hfit).
  fold f. unfold bind at 1. unfold first_row at 1, ret at 1.
  unfold bind at 1. unfold audit_rows.
  destruct (u_status updateData) as [newStatus |] eqn:Hst.
  - destruct (status_eqb newStatus (status cur)) eqn:Heq; cbn [negb].
    + unfold ret at 1. unfold bind, emit, modify, ret.
      eexists. split; [reflexivity |]. cbn. rewrite app_nil_r. split; reflexivity.
    + unfold bind at 1. unfold insert_status_update at 1.
      rewrite (or_default_fits 255 _ "system" Hby eq_refl). unfold modify.
      match goal with
      | |- context [TicketController.sendStatusNotifications env ?a ?b ?c ?s1] =>
          destruct (sendStatusNotifications_frame a b c s1)
            as (s2 & Hn & Ht & _ & _ & _ & Hsu & _ & _);
          rewrite Hn
      end.
      unfold bind, emit, modify, ret.
      eexists. split; [reflexivity |]. cbn in *. rewrite Ht, Hsu.
      split; [reflexivity |].
      replace (id (f cur)) with (id cur) by reflexivity. reflexivity.
  - unfold ret at 1. unfold bind, emit, modify, ret.
    eexists. split; [reflexivity |]. cbn. rewrite app_nil_r. split; reflexivity.
Qed.

(** Closing a ticket through the API. *)
Lemma deleteTicket_spec (id_ : Z) (st : Store) (cur : t) (rest : list t) :
  fst (TicketController.select_by_id id_ st) = Ok (cur :: rest) ->
  TicketController.deleteTicket env id_ st =
  (mkResponse 200 true "Ticket closed successfully" NoData,
   set_tickets
     (map (fun x => if id x =? id_ then TicketController.close env x else x)
          (tickets st))
     (tickets_id_seq st) st).
Proof.
  intros Hsel. destruct (select_by_id_found _ _ _ _ Hsel) as [Hid Hrows].
  unfold TicketController.deleteTicket, handler, try_catch.
  unfold bind at 1. unfold TicketController.route_id. rewrite Hid.
  unfold ret at 1. unfold bind at 1. unfold TicketController.update_by_id at 1.
  rewrite (filter_map_update (fun x => id x =? id_) (TicketController.close env))
    by reflexivity.
  rewrite Hrows. reflexivity.
Qed.

End TicketFacts.

(** ** C4: the audit row of a ticket update *)




(** ** C9: [resolved_at] *)




(** ** C5: closing a ticket and the audit log *)

Lemma close_all_spec (env : Env) (l : list Ticket.t) :
  forall s, exists s',
    CronService.close_all env l s = (Ok tt, s') /\
    status_updates s' = (status_updates s ++ map (auto_close_row env) l)%list.
Proof.
  induction l as [| ticket rest IH]; intros s.
  - exists s. cbn. now rewrite app_nil_r.
  - cbn [CronService.close_all]. unfold bind at 1.
    unfold TicketController.update_by_id at 1.
    unfold bind at 1. rewrite insert_status_update_run by reflexivity.
    match goal with
    | |- context [CronService.close_all env rest ?s1] =>
        destruct (IH s1) as (s' & Hrun & Hsu)
    end.
    exists s'. split; [exact Hrun |].
    rewrite Hsu. cbn. now rewrite <- app_assoc.
Qed.

(** The sibling path: the scheduled auto-close appends one audit row, from
    [resolved] to [closed], for every ticket it closes. *)
Lemma autoClose_appends_audit_rows (env : Env) (st : Store) :
  status_updates (snd (CronService.autoCloseResolvedTickets env st)) =
  (status_updates st ++
   map (auto_close_row env)
       (filter (fun x =>
                  Ticket.status_eqb (Ticket.status x) Ticket.resolved &&
                  match Ticket.resolved_at x with
                  | Some r => r <? now env - CronService.hours_24
                  | None => false
                  end) (tickets st)))%list.
Proof.
  unfold CronService.autoCloseResolvedTickets, handler, try_catch.
  unfold bind. unfold CronService.select_tickets_to_close at 1, gets.
  match goal with
  | |- context [CronService.close_all env ?l st] =>
      destruct (close_all_spec env l st) as (s' & Hrun & Hsu); rewrite Hrun
  end.
  exact Hsu.
Qed.

(** C5.  What Close does on an existing ticket: it answers 200, every row
    with that id now has status [closed], and the audit log is exactly what it
    was before. *)
Theorem C5_close_writes_no_audit_row
    (env : Env) (id_ : Z) (st : Store) (cur : Ticket.t) (rest : list Ticket.t) :
  fst (TicketController.select_by_id id_ st) = Ok (cur :: rest) ->
  exists st',
    TicketController.deleteTicket env id_ st =
      (mkResponse 200 true "Ticket closed successfully" NoData, st') /\
    In (TicketController.close env cur) (tickets st') /\
    (forall x, In x (tickets st') -> Ticket.id x = id_ ->
               Ticket.status x = Ticket.closed) /\
    status_updates st' = status_updates st.
Proof.
  intros Hsel.
  rewrite (deleteTicket_spec env id_ st cur rest Hsel).
  eexists. split; [reflexivity |].
  destruct (select_by_id_found _ _ _ _ Hsel) as [_ Hrows].
  destruct (filter_head_in _ _ _ _ Hrows) as [Hin Hid].
  cbn [tickets status_updates set_tickets]. repeat split.
  - apply in_map_iff. exists cur. split; [| exact Hin]. now rewrite Hid.
  - intros x Hx Hxid. apply in_map_iff in Hx. destruct Hx as (y & Hy & _).
    destruct (Ticket.id y =? id_) eqn:E.
    + now subst x.
    + subst x. apply Z.eqb_neq in E. contradiction.
Qed.

(** C5, witness: [DELETE /api/tickets/1] on the open ticket 1, with an empty
    audit log before and after. *)
Lemma C5_witness :
  exists st',
    TicketController.deleteTicket (TicketExample.env_at 50) 1 TicketExample.store =
      (mkResponse 200 true "Ticket closed successfully" NoData, st') /\
    map Ticket.status (tickets st') = [Ticket.closed; Ticket.resolved] /\
    status_updates st' = [].
Proof.
  destruct (C5_close_writes_no_audit_row (TicketExample.env_at 50) 1
              TicketExample.store TicketExample.complaint [] eq_refl)
    as (st' & Hrun & _ & _ & Hsu).
  exists st'. split; [exact Hrun |]. split; [| exact Hsu].
  assert (E : st' = snd (TicketController.deleteTicket (TicketExample.env_at 50) 1
                           TicketExample.store)) by now rewrite Hrun.
  rewrite E. reflexivity.
Defined.

(** The auto-close job on the same data a day and a half later: ticket 2,
    resolved at time 30, is closed and the audit log gains its row. *)
Example autoClose_example :
  status_updates
    (snd (CronService.autoCloseResolvedTickets
            (TicketExample.env_at (30 + 36 * 60 * 60 * 1000)) TicketExample.store))
  = [auto_close_row (TicketExample.env_at (30 + 36 * 60 * 60 * 1000))
       TicketExample.settled].
Proof. rewrite autoClose_appends_audit_rows. reflexivity. Qed.

(** * Webhooks *)

(** ** The signature check *)

Lemma bytes_eqb_eq (a b : list Z) : WebhookController.bytes_eqb a b = true <-> a = b.
Proof.
  revert b. induction a as [| x a IH]; intros [| y b]; cbn; split; intros H;
    try discriminate; try reflexivity.
  - apply andb_true_iff in H. destruct H as [Hxy Hab].
    apply Z.eqb_eq in Hxy. apply IH in Hab. now subst.
  - injection H as -> ->. rewrite Z.eqb_refl. now apply IH.
Qed.

Lemma bytes_of_string_inj (a b : string) :
  Util.bytes_of_string a = Util.bytes_of_string b -> a = b.
Proof.
  unfold Util.bytes_of_string. intros H.
  rewrite <- (string_of_list_ascii_of_string a), <- (string_of_list_ascii_of_string b).
  f_equal.
  revert H. generalize (list_ascii_of_string a) (list_ascii_of_string b).
  intros l. induction l as [| x l IH]; intros [| y l']; cbn; intros H;
    try discriminate; try reflexivity.
  injection H as Hxy Hl. f_equal.
  - apply N2Z.inj in Hxy.
    rewrite <- (ascii_N_embedding x), <- (ascii_N_embedding y). now rewrite Hxy.
  - now apply IH.
Qed.

(** [verifySignature] accepts exactly one header value. *)
Lemma verifySignature_iff (payload : string) (signature : option string)
    (secret : string) :
  WebhookController.verifySignature payload signature secret = true <->
  signature = Some ("sha256=" ++ Crypto.createHmac_sha256_hex secret payload).
Proof.
  unfold WebhookController.verifySignature, WebhookController.Buffer_from,
    WebhookController.timingSafeEqual.
  destruct signature as [sig |]; [| split; discriminate].
  split.
  - destruct (Nat.eqb _ _); [| discriminate].
    intros H. apply bytes_eqb_eq, bytes_of_string_inj in H. now subst.
  - intros H. injection H as ->. rewrite Nat.eqb_refl. now apply bytes_eqb_eq.
Qed.

Lemma verifySignature_false_iff (payload : string) (signature : option string)
    (secret : string) :
  WebhookController.verifySignature payload signature secret = false <->
  signature <> Some ("sha256=" ++ Crypto.createHmac_sha256_hex secret payload).
Proof.
  rewrite <- verifySignature_iff.
  destruct (WebhookController.verifySignature payload signature secret);
    split; intros H; try reflexivity; try discriminate; try congruence.
Qed.

Lemma logWebhook_pending (env : Env) (source eventType : string)
    (payload : JSON.value) (s : Store) :
  varchar 100 source = true -> varchar 100 eventType = true ->
  WebhookController.logWebhook env source eventType payload
    WebhookController.pending None s
  = (Ok tt,
     set_webhook_logs
       (webhook_logs s ++ [pending_row env source eventType payload])%list s).
Proof.
  intros Hsource Htype.
  unfold WebhookController.logWebhook, try_catch, WebhookController.insert_webhook_log.
  now rewrite Hsource, Htype.
Qed.

(** A row whose source or event type does not fit is not written, and
    [logWebhook] swallows the refusal. *)
Lemma logWebhook_too_long (env : Env) (source eventType : string)
    (payload : JSON.value) (status : string) (errorMessage : option string)
    (s : Store) :
  varchar 100 source && varchar 100 eventType = false ->
  WebhookController.logWebhook env source eventType payload status errorMessage s
  = (Ok tt, s).
Proof.
  intros H.
  unfold WebhookController.logWebhook, try_catch, WebhookController.insert_webhook_log.
  now rewrite H.
Qed.

(** ** C7: the signature gate of the transaction webhook *)




(** ** C2: what a webhook call leaves in the webhook log *)

Section WebhookLogs.

Variable env : Env.

Lemma outcome_of_preserves {B} (m : M B) :
  Preserves webhook_logs m -> records_at_most_one_outcome m.
Proof. intros H s. left. apply H. Qed.

Lemma outcome_bind {B C} (m : M B) (k : B -> M C) :
  Preserves webhook_logs m ->
  (forall b, records_at_most_one_outcome (k b)) ->
  records_at_most_one_outcome (bind m k).
Proof.
  intros Hm Hk s. unfold bind. specialize (Hm s).
  destruct (m s) as [[b | e] s1]; cbn [snd] in *.
  - destruct (Hk b s1) as [H | (r & c & Hok & Hout & H)].
    + left. now rewrite H.
    + right. exists r, c. rewrite H, Hm. auto.
  - left. exact Hm.
Qed.

(** Recording an outcome and answering.  A status outside the CHECK
    constraint of the table makes the INSERT fail, and [logWebhook] swallows
    that. *)
Lemma outcome_log_then_ret {B} (source eventType status : string)
    (payload : JSON.value) (errorMessage : option string) (b : B) :
  status <> "pending" ->
  records_at_most_one_outcome
    (WebhookController.logWebhook env source eventType payload status errorMessage ;;;
     ret b).
Proof.
  intros Hnot s. unfold bind, WebhookController.logWebhook, try_catch,
    WebhookController.insert_webhook_log.
  destruct (negb (varchar 100 source && varchar 100 eventType));
    [left; reflexivity |].
  destruct (WebhookLog.status_check status) eqn:Hcheck; cbn.
  - right. eexists _, b. split; [reflexivity |]. split; [| reflexivity].
    unfold is_outcome, WebhookLog.status_check in *. cbn.
    apply orb_true_iff in Hcheck. destruct Hcheck as [Hcheck | Hfailed].
    + apply orb_true_iff in Hcheck. destruct Hcheck as [Hpending | Hprocessed].
      * apply String.eqb_eq in Hpending. contradiction.
      * apply String.eqb_eq in Hprocessed. now left.
    + apply String.eqb_eq in Hfailed. now right.
  - left. reflexivity.
Qed.

(** The shape every handler has: log [pending], do the rest, and on a throw
    log [failed].  The log gains the pending row and at most one outcome row
    after it. *)
Lemma webhook_handler_log (source eventType : string) (payload : JSON.value)
    (rest : M Response) (fallback : Response) (st : Store) :
  varchar 100 source = true -> varchar 100 eventType = true ->
  records_at_most_one_outcome rest ->
  exists extra,
    webhook_logs
      (snd (handler
              (WebhookController.logWebhook env source eventType payload
                 WebhookController.pending None ;;; rest)
              (fun e =>
                 WebhookController.logWebhook env source eventType payload "failed"
                   (Some e) ;;;
                 ret WebhookController.internal_error)
              fallback st))
    = (webhook_logs st ++ pending_row env source eventType payload :: extra)%list /\
    (List.length extra <= 1)%nat /\ Forall is_outcome extra.
Proof.
  intros Hsource Htype Hrest. unfold handler, try_catch.
  unfold bind at 1. rewrite logWebhook_pending by assumption.
  set (st1 := set_webhook_logs _ st).
  specialize (Hrest st1).
  destruct (rest st1) as [[r | e] st2]; cbn [fst snd] in *.
  - destruct Hrest as [H | (row & b & _ & Hout & H)].
    + exists []. rewrite H. unfold st1. cbn. repeat split; auto.
    + exists [row]. rewrite H. unfold st1. cbn. rewrite <- app_assoc.
      repeat split; auto.
  - destruct Hrest as [H | (row & b & Hok & _)]; [| discriminate].
    unfold bind, WebhookController.logWebhook, try_catch,
      WebhookController.insert_webhook_log, ret.
    rewrite Hsource, Htype. cbn.
    eexists [_]. rewrite H. unfold st1. cbn. rewrite <- app_assoc.
    split; [reflexivity |]. split; [auto |].
    constructor; [| constructor]. right. reflexivity.
Qed.

(** What the delegates of the handlers leave alone. *)

Lemma preserves_sync (transactionId : string) :
  Preserves webhook_logs (TransactionService.updateTransactionStatus env transactionId).
Proof.
  intros s. now rewrite sync_run.
Qed.

Lemma preserves_notifications (x : Transaction.t) :
  Preserves webhook_logs (sendTransactionNotifications env x).
Proof.
  intros s. now rewrite sendTransactionNotifications_run.
Qed.

Lemma preserves_emit (e : Event) : Preserves webhook_logs (emit e).
Proof. intros s. reflexivity. Qed.

Lemma preserves_sendEmail (d : EmailService.EmailData) :
  Preserves webhook_logs (EmailService.sendEmail env d).
Proof.
  intros s. destruct (sendEmail_spec env d s) as (b & e & Hrun & _).
  now rewrite Hrun.
Qed.

Lemma preserves_processIncomingEmail (emailData : JSON.value) :
  Preserves webhook_logs (TicketController.processIncomingEmail env emailData).
Proof.
  unfold TicketController.processIncomingEmail.
  apply preserves_bind.
  - intros s. unfold TicketController.insert_ticket.
    destruct (negb _); [reflexivity |].
    destruct (existsb _ _); reflexivity.
  - intros result. apply preserves_bind.
    + destruct result; [apply preserves_throw | apply preserves_ret].
    + intros ticket.
      destruct (JSON.get "from" emailData) as [[] |];
        try apply preserves_throw.
      apply preserves_bind; [apply preserves_sendEmail |].
      intros _. apply preserves_bind; [apply preserves_emit |].
      intros _. apply preserves_ret.
Qed.

End WebhookLogs.




(** * Further properties of the handlers *)

Lemma or_null_absent (o : option string) : absent o -> Util.or_null o = None.
Proof. intros [-> | ->]; reflexivity. Qed.

Lemma or_null_present (o : option string) (v : string) :
  o = Some v -> v <> "" -> Util.or_null o = Some v.
Proof.
  intros -> Hne. unfold Util.or_null, Util.truthy_string.
  apply String.eqb_neq in Hne. now rewrite Hne.
Qed.

Lemma or_null_fits (n : nat) (o : option string) :
  varchar_opt n o = true -> varchar_opt n (Util.or_null o) = true.
Proof.
  intros H. unfold Util.or_null. destruct o as [v |]; [| reflexivity].
  destruct (Util.truthy_string v); [exact H | reflexivity].
Qed.

(** Writing a table back as it is gives the store back. *)
Lemma set_tickets_same (st : Store) : set_tickets (tickets st) (tickets_id_seq st) st = st.
Proof. now destruct st. Qed.

(** An UPDATE whose WHERE clause selects nothing changes nothing. *)
Lemma map_update_no_hit {R} (hit : R -> bool) (f : R -> R) (l : list R) :
  filter hit l = [] -> map (fun x => if hit x then f x else x) l = l.
Proof.
  induction l as [| x l IH]; cbn; [reflexivity |].
  destruct (hit x); [discriminate |]. intros H. now rewrite IH.
Qed.

(** ** Creating a ticket *)

Section CreateTicket.

Variables (env : Env) (ticketData : Ticket.TicketCreationData) (st : Store).

(** X1.  A creation request without a customer e-mail address or without a
    subject (missing or empty) is answered 400 and writes nothing. *)
Theorem createTicket_requires_email_and_subject :
  absent (Ticket.c_customer_email ticketData) \/ absent (Ticket.c_subject ticketData) ->
  TicketController.createTicket env ticketData st =
  (mkResponse 400 false "Customer email and subject are required" NoData, st).
Proof.
  intros H. unfold TicketController.createTicket, handler, try_catch.
  destruct H as [H | H]; rewrite (or_null_absent _ H).
  - reflexivity.
  - destruct (Util.or_null (Ticket.c_customer_email ticketData)); reflexivity.
Qed.

Variables (customer subject_ : string).
Hypothesis Hcustomer : Ticket.c_customer_email ticketData = Some customer.
Hypothesis Hcustomer_ne : customer <> "".
Hypothesis Hsubject : Ticket.c_subject ticketData = Some subject_.
Hypothesis Hsubject_ne : subject_ <> "".

(** X2.  The ticket number is built from the clock and a random number and
    is not checked against the table before the INSERT: when a ticket with
    that number exists, the unique constraint rejects the row, the request is
    answered 500, and no ticket, audit row or e-mail is written and no event
    is emitted. *)
Theorem createTicket_number_collision (x : Ticket.t) :
  In x (tickets st) ->
  Ticket.ticket_number x = TicketController.ticketNumber env ->
  let out := TicketController.createTicket env ticketData st in
  fst out = mkResponse 500 false "Failed to create ticket" NoData /\
  tickets (snd out) = tickets st /\
  status_updates (snd out) = status_updates st /\
  email_logs (snd out) = email_logs st /\
  whatsapp_logs (snd out) = whatsapp_logs st /\
  emitted (snd out) = emitted st.
Proof.
  intros Hin Hnum.
  assert (Hout : TicketController.createTicket env ticketData st =
                 (mkResponse 500 false "Failed to create ticket" NoData,
                  set_tickets (tickets st) (tickets_id_seq st + 1) st)).
  { unfold TicketController.createTicket, handler, try_catch.
    rewrite (or_null_present _ _ Hcustomer Hcustomer_ne),
            (or_null_present _ _ Hsubject Hsubject_ne).
    unfold bind at 1. unfold TicketController.insert_ticket at 1.
    assert (E : existsb (fun y => String.eqb (Ticket.ticket_number y)
                                             (TicketController.ticketNumber env))
                        (tickets st) = true).
    { apply existsb_exists. exists x. split; [exact Hin |]. now apply String.eqb_eq. }
    rewrite E. destruct (negb _); reflexivity. }
  cbv zeta. rewrite Hout. repeat split.
Qed.


End CreateTicket.

Lemma createTicket_requires_email_and_subject_witness :
  TicketController.createTicket (TicketExample.env_at 50) CreateExample.no_subject
    TicketExample.store =
  (mkResponse 400 false "Customer email and subject are required" NoData,
   TicketExample.store).
Proof.
  apply createTicket_requires_email_and_subject. right. left. reflexivity.
Defined.

Lemma createTicket_number_collision_witness :
  fst (TicketController.createTicket (TicketExample.env_at 50) CreateExample.request
         CreateExample.crowded) =
  mkResponse 500 false "Failed to create ticket" NoData /\
  tickets (snd (TicketController.createTicket (TicketExample.env_at 50)
                  CreateExample.request CreateExample.crowded)) =
  [CreateExample.taken].
Proof.
  destruct (createTicket_number_collision (TicketExample.env_at 50)
              CreateExample.request CreateExample.crowded "c@x.com" "Payment failed"
              eq_refl ltac:(discriminate) eq_refl ltac:(discriminate)
              CreateExample.taken)
    as (Hres & Htk & _).
  - now left.
  - reflexivity.
  - split; [exact Hres | exact Htk].
Defined.


(** ** Requests that name nothing *)

Lemma filter_none {R} (p : R -> bool) (l : list R) :
  (forall x, In x l -> p x = false) -> filter p l = [].
Proof.
  induction l as [| x l IH]; cbn; intros H; [reflexivity |].
  rewrite (H x (or_introl eq_refl)). apply IH. intros y Hy. apply H. now right.
Qed.

(** X4.  A manual status update without a status is answered 400.  Every
    other manual update is answered 500, also when its id matches no
    transaction: the lookup is refused before it can find that out, so no
    request is answered 404 or 200.  In all cases the store is left as it
    was. *)
Theorem manual_update_rejections (env : Env)
    (req : TransactionController.StatusRequest) (st : Store) :
  let out := TransactionController.updateTransactionStatus env req st in
  snd out = st /\
  (TransactionController.req_status req = None ->
   fst out = mkResponse 400 false "Status is required" NoData) /\
  (TransactionController.req_status req <> None ->
   fst out =
   TransactionController.internal_error "Failed to update transaction status") /\
  statusCode (fst out) <> 404 /\ statusCode (fst out) <> 200.
Proof.
  cbv zeta. rewrite manual_update_run. cbn [fst snd].
  split; [reflexivity |].
  destruct (TransactionController.req_status req) as [s |];
    repeat split; try discriminate;
    try (intros H; first [discriminate H | reflexivity | now destruct H]).
Qed.

(** An update for an id no transaction has is answered 500, not 404. *)
Lemma manual_update_rejections_witness :
  fst (TransactionController.updateTransactionStatus (TxExample.env_at 20)
         (TransactionController.mkStatusRequest "tx_9" (Some Transaction.failed)
            None None)
         TxExample.store) =
  TransactionController.internal_error "Failed to update transaction status".
Proof.
  apply (manual_update_rejections (TxExample.env_at 20)
           (TransactionController.mkStatusRequest "tx_9" (Some Transaction.failed)
              None None) TxExample.store).
  discriminate.
Defined.

(** X5.  The id of the route is text that the server reads as an [int4].
    Update and Close of an id in that range that is not in the table are
    answered 404; an id outside the range is refused by the server and
    answered 500.  Either way the store is left as it was: no row is touched,
    no audit row written, no event published. *)
Theorem absent_ticket_is_not_found (env : Env) (id_ : Z)
    (updateData : Ticket.TicketUpdateData) (st : Store) :
  (forall x, In x (tickets st) -> Ticket.id x <> id_) ->
  (int4 id_ = true ->
   TicketController.updateTicket env id_ updateData st =
     (mkResponse 404 false "Ticket not found" NoData, st) /\
   TicketController.deleteTicket env id_ st =
     (mkResponse 404 false "Ticket not found" NoData, st)) /\
  (int4 id_ = false ->
   TicketController.updateTicket env id_ updateData st =
     (TicketController.internal_error "Failed to update ticket", st) /\
   TicketController.deleteTicket env id_ st =
     (TicketController.internal_error "Failed to close ticket", st)).
Proof.
  intros Hnone.
  assert (E : filter (fun x => Ticket.id x =? id_) (tickets st) = []).
  { apply filter_none. intros x Hin. apply Z.eqb_neq. now apply Hnone. }
  split; intros Hid; split.
  - unfold TicketController.updateTicket, handler, try_catch.
    unfold bind at 1. rewrite (select_by_id_run id_ st Hid). now rewrite E.
  - unfold TicketController.deleteTicket, handler, try_catch.
    unfold bind at 1. unfold TicketController.route_id. rewrite Hid.
    unfold ret at 1. unfold bind at 1. unfold TicketController.update_by_id.
    rewrite (map_update_no_hit (fun x => Ticket.id x =? id_)) by exact E.
    rewrite E. now rewrite set_tickets_same.
  - unfold TicketController.updateTicket, handler, try_catch.
    unfold bind at 1. destruct (select_by_id_refused id_ st Hid) as (e & Hrun).
    now rewrite Hrun.
  - unfold TicketController.deleteTicket, handler, try_catch.
    unfold bind at 1. unfold TicketController.route_id. now rewrite Hid.
Qed.

(** [DELETE /api/tickets/7] finds nothing; [DELETE /api/tickets/2147483648]
    is refused. *)
Lemma absent_ticket_is_not_found_witness :
  TicketController.deleteTicket (TicketExample.env_at 50) 7 TicketExample.store =
  (mkResponse 404 false "Ticket not found" NoData, TicketExample.store) /\
  TicketController.deleteTicket (TicketExample.env_at 50) 2147483648
    TicketExample.store =
  (TicketController.internal_error "Failed to close ticket", TicketExample.store).
Proof.
  split.
  - apply (absent_ticket_is_not_found (TicketExample.env_at 50) 7
             (TicketExample.set_status Ticket.closed) TicketExample.store).
    + intros x [<- | [<- | []]]; discriminate.
    + reflexivity.
  - apply (absent_ticket_is_not_found (TicketExample.env_at 50) 2147483648
             (TicketExample.set_status Ticket.closed) TicketExample.store).
    + intros x [<- | [<- | []]]; discriminate.
    + reflexivity.
Defined.

(** ** Refreshing one transaction from the status source *)

(** Under the unique constraint on [transaction_id] a row is the only one
    with its external id. *)
Lemma unique_transaction_id (l : list Transaction.t) (x : Transaction.t) :
  NoDup (map Transaction.transaction_id l) -> In x l ->
  filter (fun y => String.eqb (Transaction.transaction_id y)
                              (Transaction.transaction_id x)) l = [x].
Proof.
  induction l as [| y l IH]; cbn; intros Hnd Hin; [contradiction |].
  inversion Hnd as [| k ks Hnotin Hnd']; subst.
  destruct Hin as [-> | Hin].
  - rewrite String.eqb_refl. f_equal. apply filter_none.
    intros z Hz. apply String.eqb_neq. intros E. apply Hnotin.
    rewrite <- E. now apply in_map.
  - assert (Hne : String.eqb (Transaction.transaction_id y)
                             (Transaction.transaction_id x) = false).
    { apply String.eqb_neq. intros E. apply Hnotin. rewrite E. now apply in_map. }
    rewrite Hne. now apply IH.
Qed.

(** X6.  Refresh is answered 500 for every id, whatever the table holds and
    whatever the status source would report, and leaves the store as it was.
    Its lookup is the statement of the manual update and is refused when it
    is prepared, so the handler never reaches SyncStatus, the notifications
    or the event. *)
Theorem refresh_is_refused_at_the_lookup (env : Env) (id_ : string) (st : Store) :
  TransactionController.refreshTransactionStatus env id_ st =
  (TransactionController.internal_error "Failed to refresh transaction status", st) /\
  forall env',
    TransactionController.refreshTransactionStatus env' id_ st =
    TransactionController.refreshTransactionStatus env id_ st.
Proof.
  split; [apply refresh_run |].
  intros env'. now rewrite !refresh_run.
Qed.

(** ** The batch endpoint *)

(** X7.  The batch endpoint answers 400 without touching the store when the
    body carries no array or an empty one.  On a non-empty list it answers 200
    and reports as updated the rows BatchSync returned, which are the stored
    rows whose status the source confirms; the store is left as it was, so no
    transaction is updated and no e-mail is logged for any of them. *)
Theorem batch_endpoint_reports_confirmed_rows (env : Env) (st : Store) :
  TransactionController.batchUpdateTransactions env None st =
    (mkResponse 400 false "Transaction IDs array is required" NoData, st) /\
  TransactionController.batchUpdateTransactions env (Some []) st =
    (mkResponse 400 false "Transaction IDs array is required" NoData, st) /\
  (forall id_ rest,
      let ids := id_ :: rest in
      let rows := confirmed_rows env ids st in
      let n := Z.of_nat (List.length rows) in
      TransactionController.batchUpdateTransactions env (Some ids) st =
        (mkResponse 200 true ("Updated " ++ Util.string_of_Z n ++ " transactions")
           (BatchData n rows), st)).
Proof.
  split; [reflexivity |]. split; [reflexivity |].
  intros id_ rest. cbv zeta.
  unfold TransactionController.batchUpdateTransactions, handler, try_catch.
  unfold bind at 1. rewrite batch_run.
  unfold bind at 1. rewrite notify_all_run. reflexivity.
Qed.

(** ** The scheduled auto-close *)

Lemma close_all_tickets (env : Env) (l : list Ticket.t) :
  forall s,
    tickets (snd (CronService.close_all env l s)) =
    map (fun x => if existsb (fun t => Ticket.id x =? Ticket.id t) l
                  then TicketController.close env x else x) (tickets s).
Proof.
  induction l as [| ticket rest IH]; intros s.
  - cbn. now rewrite map_id.
  - cbn [CronService.close_all]. unfold bind at 1.
    unfold TicketController.update_by_id at 1.
    unfold bind at 1. rewrite insert_status_update_run by reflexivity.
    rewrite IH. cbn [tickets set_status_updates set_tickets].
    rewrite map_map. apply map_ext. intros x. cbn [existsb].
    destruct (Ticket.id x =? Ticket.id ticket) eqn:E; cbn [orb].
    + destruct (existsb _ rest); reflexivity.
    + reflexivity.
Qed.

Lemma autoClose_run (env : Env) (st : Store) :
  exists st',
    CronService.autoCloseResolvedTickets env st = (tt, st') /\
    tickets st' =
      map (fun x => if existsb (fun t => Ticket.id x =? Ticket.id t)
                               (filter (due env) (tickets st))
                    then TicketController.close env x else x) (tickets st).
Proof.
  unfold CronService.autoCloseResolvedTickets, handler, try_catch.
  unfold bind. unfold CronService.select_tickets_to_close at 1, gets.
  fold (due env).
  destruct (close_all_spec env (filter (due env) (tickets st)) st)
    as (s' & Hrun & _).
  assert (Htk := close_all_tickets env (filter (due env) (tickets st)) st).
  change (fun x : Ticket.t =>
            Ticket.status_eqb (Ticket.status x) Ticket.resolved &&
            match Ticket.resolved_at x with
            | Some r => r <? now env - CronService.hours_24
            | None => false
            end) with (due env).
  rewrite Hrun in *. exists s'. split; [reflexivity | exact Htk].
Qed.

(** X8.  The auto-close job closes every ticket that is resolved for more
    than 24 hours and writes one audit row, from [resolved] to [closed], for
    each; afterwards no ticket is due, so running the job again at once
    changes nothing.  With unique ticket ids, the tickets that were not due
    are left exactly as they were (a ticket resolved an hour ago, an open
    ticket). *)
Theorem autoClose_closes_what_is_due (env : Env) (st : Store) :
  let st' := snd (CronService.autoCloseResolvedTickets env st) in
  (forall x, In x (tickets st) -> due env x = true ->
             In (TicketController.close env x) (tickets st')) /\
  (forall y, In y (tickets st') -> due env y = false) /\
  status_updates st' =
    (status_updates st ++
     map (auto_close_row env) (filter (due env) (tickets st)))%list /\
  snd (CronService.autoCloseResolvedTickets env st') = st' /\
  (NoDup (map Ticket.id (tickets st)) ->
   forall x, In x (tickets st) -> due env x = false -> In x (tickets st')).
Proof.
  intros st'.
  destruct (autoClose_run env st) as (s1 & Hrun & Htk).
  assert (E : st' = s1) by (unfold st'; now rewrite Hrun).
  assert (Hnone : forall y, In y (tickets st') -> due env y = false).
  { intros y Hy. rewrite E, Htk in Hy. apply in_map_iff in Hy.
    destruct Hy as (x & Hxy & Hx).
    destruct (existsb _ _) eqn:Hex.
    - subst y. reflexivity.
    - subst y. destruct (due env x) eqn:Hdue; [| reflexivity].
      assert (Hex' : existsb (fun t => Ticket.id x =? Ticket.id t)
                             (filter (due env) (tickets st)) = true).
      { apply existsb_exists. exists x. split.
        - apply filter_In. auto.
        - apply Z.eqb_refl. }
      congruence. }
  split; [| split; [exact Hnone | split; [| split]]].
  - intros x Hin Hdue. rewrite E, Htk. apply in_map_iff. exists x.
    split; [| exact Hin].
    assert (Hex : existsb (fun t => Ticket.id x =? Ticket.id t)
                          (filter (due env) (tickets st)) = true).
    { apply existsb_exists. exists x. split.
      - apply filter_In. auto.
      - apply Z.eqb_refl. }
    now rewrite Hex.
  - unfold st'. apply autoClose_appends_audit_rows.
  - destruct (autoClose_run env st') as (s2 & Hrun2 & Htk2).
    rewrite Hrun2. cbn [snd].
    assert (Hempty : filter (due env) (tickets st') = [])
      by (apply filter_none; exact Hnone).
    unfold CronService.autoCloseResolvedTickets, handler, try_catch, bind in Hrun2.
    unfold CronService.select_tickets_to_close, gets in Hrun2.
    change (fun x : Ticket.t =>
              Ticket.status_eqb (Ticket.status x) Ticket.resolved &&
              match Ticket.resolved_at x with
              | Some r => r <? now env - CronService.hours_24
              | None => false
              end) with (due env) in Hrun2.
    rewrite Hempty in Hrun2. cbn in Hrun2. now injection Hrun2.
  - intros Hnd x Hin Hdue. rewrite E, Htk. apply in_map_iff. exists x.
    split; [| exact Hin].
    destruct (existsb _ _) eqn:Hex; [| reflexivity].
    apply existsb_exists in Hex. destruct Hex as (t & Ht & Hid).
    apply filter_In in Ht. destruct Ht as [Ht Htdue].
    apply Z.eqb_eq in Hid.
    assert (t = x).
    { clear - Hnd Hin Ht Hid. induction (tickets st) as [| y l IH];
        [contradiction |].
      cbn in Hnd. inversion Hnd as [| k ks Hnotin Hnd']; subst.
      destruct Hin as [-> | Hin], Ht as [-> | Ht]; auto.
      - exfalso. apply Hnotin. rewrite Hid. now apply in_map.
      - exfalso. apply Hnotin. rewrite <- Hid. now apply in_map. }
    subst t. congruence.
Qed.

(** A ticket resolved 25 hours ago is closed by the job; one resolved an hour
    ago and an open one are left alone. *)
Lemma autoClose_closes_what_is_due_witness :
  In TicketExample.complaint
     (tickets (snd (CronService.autoCloseResolvedTickets
                      (TicketExample.env_at (30 + 25 * 60 * 60 * 1000))
                      TicketExample.store))) /\
  In (TicketController.close (TicketExample.env_at (30 + 25 * 60 * 60 * 1000))
        TicketExample.settled)
     (tickets (snd (CronService.autoCloseResolvedTickets
                      (TicketExample.env_at (30 + 25 * 60 * 60 * 1000))
                      TicketExample.store))) /\
  In TicketExample.settled
     (tickets (snd (CronService.autoCloseResolvedTickets
                      (TicketExample.env_at (30 + 60 * 60 * 1000))
                      TicketExample.store))).
Proof.
  destruct (autoClose_closes_what_is_due
              (TicketExample.env_at (30 + 25 * 60 * 60 * 1000)) TicketExample.store)
    as (Hclosed & _ & _ & _ & Hkept).
  destruct (autoClose_closes_what_is_due
              (TicketExample.env_at (30 + 60 * 60 * 1000)) TicketExample.store)
    as (_ & _ & _ & _ & Hkept').
  assert (Hnd : NoDup (map Ticket.id (tickets TicketExample.store)))
    by (repeat constructor; cbn; intuition discriminate).
  split; [| split].
  - apply (Hkept Hnd); [now left | reflexivity].
  - apply Hclosed; [right; now left | reflexivity].
  - apply (Hkept' Hnd); [right; now left | reflexivity].
Defined.

(** ** Listing tickets without a search text *)

Section Listing.

Variable env : Env.

Lemma bind_all_app (params : list Sql.Param) (cs cs' : list Sql.Cond) bs bs' :
  Sql.bind_all env params cs = Some bs ->
  Sql.bind_all env params cs' = Some bs' ->
  Sql.bind_all env params (cs ++ cs')%list = Some (bs ++ bs')%list.
Proof.
  revert bs. induction cs as [| c cs IH]; cbn; intros bs H H'.
  - injection H as <-. exact H'.
  - destruct (Sql.bind_cond env params c) as [b |]; [| discriminate].
    destruct (Sql.bind_all env params cs) as [bs0 |]; [| discriminate].
    injection H as <-. now rewrite (IH bs0 eq_refl H').
Qed.

Lemma param_pushed (params more : list Sql.Param) (x : Sql.Param) :
  Sql.param (params ++ x :: more)%list (S (List.length params)) = Some x.
Proof.
  unfold Sql.param. cbn [Nat.sub]. rewrite Nat.sub_0_r.
  rewrite nth_error_app2 by lia. now rewrite Nat.sub_diag.
Qed.

Lemma built_ext (b : TicketController.Builder) (sem sem' : Ticket.t -> bool) :
  (forall t, sem t = sem' t) -> built env b sem -> built env b sem'.
Proof.
  intros Hext (H1 & H2 & H3). repeat split; auto.
  intros more. destruct (H3 more) as (bs & Hbs & Hsem).
  exists bs. split; [exact Hbs |]. intros t. now rewrite Hsem.
Qed.

Lemma built_push (b : TicketController.Builder) (sem : Ticket.t -> bool)
    (cond : nat -> Sql.Cond) (v : string) (bnd : Sql.Bound) :
  (forall p, Sql.placeholders (cond p) = [p]) ->
  (forall params p,
      Sql.param params p = Some (Sql.PText v) ->
      Sql.bind_cond env params (cond p) = Some bnd) ->
  built env b sem ->
  built env (TicketController.push cond v b) (fun t => sem t && Sql.holds bnd t).
Proof.
  intros Hph Hbind (Hstep & Hrefs & Hbs).
  split; [now apply in_step_push |]. split.
  - unfold TicketController.push. cbn.
    rewrite flat_map_app, Hrefs, length_app. cbn. rewrite Hph, app_nil_r.
    unfold in_step in Hstep. rewrite Hstep.
    rewrite Nat.add_1_r, seq_S. reflexivity.
  - intros more. unfold TicketController.push. cbn.
    rewrite <- app_assoc. cbn [app].
    destruct (Hbs (Sql.PText v :: more)) as (bs & Hb & Hsem).
    exists (bs ++ [bnd])%list. split.
    + apply bind_all_app; [exact Hb |]. cbn.
      unfold in_step in Hstep. rewrite Hstep.
      rewrite (Hbind _ _ (param_pushed _ _ _)). reflexivity.
    + intros t. rewrite forallb_app, Hsem. cbn. now rewrite andb_true_r.
Qed.

Lemma built_when_set (b : TicketController.Builder) (sem : Ticket.t -> bool)
    (o : option string) (f : string -> TicketController.Builder -> TicketController.Builder)
    (test : string -> Ticket.t -> bool) :
  built env b sem ->
  (forall v, o = Some v -> v <> "" ->
             built env (f v b) (fun t => sem t && test v t)) ->
  built env (TicketController.when_set o f b)
        (fun t => sem t && filter_ok o (fun v => test v t)).
Proof.
  intros Hb Hf. unfold TicketController.when_set, filter_ok.
  destruct o as [v |].
  - destruct (Util.truthy_string v) eqn:Ht.
    + apply Hf; [reflexivity |].
      unfold Util.truthy_string in Ht. apply negb_true_iff in Ht.
      now apply String.eqb_neq.
    + apply (built_ext b sem); [| exact Hb]. intros t. now rewrite andb_true_r.
  - apply (built_ext b sem); [| exact Hb]. intros t. now rewrite andb_true_r.
Qed.

(** An equality filter on a text column. *)
Lemma built_eq (b : TicketController.Builder) (sem : Ticket.t -> bool)
    (c : Sql.Column) (v : string) :
  built env b sem ->
  built env (TicketController.push (Sql.Eq c) v b)
        (fun t => sem t && match Sql.text_of c t with
                           | Some x => String.eqb x v
                           | None => false
                           end).
Proof.
  intros Hb. apply (built_push b sem (Sql.Eq c) v (Sql.BEq c v)); auto.
  intros params p Hp. cbn. now rewrite Hp.
Qed.

(** A partial, case-insensitive match on a text column. *)
Lemma built_ilike (b : TicketController.Builder) (sem : Ticket.t -> bool)
    (c : Sql.Column) (v : string) :
  built env b sem ->
  built env (TicketController.push (Sql.ILike c) (TicketController.wildcard v) b)
        (fun t => sem t && match Sql.text_of c t with
                           | Some x => Util.ilike x (TicketController.wildcard v)
                           | None => false
                           end).
Proof.
  intros Hb.
  apply (built_push b sem (Sql.ILike c) _
           (Sql.BILike c (TicketController.wildcard v))); auto.
  intros params p Hp. cbn. now rewrite Hp.
Qed.

(** A bound on the creation time, given as a text the store can read. *)
Lemma built_ge (b : TicketController.Builder) (sem : Ticket.t -> bool) (v : string) :
  timestamptz_in env v <> None ->
  built env b sem ->
  built env (TicketController.push (Sql.Ge Sql.created_at) v b)
        (fun t => sem t && match timestamptz_in env v with
                           | Some ts => ts <=? Ticket.created_at t
                           | None => false
                           end).
Proof.
  intros Hok Hb. destruct (timestamptz_in env v) as [ts |] eqn:Hts; [| contradiction].
  apply (built_push b sem (Sql.Ge Sql.created_at) v (Sql.BGe ts)); auto.
  intros params p Hp. cbn. rewrite Hp. cbn. now rewrite Hts.
Qed.

Lemma built_le (b : TicketController.Builder) (sem : Ticket.t -> bool) (v : string) :
  timestamptz_in env v <> None ->
  built env b sem ->
  built env (TicketController.push (Sql.Le Sql.created_at) v b)
        (fun t => sem t && match timestamptz_in env v with
                           | Some ts => Ticket.created_at t <=? ts
                           | None => false
                           end).
Proof.
  intros Hok Hb. destruct (timestamptz_in env v) as [ts |] eqn:Hts; [| contradiction].
  apply (built_push b sem (Sql.Le Sql.created_at) v (Sql.BLe ts)); auto.
  intros params p Hp. cbn. rewrite Hp. cbn. now rewrite Hts.
Qed.

Lemma built_before_search (fl : Ticket.TicketFilter) :
  date_ok env (Ticket.f_date_from fl) -> date_ok env (Ticket.f_date_to fl) ->
  built env (TicketController.before_search fl) (matches env fl).
Proof.
  intros Hfrom Hto.
  assert (H0 : built env (TicketController.mkBuilder [] [] 1) (fun _ => true)).
  { repeat split. intros more. exists []. split; reflexivity. }
  pose proof (built_when_set _ _ (Ticket.f_status fl) _ _ H0
                (fun v _ _ => built_eq _ _ Sql.status v H0)) as H1.
  pose proof (built_when_set _ _ (Ticket.f_priority fl) _ _ H1
                (fun v _ _ => built_eq _ _ Sql.priority v H1)) as H2.
  pose proof (built_when_set _ _ (Ticket.f_customer_email fl)
                (fun v => TicketController.push (Sql.ILike Sql.customer_email)
                            (TicketController.wildcard v)) _ H2
                (fun v _ _ => built_ilike _ _ Sql.customer_email v H2)) as H3.
  pose proof (built_when_set _ _ (Ticket.f_merchant_email fl)
                (fun v => TicketController.push (Sql.ILike Sql.merchant_email)
                            (TicketController.wildcard v)) _ H3
                (fun v _ _ => built_ilike _ _ Sql.merchant_email v H3)) as H4.
  pose proof (built_when_set _ _ (Ticket.f_assigned_to fl)
                (fun v => TicketController.push (Sql.ILike Sql.assigned_to)
                            (TicketController.wildcard v)) _ H4
                (fun v _ _ => built_ilike _ _ Sql.assigned_to v H4)) as H5.
  pose proof (built_when_set _ _ (Ticket.f_transaction_id fl) _ _ H5
                (fun v _ _ => built_eq _ _ Sql.transaction_id v H5)) as H6.
  pose proof (built_when_set _ _ (Ticket.f_date_from fl) _ _ H6
                (fun v Hv Hne => built_ge _ _ v (Hfrom v Hv Hne) H6)) as H7.
  pose proof (built_when_set _ _ (Ticket.f_date_to fl) _ _ H7
                (fun v Hv Hne => built_le _ _ v (Hto v Hv Hne) H7)) as H8.
  exact H8.
Qed.

End Listing.

Lemma placeholders_match_seq (n : nat) :
  Sql.placeholders_match (seq 1 n) n = true.
Proof.
  unfold Sql.placeholders_match. apply andb_true_iff. split.
  - apply forallb_forall. intros r Hr. apply in_seq in Hr.
    apply andb_true_iff. split; apply Nat.leb_le; lia.
  - apply forallb_forall. intros i Hi. apply existsb_exists.
    exists i. split; [exact Hi | apply Nat.eqb_refl].
Qed.

Lemma drop_last_two_app {A} (l : list A) (a b : A) :
  TicketController.drop_last_two (l ++ [a; b])%list = l.
Proof.
  unfold TicketController.drop_last_two. rewrite length_app. cbn [List.length].
  replace (List.length l + 2 - 2)%nat with (List.length l + 0)%nat by lia.
  rewrite firstn_app_2. cbn. apply app_nil_r.
Qed.

Lemma int_param_limit (ps : list Sql.Param) (l o : Z) :
  Sql.int_param (ps ++ [Sql.PNum l; Sql.PNum o])%list (S (List.length ps)) = Some l.
Proof.
  unfold Sql.int_param, Sql.param. cbn [Nat.sub]. rewrite Nat.sub_0_r.
  rewrite nth_error_app2 by lia. now rewrite Nat.sub_diag.
Qed.

Lemma int_param_offset (ps : list Sql.Param) (l o : Z) :
  Sql.int_param (ps ++ [Sql.PNum l; Sql.PNum o])%list (S (S (List.length ps))) = Some o.
Proof.
  unfold Sql.int_param, Sql.param. cbn [Nat.sub].
  rewrite nth_error_app2 by lia.
  replace (S (List.length ps) - List.length ps)%nat with 1%nat by lia. reflexivity.
Qed.

Lemma build_where_without_search (fl : Ticket.TicketFilter) :
  absent (Ticket.f_search fl) ->
  TicketController.build_where fl = TicketController.before_search fl.
Proof.
  unfold TicketController.build_where, TicketController.when_set.
  intros [-> | ->]; reflexivity.
Qed.

Lemma filter_ext_bool {A} (f g : A -> bool) (l : list A) :
  (forall x, f x = g x) -> filter f l = filter g l.
Proof. intros H. apply filter_ext. exact H. Qed.

(** ** The order and the size of a page *)

Lemma insert_desc_perm (t : Ticket.t) (l : list Ticket.t) :
  Permutation (t :: l) (Sql.insert_desc t l).
Proof.
  induction l as [| x l IH]; cbn; [reflexivity |].
  destruct (Ticket.created_at x <=? Ticket.created_at t); [reflexivity |].
  rewrite perm_swap. now apply perm_skip.
Qed.

Lemma order_by_perm (l : list Ticket.t) :
  Permutation l (Sql.order_by_created_at_desc l).
Proof.
  induction l as [| x l IH]; cbn; [constructor |].
  rewrite <- insert_desc_perm. now apply perm_skip.
Qed.

Lemma insert_desc_sorted (t : Ticket.t) (l : list Ticket.t) :
  newest_first l -> newest_first (Sql.insert_desc t l).
Proof.
  unfold newest_first. induction l as [| x l IH]; intros Hs; cbn.
  - repeat constructor.
  - inversion Hs as [| ? ? Hs' Hall]; subst.
    destruct (Ticket.created_at x <=? Ticket.created_at t) eqn:Hlt.
    + apply Z.leb_le in Hlt. constructor; [exact Hs |].
      constructor; [lia |].
      eapply Forall_impl; [| exact Hall]. cbn. intros; lia.
    + apply Z.leb_gt in Hlt. constructor; [now apply IH |].
      apply (Permutation_Forall (insert_desc_perm t l)).
      constructor; [lia | exact Hall].
Qed.

Lemma order_by_sorted (l : list Ticket.t) :
  newest_first (Sql.order_by_created_at_desc l).
Proof.
  induction l as [| x l IH]; cbn; [constructor |].
  now apply insert_desc_sorted.
Qed.

(** With distinct creation times there is one way to put rows newest
    first. *)
Lemma newest_first_unique (l1 : list Ticket.t) :
  forall l2,
    NoDup (map Ticket.created_at l1) -> Permutation l1 l2 ->
    newest_first l1 -> newest_first l2 -> l1 = l2.
Proof.
  unfold newest_first.
  induction l1 as [| x l1 IH]; intros l2 Hnd Hperm Hs1 Hs2.
  - apply Permutation_nil in Hperm. now subst.
  - destruct l2 as [| y l2].
    { apply Permutation_sym, Permutation_nil in Hperm. discriminate. }
    inversion Hs1 as [| ? ? Hs1' Hall1]; subst.
    inversion Hs2 as [| ? ? Hs2' Hall2]; subst.
    cbn in Hnd. inversion Hnd as [| k ks Hnotin Hnd']; subst.
    assert (Hxy : x = y).
    { assert (Hy : In y (x :: l1))
        by (apply (Permutation_in _ (Permutation_sym Hperm)); now left).
      assert (Hx : In x (y :: l2))
        by (apply (Permutation_in _ Hperm); now left).
      destruct Hy as [Hy | Hy]; [exact Hy |].
      destruct Hx as [Hx | Hx]; [now symmetry |].
      rewrite Forall_forall in Hall1, Hall2.
      pose proof (Hall1 y Hy) as H1. pose proof (Hall2 x Hx) as H2.
      exfalso. apply Hnotin.
      replace (Ticket.created_at x) with (Ticket.created_at y) by lia.
      now apply in_map. }
    subst y. f_equal. apply IH; auto.
    now apply Permutation_cons_inv in Hperm.
Qed.




Lemma in_firstn {A} (n : nat) (l : list A) (x : A) : In x (firstn n l) -> In x l.
Proof. intros H. rewrite <- (firstn_skipn n l). apply in_or_app. now left. Qed.

Lemma in_skipn {A} (n : nat) (l : list A) (x : A) : In x (skipn n l) -> In x l.
Proof. intros H. rewrite <- (firstn_skipn n l). apply in_or_app. now right. Qed.

Lemma newest_first_skipn (n : nat) (l : list Ticket.t) :
  newest_first l -> newest_first (skipn n l).
Proof.
  unfold newest_first. revert l. induction n as [| n IH]; intros l Hs; [exact Hs |].
  destruct l as [| x l]; [exact Hs |]. cbn. apply IH.
  now inversion Hs.
Qed.

Lemma newest_first_firstn (n : nat) (l : list Ticket.t) :
  newest_first l -> newest_first (firstn n l).
Proof.
  unfold newest_first. revert l. induction n as [| n IH]; intros l Hs; [constructor |].
  destruct l as [| x l]; [constructor |]. cbn.
  inversion Hs as [| ? ? Hs' Hall]; subst. constructor; [now apply IH |].
  rewrite Forall_forall in *. intros y Hy. apply Hall.
  now apply in_firstn in Hy.
Qed.

Lemma select_page_ok (env : Env) (where_ : list Sql.Cond) (l o : nat)
    (params : list Sql.Param) (st st' : Store) (rows : list Ticket.t) :
  Sql.select_page env where_ l o params st = (Ok rows, st') ->
  st' = st /\
  newest_first rows /\
  (forall t, In t rows -> In t (tickets st)) /\
  exists lim, Sql.int_param params l = Some lim /\ 0 <= lim /\
              Z.of_nat (List.length rows) <= lim.
Proof.
  unfold Sql.select_page.
  destruct (negb _); [discriminate |].
  destruct (Sql.bind_all env params where_) as [bs |]; [| discriminate].
  destruct (Sql.int_param params l) as [lim |]; [| discriminate].
  destruct (Sql.int_param params o) as [off |]; [| discriminate].
  destruct ((lim <? 0) || (off <? 0)) eqn:Hneg; [discriminate |].
  apply orb_false_iff in Hneg. destruct Hneg as [Hlim _].
  apply Z.ltb_ge in Hlim.
  unfold gets. intros H. injection H as Hrows Hst. subst rows st'.
  split; [reflexivity |]. split; [| split].
  - apply newest_first_firstn, newest_first_skipn, order_by_sorted.
  - intros t Ht. apply in_firstn, in_skipn in Ht.
    apply (Permutation_in _ (Permutation_sym (order_by_perm _))) in Ht.
    apply filter_In in Ht. tauto.
  - exists lim. split; [reflexivity |]. split; [exact Hlim |].
    rewrite length_firstn. lia.
Qed.

Lemma select_page_reads (env : Env) (where_ : list Sql.Cond) (l o : nat)
    (params : list Sql.Param) (st : Store) :
  snd (Sql.select_page env where_ l o params st) = st.
Proof.
  unfold Sql.select_page.
  destruct (negb _); [reflexivity |].
  destruct (Sql.bind_all env params where_); [| reflexivity].
  destruct (Sql.int_param params l); [| reflexivity].
  destruct (Sql.int_param params o); [| reflexivity].
  destruct (_ || _); reflexivity.
Qed.

Lemma select_count_reads (env : Env) (where_ : list Sql.Cond)
    (params : list Sql.Param) (st : Store) :
  snd (Sql.select_count env where_ params st) = st.
Proof.
  unfold Sql.select_count.
  destruct (negb _); [reflexivity |].
  destruct (Sql.bind_all env params where_); reflexivity.
Qed.

Lemma absent_or_set (o : option string) :
  absent o \/ exists v, o = Some v /\ v <> "".
Proof.
  destruct o as [v |]; [| left; now left].
  destruct (String.eqb v "") eqn:E.
  - apply String.eqb_eq in E. subst. left. now right.
  - apply String.eqb_neq in E. right. now exists v.
Qed.

(** X10.  Listing never modifies the store, whatever the request; and
    whenever it answers with a page, the rows of the page are stored tickets
    in order of creation, newest first, there are at most [limit] of them,
    and the page metadata repeats the requested page and limit (1 and 10
    when the query gives none, or gives 0). *)
Theorem getTickets_pages_are_ordered_and_bounded (env : Env)
    (q : TicketController.ListQuery) (st : Store) :
  snd (TicketController.getTickets env q st) = st /\
  forall c s m rows pg,
    fst (TicketController.getTickets env q st) = mkResponse c s m (TicketPage rows pg) ->
    newest_first rows /\
    (forall t, In t rows -> In t (tickets st)) /\
    Z.of_nat (List.length rows) <= TicketController.int_or (TicketController.q_limit q) 10 /\
    limit pg = TicketController.int_or (TicketController.q_limit q) 10 /\
    page pg = TicketController.int_or (TicketController.q_page q) 1.
Proof.
  destruct (TicketController.getTickets env q st) as [r sfin] eqn:Hout.
  cbn [fst snd].
  unfold TicketController.getTickets, handler, try_catch in Hout.
  unfold bind at 1 in Hout.
  set (b := TicketController.build_where (TicketController.q_filters q)) in *.
  set (lim := TicketController.int_or (TicketController.q_limit q) 10) in *.
  set (pge := TicketController.int_or (TicketController.q_page q) 1) in *.
  set (params := (TicketController.queryParams b ++
                  [Sql.PNum lim; Sql.PNum ((pge - 1) * lim)])%list) in *.
  destruct (Sql.select_page env (TicketController.whereConditions b)
              (TicketController.paramIndex b) (S (TicketController.paramIndex b))
              params st) as [[rows0 | e] s1] eqn:Hpage.
  2:{ assert (s1 = st) as ->.
      { pose proof (select_page_reads env (TicketController.whereConditions b)
                      (TicketController.paramIndex b)
                      (S (TicketController.paramIndex b)) params st) as Hr.
        now rewrite Hpage in Hr. }
      cbn in Hout. inversion Hout; subst.
      split; [reflexivity | intros; discriminate]. }
  destruct (select_page_ok _ _ _ _ _ _ _ _ Hpage)
    as (-> & Hsorted & Hin & lim' & Hlim' & Hpos & Hlen).
  assert (Hlim : lim' = lim).
  { destruct (absent_or_set (Ticket.f_search (TicketController.q_filters q)))
      as [Habs | (v & Hv & Hne)].
    - pose proof (in_step_before_search (TicketController.q_filters q)) as Hstep.
      rewrite <- (build_where_without_search _ Habs) in Hstep. fold b in Hstep.
      unfold in_step in Hstep. rewrite Hstep in Hlim'. unfold params in Hlim'.
      rewrite int_param_limit in Hlim'. congruence.
    - exfalso. unfold Sql.select_page in Hpage.
      rewrite placeholders_out_of_range in Hpage; [discriminate |].
      unfold b, params. rewrite (search_skips_two _ v Hv Hne), length_app. cbn. fold b. lia. }
  subst lim'.
  unfold bind at 1 in Hout.
  destruct (Sql.select_count env (TicketController.whereConditions b)
              (TicketController.drop_last_two params) st)
    as [[total0 | e] s2] eqn:Hcount.
  - assert (s2 = st) as ->.
    { pose proof (select_count_reads env (TicketController.whereConditions b)
                    (TicketController.drop_last_two params) st) as Hr.
      now rewrite Hcount in Hr. }
    cbn in Hout. inversion Hout; subst. split; [reflexivity |].
    intros c s m rows pg H. injection H as _ _ _ <- <-. cbn. auto.
  - assert (s2 = st) as ->.
    { pose proof (select_count_reads env (TicketController.whereConditions b)
                    (TicketController.drop_last_two params) st) as Hr.
      now rewrite Hcount in Hr. }
    cbn in Hout. inversion Hout; subst.
    split; [reflexivity | intros; discriminate].
Qed.

(** X11.  A negative limit, or a page number below 1 (which makes the
    offset negative), is not caught by the handler: the store rejects the
    statement and the request is answered 500, where the filters alone would
    have been accepted. *)
Theorem getTickets_rejects_negative_paging (env : Env)
    (q : TicketController.ListQuery) (st : Store) :
  let fl := TicketController.q_filters q in
  let page := TicketController.int_or (TicketController.q_page q) 1 in
  let limit := TicketController.int_or (TicketController.q_limit q) 10 in
  absent (Ticket.f_search fl) ->
  date_ok env (Ticket.f_date_from fl) ->
  date_ok env (Ticket.f_date_to fl) ->
  limit < 0 \/ (page - 1) * limit < 0 ->
  TicketController.getTickets env q st =
  (mkResponse 500 false "Failed to fetch tickets" NoData, st).
Proof.
  intros fl page limit Hsearch Hfrom Hto Hneg.
  destruct (built_before_search env fl Hfrom Hto) as (Hstep & Hrefs & Hbs).
  unfold TicketController.getTickets. fold fl page limit.
  rewrite (build_where_without_search _ Hsearch).
  set (b := TicketController.before_search fl) in *.
  set (n := List.length (TicketController.queryParams b)) in *.
  unfold in_step in Hstep. fold n in Hstep.
  destruct (Hbs [Sql.PNum limit; Sql.PNum ((page - 1) * limit)])
    as (bs & Hbind & Hsem).
  unfold handler, try_catch. unfold bind at 1.
  unfold Sql.select_page.
  rewrite Hstep, Hrefs, length_app. cbn [List.length]. fold n.
  replace (seq 1 n ++ [S n; S (S n)])%list with (seq 1 (n + 2)).
  2:{ replace (n + 2)%nat with (S (S n)) by lia. rewrite !seq_S.
      rewrite <- app_assoc. reflexivity. }
  rewrite placeholders_match_seq. cbn [negb].
  rewrite Hbind. unfold n at 1 2.
  rewrite int_param_limit, int_param_offset.
  replace ((limit <? 0) || ((page - 1) * limit <? 0)) with true.
  - reflexivity.
  - symmetry. apply orb_true_iff.
    destruct Hneg as [H | H]; [left | right]; now apply Z.ltb_lt.
Qed.

(** [GET /api/tickets?page=-1] *)
Lemma getTickets_rejects_negative_paging_witness :
  TicketController.getTickets ListExample.env
    (TicketController.mkListQuery (Some (-1)) None
       (Ticket.mkFilter None None None None None None None None None))
    ListExample.store =
  (mkResponse 500 false "Failed to fetch tickets" NoData, ListExample.store).
Proof.
  apply (getTickets_rejects_negative_paging ListExample.env
           (TicketController.mkListQuery (Some (-1)) None
              (Ticket.mkFilter None None None None None None None None None))
           ListExample.store).
  - left. reflexivity.
  - intros v Hv. discriminate Hv.
  - intros v Hv. discriminate Hv.
  - right. reflexivity.
Defined.

(** ** The e-mail webhook *)





(** ** The CRM webhook *)



(** ** The transaction webhook: validation *)



(** ** SyncStatus on an id the table does not have *)

(** X16.  SyncStatus on an id the table has no row for returns nothing and
    writes nothing, whether or not the status source knows the transaction.
    The INSERT it attempts names [completed_at] in its conflict clause without
    saying which row is meant and is refused, and the method's own [catch]
    turns that into [null].  A transaction reported only by the status source
    is therefore never recorded. *)
Theorem sync_of_an_unknown_id_records_nothing (env : Env)
    (transactionId : string) (st : Store) :
  (forall x, In x (transactions st) -> Transaction.transaction_id x <> transactionId) ->
  TransactionService.updateTransactionStatus env transactionId st = (Ok None, st).
Proof.
  intros Hnone. rewrite sync_run. unfold confirmed_row.
  assert (Hsel : filter (fun x => String.eqb (Transaction.transaction_id x) transactionId)
                        (transactions st) = []).
  { apply filter_none. intros x Hin. apply String.eqb_neq. now apply Hnone. }
  rewrite Hsel. now destruct (fetchTransactionStatus env transactionId).
Qed.

(** The source reports [tx_1] as successful; with an empty table the sync
    returns nothing and the table stays empty. *)
Lemma sync_of_an_unknown_id_records_nothing_witness :
  TransactionService.updateTransactionStatus (TxExample.env_at 50) "tx_1"
    MailExample.store = (Ok None, MailExample.store).
Proof.
  apply (sync_of_an_unknown_id_records_nothing (TxExample.env_at 50) "tx_1"
           MailExample.store).
  intros x [].
Defined.

(** ** The transactions the scheduler polls *)

Lemma insert_asc_perm (x : Transaction.t) (l : list Transaction.t) :
  Permutation (x :: l) (TransactionService.insert_asc x l).
Proof.
  induction l as [| y l IH]; cbn; [reflexivity |].
  destruct (Transaction.updated_at x <=? Transaction.updated_at y); [reflexivity |].
  rewrite perm_swap. now apply perm_skip.
Qed.

Lemma order_by_updated_at_perm (l : list Transaction.t) :
  Permutation l (TransactionService.order_by_updated_at_asc l).
Proof.
  induction l as [| x l IH]; cbn; [constructor |].
  rewrite <- insert_asc_perm. now apply perm_skip.
Qed.

Lemma insert_asc_sorted (x : Transaction.t) (l : list Transaction.t) :
  oldest_first l -> oldest_first (TransactionService.insert_asc x l).
Proof.
  unfold oldest_first. induction l as [| y l IH]; intros Hs; cbn.
  - repeat constructor.
  - inversion Hs as [| ? ? Hs' Hall]; subst.
    destruct (Transaction.updated_at x <=? Transaction.updated_at y) eqn:Hle.
    + apply Z.leb_le in Hle. constructor; [exact Hs |].
      constructor; [lia |].
      eapply Forall_impl; [| exact Hall]. cbn. intros; lia.
    + apply Z.leb_gt in Hle. constructor; [now apply IH |].
      apply (Permutation_Forall (insert_asc_perm x l)).
      constructor; [lia | exact Hall].
Qed.

Lemma order_by_updated_at_sorted (l : list Transaction.t) :
  oldest_first (TransactionService.order_by_updated_at_asc l).
Proof.
  induction l as [| x l IH]; cbn; [constructor |].
  now apply insert_asc_sorted.
Qed.

Lemma in_pending (env : Env) (st : Store) (id_ : string) :
  In id_ (map Transaction.transaction_id
            (firstn 50 (TransactionService.order_by_updated_at_asc
                          (filter (stale env) (transactions st))))) ->
  exists x, In x (transactions st) /\ Transaction.transaction_id x = id_ /\
            stale env x = true.
Proof.
  intros H. apply in_map_iff in H. destruct H as (x & Hid & Hin).
  apply in_firstn in Hin.
  apply (Permutation_in _ (Permutation_sym (order_by_updated_at_perm _))) in Hin.
  apply filter_In in Hin. exists x. tauto.
Qed.

(** X17.  The list of transactions to poll is read without changing the
    store.  It holds at most 50 ids, each the id of a stored transaction that
    is in flight ([initiated], [pending] or [processing]) and was last
    updated more than five minutes ago; when no more than 50 rows qualify it
    holds all of them.  With unique transaction ids, a transaction in a
    terminal status is never on the list. *)
Theorem getPendingTransactions_lists_stale_in_flight (env : Env) (st : Store) :
  exists ids,
    TransactionService.getPendingTransactions env st = (Ok ids, st) /\
    (List.length ids <= 50)%nat /\
    (forall id_, In id_ ids ->
       exists x, In x (transactions st) /\ Transaction.transaction_id x = id_ /\
                 TransactionService.in_flight (Transaction.status x) = true /\
                 Transaction.updated_at x < now env - 5 * 60 * 1000) /\
    ((List.length (filter (stale env) (transactions st)) <= 50)%nat ->
     forall x, In x (transactions st) -> stale env x = true ->
               In (Transaction.transaction_id x) ids) /\
    (NoDup (map Transaction.transaction_id (transactions st)) ->
     forall x, In x (transactions st) ->
               Transaction.terminal (Transaction.status x) = true ->
               ~ In (Transaction.transaction_id x) ids).
Proof.
  eexists. split; [apply getPendingTransactions_run |].
  split; [| split; [| split]].
  - rewrite length_map, length_firstn. lia.
  - intros id_ Hin. apply in_pending in Hin.
    destruct Hin as (x & Hin & Hid & Hstale).
    exists x. unfold stale in Hstale. apply andb_true_iff in Hstale.
    destruct Hstale as [Hfl Hold]. apply Z.ltb_lt in Hold.
    unfold TransactionService.minutes_5 in Hold. auto.
  - intros Hfew x Hin Hstale. apply in_map.
    rewrite firstn_all2.
    + apply (Permutation_in _ (order_by_updated_at_perm _)).
      apply filter_In. auto.
    + rewrite <- (Permutation_length (order_by_updated_at_perm _)). exact Hfew.
  - intros Hnd x Hin Hterm Hlisted. apply in_pending in Hlisted.
    destruct Hlisted as (y & Hy & Hid & Hstale).
    assert (y = x).
    { pose proof (unique_transaction_id _ x Hnd Hin) as Hu.
      assert (Hyf : In y (filter (fun z => String.eqb (Transaction.transaction_id z)
                                                      (Transaction.transaction_id x))
                                 (transactions st))).
      { apply filter_In. split; [exact Hy |]. now apply String.eqb_eq. }
      rewrite Hu in Hyf. destruct Hyf as [<- | []]. reflexivity. }
    subst y. unfold stale in Hstale. apply andb_true_iff in Hstale.
    destruct Hstale as [Hfl _].
    destruct (Transaction.status x); discriminate.
Qed.

(** ** The polling job *)

(** X18.  The polling job adds and removes no transaction and never touches
    a ticket.  With unique transaction ids, every transaction that is in a
    terminal status, or was updated within the last five minutes, is after
    the job exactly as it was before. *)
Theorem polling_job_leaves_settled_transactions_alone (env : Env) (st : Store) :
  let st' := snd (CronService.updateTransactionStatuses env st) in
  map Transaction.transaction_id (transactions st') =
  map Transaction.transaction_id (transactions st) /\
  tickets st' = tickets st /\
  (NoDup (map Transaction.transaction_id (transactions st)) ->
   forall x, In x (transactions st) -> stale env x = false ->
             In x (transactions st')).
Proof.
  cbv zeta. rewrite polling_job_run. cbn [snd]. auto.
Qed.

(** A terminal transaction and one that is waiting: the job polls the second
    and leaves the first as it is. *)
Lemma polling_job_leaves_settled_transactions_alone_witness :
  In TxExample.paid
     (transactions (snd (CronService.updateTransactionStatuses
                           (TxExample.env_later 1000000) TxExample.store))).
Proof.
  destruct (polling_job_leaves_settled_transactions_alone
              (TxExample.env_later 1000000) TxExample.store) as (_ & _ & Hkeep).
  apply Hkeep.
  - repeat constructor; cbn; intuition discriminate.
  - now left.
  - reflexivity.
Defined.

(** X19.  The polling job leaves the whole store as it was, whatever is on
    its list and whatever the status source reports: SyncStatus writes
    nothing, and the notification that follows for every row it returns ends
    in its own [catch].  In particular a waiting transaction that the source
    reports as failed is still waiting after the job, with no audit row and no
    e-mail. *)
Theorem polling_job_changes_nothing (env : Env) (st : Store) :
  CronService.updateTransactionStatuses env st = (tt, st) /\
  forall ids,
    fst (TransactionService.getPendingTransactions env st) = Ok ids ->
    forall id_, In id_ ids ->
      exists x, In x (transactions (snd (CronService.updateTransactionStatuses env st))) /\
                Transaction.transaction_id x = id_ /\ stale env x = true.
Proof.
  split; [apply polling_job_run |].
  intros ids Hids id_ Hin. rewrite polling_job_run. cbn [snd].
  rewrite getPendingTransactions_run in Hids. cbn [fst] in Hids.
  injection Hids as <-. now apply in_pending.
Qed.

(** ** Creating a transaction *)

Section CreateTransaction.

Variables (env : Env) (d : TransactionService.TransactionCreationData) (st : Store).

(** X20.  A creation request without a transaction id, without a payer
    e-mail address, or without an amount is answered 400 and nothing is
    written; an amount of 0 counts as missing. *)
Theorem createTransaction_requires_id_payer_and_amount :
  absent (TransactionService.c_transaction_id d) \/
  absent (TransactionService.c_payer_email d) \/
  TransactionService.c_amount d = None \/ TransactionService.c_amount d = Some 0 ->
  TransactionController.createTransaction env d st =
  (mkResponse 400 false "Transaction ID, payer email, and amount are required" NoData,
   st).
Proof.
  intros H. unfold TransactionController.createTransaction, handler, try_catch.
  assert (E : negb (TransactionController.truthy_text
                      (TransactionService.c_transaction_id d)) ||
              negb (TransactionController.truthy_text
                      (TransactionService.c_payer_email d)) ||
              negb (TransactionController.truthy_number
                      (TransactionService.c_amount d)) = true).
  { destruct H as [[-> | ->] | [[-> | ->] | [-> | ->]]]; cbn;
      rewrite ?orb_true_r; reflexivity. }
  rewrite E. reflexivity.
Qed.

Variables (tid payer : string) (amt : Z).
Hypothesis Htid : TransactionService.c_transaction_id d = Some tid.
Hypothesis Htid_ne : tid <> "".
Hypothesis Hpayer : TransactionService.c_payer_email d = Some payer.
Hypothesis Hpayer_ne : payer <> "".
Hypothesis Hamt : TransactionService.c_amount d = Some amt.
Hypothesis Hamt_ne : amt <> 0.

Lemma createTransaction_validated :
  negb (TransactionController.truthy_text (TransactionService.c_transaction_id d)) ||
  negb (TransactionController.truthy_text (TransactionService.c_payer_email d)) ||
  negb (TransactionController.truthy_number (TransactionService.c_amount d)) = false.
Proof.
  rewrite Htid, Hpayer, Hamt. cbn. unfold Util.truthy_string.
  apply String.eqb_neq in Htid_ne, Hpayer_ne. apply Z.eqb_neq in Hamt_ne.
  now rewrite Htid_ne, Hpayer_ne, Hamt_ne.
Qed.

(** X21.  A request that passes the validation is still refused by the
    table when it names no merchant e-mail address, which the validation does
    not ask for, or when a transaction with its id exists.  The answer is 500;
    no transaction, audit row or e-mail is written and no event is emitted. *)
Theorem createTransaction_refused_by_the_table :
  TransactionService.c_merchant_email d = None \/
  (exists x, In x (transactions st) /\ Transaction.transaction_id x = tid) ->
  let out := TransactionController.createTransaction env d st in
  fst out = mkResponse 500 false "Failed to create transaction" NoData /\
  transactions (snd out) = transactions st /\
  status_updates (snd out) = status_updates st /\
  email_logs (snd out) = email_logs st /\
  emitted (snd out) = emitted st.
Proof.
  intros H.
  assert (Hins : exists msg,
             TransactionService.insert_transaction env d st =
             (Throw msg,
              set_transactions (transactions st) (transactions_id_seq st + 1) st)).
  { unfold TransactionService.insert_transaction. rewrite Htid, Hpayer, Hamt.
    destruct H as [-> | (x & Hin & Hx)]; [eexists; reflexivity |].
    destruct (TransactionService.c_merchant_email d); [| eexists; reflexivity].
    destruct (negb (_ && _)); [eexists; reflexivity |].
    destruct (negb (decimal_10_2 amt)); [eexists; reflexivity |].
    assert (E : existsb (fun y => String.eqb (Transaction.transaction_id y) tid)
                        (transactions st) = true).
    { apply existsb_exists. exists x. split; [exact Hin |]. now apply String.eqb_eq. }
    rewrite E. eexists; reflexivity. }
  destruct Hins as (msg & Hins).
  assert (Hout : TransactionController.createTransaction env d st =
                 (mkResponse 500 false "Failed to create transaction" NoData,
                  set_transactions (transactions st) (transactions_id_seq st + 1) st)).
  { unfold TransactionController.createTransaction, handler, try_catch.
    rewrite createTransaction_validated.
    unfold bind at 1. unfold TransactionService.createTransaction, try_catch.
    unfold bind at 1. rewrite Hins. reflexivity. }
  cbv zeta. rewrite Hout. cbn. auto.
Qed.


End CreateTransaction.

(** An amount of 0. *)
Lemma createTransaction_requires_id_payer_and_amount_witness :
  TransactionController.createTransaction (TxExample.env_at 50)
    (TxCreateExample.request "tx_9" (Some "m@example.com") (Some 0) None)
    TxExample.store =
  (mkResponse 400 false "Transaction ID, payer email, and amount are required" NoData,
   TxExample.store).
Proof.
  apply createTransaction_requires_id_payer_and_amount.
  right. right. right. reflexivity.
Defined.

(** A request without merchant address, and one that repeats the id of a
    stored transaction. *)
Lemma createTransaction_refused_by_the_table_witness :
  fst (TransactionController.createTransaction (TxExample.env_at 50)
         (TxCreateExample.request "tx_9" None (Some 100) None) TxExample.store) =
  mkResponse 500 false "Failed to create transaction" NoData /\
  transactions
    (snd (TransactionController.createTransaction (TxExample.env_at 50)
            (TxCreateExample.request "tx_1" (Some "m@example.com") (Some 100) None)
            TxExample.store)) =
  [TxExample.paid; TxExample.waiting].
Proof.
  split.
  - apply (createTransaction_refused_by_the_table (TxExample.env_at 50)
             (TxCreateExample.request "tx_9" None (Some 100) None) TxExample.store
             "tx_9" "payer@example.com" 100);
      try reflexivity; try discriminate.
    left. reflexivity.
  - apply (createTransaction_refused_by_the_table (TxExample.env_at 50)
             (TxCreateExample.request "tx_1" (Some "m@example.com") (Some 100) None)
             TxExample.store "tx_1" "payer@example.com" 100);
      try reflexivity; try discriminate.
    right. exists TxExample.paid. split; [now left | reflexivity].
Defined.


(** ** The WhatsApp verification request *)

(** X23.  The verification request is answered 200 with the challenge
    exactly when [hub.mode] is [subscribe], [hub.verify_token] equals the
    configured token, and the challenge is a non-empty text; every other
    request is answered 403.  Equality of tokens includes the case where no
    token is configured and the request carries none. *)
Theorem verifyWhatsAppWebhook_accepts_exactly (verifyToken : option string)
    (query : list (string * string)) (c : string) :
  WebhookController.verifyWhatsAppWebhook verifyToken query = (200, c) <->
  WebhookController.header "hub.mode" query = Some "subscribe" /\
  WebhookController.header "hub.verify_token" query = verifyToken /\
  WebhookController.header "hub.challenge" query = Some c /\ c <> "".
Proof.
  unfold WebhookController.verifyWhatsAppWebhook, WhatsAppService.verifyWebhook.
  destruct (WebhookController.header "hub.mode" query) as [m |].
  2:{ split; [discriminate | intros (H & _); discriminate]. }
  destruct (String.eqb m "subscribe") eqn:Hm.
  2:{ cbn [andb]. split; [discriminate |].
      intros (H & _). injection H as ->. discriminate. }
  apply String.eqb_eq in Hm. subst m. cbn [andb].
  assert (Htok : match WebhookController.header "hub.verify_token" query, verifyToken with
                 | Some a, Some b => String.eqb a b
                 | None, None => true
                 | _, _ => false
                 end = true <->
                 WebhookController.header "hub.verify_token" query = verifyToken).
  { destruct (WebhookController.header "hub.verify_token" query) as [a |],
             verifyToken as [b |]; split; try discriminate; try reflexivity.
    - intros H. apply String.eqb_eq in H. now subst.
    - intros H. injection H as ->. apply String.eqb_refl. }
  destruct (match WebhookController.header "hub.verify_token" query, verifyToken with
            | Some a, Some b => String.eqb a b
            | None, None => true
            | _, _ => false
            end).
  2:{ split; [discriminate |]. intros (_ & H & _). apply Htok in H. discriminate. }
  destruct (WebhookController.header "hub.challenge" query) as [ch |].
  2:{ split; [discriminate | intros (_ & _ & H & _); discriminate]. }
  unfold Util.truthy_string. destruct (String.eqb ch "") eqn:Hch; cbn [negb].
  - split; [discriminate |]. intros (_ & _ & H & Hne). injection H as ->.
    apply String.eqb_eq in Hch. contradiction.
  - apply String.eqb_neq in Hch. split.
    + intros H. injection H as ->. repeat split; auto. now apply Htok.
    + intros (_ & _ & H & _). injection H as ->. reflexivity.
Qed.

(** ** The keys of the two tables *)

Create HintDb keeps.

Lemma keys_ok_tables (s s' : Store) : tables s' = tables s -> keys_ok s -> keys_ok s'.
Proof.
  unfold tables, keys_ok. intros H. injection H as -> -> -> ->. auto.
Qed.

Lemma keeps_of_preserves {B} (m : M B) : Preserves tables m -> Keeps m.
Proof. intros H s. apply keys_ok_tables, H. Qed.

Lemma keeps_ret {B} (b : B) : Keeps (ret b).
Proof. intros s H. exact H. Qed.

Lemma keeps_throw {B} (e : string) : Keeps (@throw B e).
Proof. intros s H. exact H. Qed.

Lemma keeps_gets {B} (f : Store -> B) : Keeps (gets f).
Proof. intros s H. exact H. Qed.

Lemma keeps_bind {B C} (m : M B) (k : B -> M C) :
  Keeps m -> (forall b, Keeps (k b)) -> Keeps (bind m k).
Proof.
  intros Hm Hk s Hs. unfold bind.
  specialize (Hm s Hs). destruct (m s) as [[b | e] s1]; cbn in *.
  - now apply Hk.
  - exact Hm.
Qed.

Lemma keeps_try_catch {B} (m : M B) (h : string -> M B) :
  Keeps m -> (forall e, Keeps (h e)) -> Keeps (try_catch m h).
Proof.
  intros Hm Hh s Hs. unfold try_catch.
  specialize (Hm s Hs). destruct (m s) as [[b | e] s1]; cbn in *.
  - exact Hm.
  - now apply Hh.
Qed.

Lemma safe_handler {B} (body : M B) (on_error : string -> M B) (fallback : B) :
  Keeps body -> (forall e, Keeps (on_error e)) -> Safe (handler body on_error fallback).
Proof.
  intros Hb Hh s Hs. unfold handler.
  pose proof (keeps_try_catch body on_error Hb Hh s Hs) as H.
  destruct (try_catch body on_error s) as [[r | e] s']; exact H.
Qed.

Section Keys.

Context {R K : Type} (key : R -> K).

Lemma map_update_key (hit : R -> bool) (f : R -> R) (l : list R) :
  (forall x, key (f x) = key x) ->
  map key (map (fun x => if hit x then f x else x) l) = map key l.
Proof.
  intros Hf. rewrite map_map. apply map_ext. intros x.
  destruct (hit x); [apply Hf | reflexivity].
Qed.

Lemma NoDup_append_key (l : list R) (row : R) :
  NoDup (map key l) -> ~ In (key row) (map key l) ->
  NoDup (map key (l ++ [row])).
Proof.
  intros Hnd Hnew. rewrite map_app. cbn.
  apply (Permutation_NoDup (Permutation_cons_append (map key l) (key row))).
  now constructor.
Qed.

End Keys.

Lemma below_not_in (q : Z) (l : list Z) : Forall (fun i => i < q) l -> ~ In q l.
Proof.
  intros H Hin. rewrite Forall_forall in H. specialize (H q Hin). lia.
Qed.

Lemma below_next (q : Z) (l : list Z) :
  Forall (fun i => i < q) l -> Forall (fun i => i < q + 1) (l ++ [q]).
Proof.
  intros H. apply Forall_app. split.
  - eapply Forall_impl; [| exact H]. cbn. intros; lia.
  - repeat constructor. lia.
Qed.

Lemma below_later (q : Z) (l : list Z) :
  Forall (fun i => i < q) l -> Forall (fun i => i < q + 1) l.
Proof. intros H. eapply Forall_impl; [| exact H]. cbn. intros; lia. Qed.

Lemma existsb_key_false {R} (key : R -> string) (k : string) (l : list R) :
  existsb (fun x => String.eqb (key x) k) l = false -> ~ In k (map key l).
Proof.
  intros H Hin. apply in_map_iff in Hin. destruct Hin as (x & Hx & Hin).
  assert (E : existsb (fun y => String.eqb (key y) k) l = true).
  { apply existsb_exists. exists x. split; [exact Hin |]. now apply String.eqb_eq. }
  congruence.
Qed.

(** *** What does not write to the two tables *)

Lemma keeps_sendEmail (env : Env) (d : EmailService.EmailData) :
  Keeps (EmailService.sendEmail env d).
Proof.
  apply keeps_of_preserves. intros s.
  destruct (sendEmail_spec env d s) as (b & e & Hrun & _). now rewrite Hrun.
Qed.

Lemma keeps_sendMessage (env : Env) (m : WhatsAppService.WhatsAppMessage) :
  Keeps (WhatsAppService.sendMessage env m).
Proof.
  apply keeps_of_preserves. intros s.
  destruct (sendMessage_spec env m s) as (b & r & Hrun). now rewrite Hrun.
Qed.

Lemma keeps_insert_status_update (env : Env) ty id_ old new reason by_ :
  Keeps (insert_status_update env ty id_ old new reason by_).
Proof.
  apply keeps_of_preserves. intros s. unfold insert_status_update.
  destruct (varchar_opt 255 by_); reflexivity.
Qed.

Lemma keeps_emit (e : Event) : Keeps (emit e).
Proof. apply keeps_of_preserves. intros s. reflexivity. Qed.

Lemma keeps_logWebhook (env : Env) source eventType payload status errorMessage :
  Keeps (WebhookController.logWebhook env source eventType payload status errorMessage).
Proof.
  apply keeps_of_preserves. intros s.
  unfold WebhookController.logWebhook, try_catch, WebhookController.insert_webhook_log.
  destruct (negb _); [reflexivity |].
  destruct (WebhookLog.status_check status); reflexivity.
Qed.

Lemma keeps_whatsapp_handleWebhook (env : Env) (webhookData : JSON.value) :
  Keeps (WhatsAppService.handleWebhook env webhookData).
Proof. apply keeps_of_preserves. intros s. reflexivity. Qed.

Lemma keeps_sendTransactionNotifications (env : Env) (x : Transaction.t) :
  Keeps (sendTransactionNotifications env x).
Proof.
  intros s Hs. now rewrite sendTransactionNotifications_run.
Qed.

Lemma keeps_sendStatusNotifications (env : Env) ticket newStatus resolution :
  Keeps (TicketController.sendStatusNotifications env ticket newStatus resolution).
Proof.
  apply keeps_of_preserves. intros s.
  destruct (sendStatusNotifications_frame env ticket newStatus resolution s)
    as (s' & Hrun & Htk & Hseq & Htx & Htxs & _).
  rewrite Hrun. unfold tables. cbn [snd]. congruence.
Qed.

Lemma keeps_select_page (env : Env) where_ l o params :
  Keeps (Sql.select_page env where_ l o params).
Proof. intros s Hs. now rewrite select_page_reads. Qed.

Lemma keeps_select_count (env : Env) where_ params :
  Keeps (Sql.select_count env where_ params).
Proof. intros s Hs. now rewrite select_count_reads. Qed.

(** *** The statements that write to [tickets] *)

Lemma keeps_insert_ticket (env : Env) number customer merchant subject_ description_
    priority_ transaction tags_ metadata_ :
  Keeps (TicketController.insert_ticket env number customer merchant subject_
           description_ priority_ transaction tags_ metadata_).
Proof.
  intros s (Hid & Hnum & Hseq & Htx).
  assert (Hrefused : keys_ok (set_tickets (tickets s) (tickets_id_seq s + 1) s)).
  { unfold keys_ok. cbn. repeat split; try tauto. now apply below_later. }
  unfold TicketController.insert_ticket.
  destruct (negb _); [exact Hrefused |].
  destruct (existsb _ (tickets s)) eqn:Hex; [exact Hrefused |].
  apply existsb_key_false in Hex.
  unfold keys_ok. cbn.
  split; [| split; [| split; [| exact Htx]]].
  - apply NoDup_append_key; [exact Hid |]. now apply below_not_in.
  - apply NoDup_append_key; [exact Hnum | exact Hex].
  - rewrite map_app. now apply below_next.
Qed.

Lemma keeps_update_ticket (f : Ticket.t -> Ticket.t) (id_ : Z) :
  (forall x, Ticket.id (f x) = Ticket.id x) ->
  (forall x, Ticket.ticket_number (f x) = Ticket.ticket_number x) ->
  Keeps (TicketController.update_by_id f id_).
Proof.
  intros Hfid Hfnum s Hs. unfold TicketController.update_by_id, keys_ok in *.
  cbn. rewrite (map_update_key Ticket.id _ f _ Hfid),
               (map_update_key Ticket.ticket_number _ f _ Hfnum).
  exact Hs.
Qed.

Lemma keeps_route_id (id_ : Z) : Keeps (TicketController.route_id id_).
Proof.
  unfold TicketController.route_id. destruct (int4 id_); [apply keeps_ret | apply keeps_throw].
Qed.

Lemma keeps_update_fields (env : Env) (updateData : Ticket.TicketUpdateData)
    (currentTicket : Ticket.t) (id_ : Z) :
  Keeps (TicketController.update_fields env updateData currentTicket id_).
Proof.
  unfold TicketController.update_fields.
  apply keeps_bind; [apply keeps_route_id |]. intros n.
  destruct (varchar_opt 255 _); [| apply keeps_throw].
  apply keeps_update_ticket; reflexivity.
Qed.

(** *** The statements on [transactions] *)

Lemma keeps_select_transaction (id_ : string) :
  Keeps (TransactionController.select_by_id_or_transaction_id id_).
Proof. intros s Hs. exact Hs. Qed.

Lemma keeps_update_by_transaction_id (env : Env) status gw transactionId :
  Keeps (TransactionService.update_by_transaction_id env status gw transactionId).
Proof. intros s Hs. exact Hs. Qed.

Lemma keeps_update_transaction (env : Env) (st : Transaction.Status) (id_ : Z) :
  Keeps (TransactionController.update_by_id env st id_).
Proof. intros s Hs. exact Hs. Qed.

Lemma keeps_upsert (env : Env) (r : Transaction.TransactionStatusResponse) :
  Keeps (TransactionService.upsert env r).
Proof. intros s Hs. exact Hs. Qed.

Lemma keeps_insert_transaction (env : Env)
    (d : TransactionService.TransactionCreationData) :
  Keeps (TransactionService.insert_transaction env d).
Proof.
  intros s Hs.
  assert (Hrefused : keys_ok (set_transactions (transactions s)
                                (transactions_id_seq s + 1) s)).
  { destruct Hs as (Htk1 & Htk2 & Htk3 & Hid & Htid & Hseq).
    unfold keys_ok. cbn. repeat split; auto. now apply below_later. }
  unfold TransactionService.insert_transaction.
  destruct (TransactionService.c_transaction_id d) as [tid |]; [| exact Hrefused].
  destruct (TransactionService.c_payer_email d) as [payer |]; [| exact Hrefused].
  destruct (TransactionService.c_merchant_email d) as [merchant |]; [| exact Hrefused].
  destruct (TransactionService.c_amount d) as [amt |]; [| exact Hrefused].
  destruct (negb (_ && _)); [exact Hrefused |].
  destruct (negb (decimal_10_2 amt)); [exact Hrefused |].
  destruct (existsb _ (transactions s)) eqn:Hex; [exact Hrefused |].
  apply existsb_key_false in Hex.
  destruct Hs as (Htk1 & Htk2 & Htk3 & Hid & Htid & Hseq).
  unfold keys_ok. cbn. repeat split; auto.
  - apply NoDup_append_key; [exact Hid |]. now apply below_not_in.
  - apply NoDup_append_key; [exact Htid | exact Hex].
  - rewrite map_app. now apply below_next.
Qed.

#[local] Hint Resolve keeps_sendEmail keeps_sendMessage keeps_insert_status_update
  keeps_emit keeps_logWebhook keeps_whatsapp_handleWebhook
  keeps_sendTransactionNotifications keeps_sendStatusNotifications
  keeps_select_page keeps_select_count keeps_insert_ticket keeps_route_id
  keeps_update_fields keeps_select_transaction
  keeps_update_by_transaction_id keeps_update_transaction keeps_upsert
  keeps_insert_transaction : keeps.

(** Follows a computation along its binds, handlers and case distinctions
    down to the statements above. *)
Ltac keeps :=
  repeat first
    [ solve [auto with keeps]
    | apply keeps_ret | apply keeps_throw | apply keeps_gets
    | apply keeps_bind; [| intros ?]
    | apply keeps_try_catch; [| intros ?]
    | progress cbv zeta
    | match goal with
      | |- Keeps (match ?x with _ => _ end) => destruct x
      end ].

(** *** SyncStatus, the loops and the handlers *)

Lemma keeps_sync (env : Env) (transactionId : string) :
  Keeps (TransactionService.updateTransactionStatus env transactionId).
Proof.
  unfold TransactionService.updateTransactionStatus,
    TransactionService.select_by_transaction_id, first_row.
  keeps.
Qed.

Lemma keeps_batch_loop (env : Env) (ids : list string) :
  forall acc, Keeps (TransactionService.batch_loop env ids acc).
Proof.
  induction ids as [| id_ rest IH]; intros acc; cbn [TransactionService.batch_loop].
  - apply keeps_ret.
  - apply keeps_bind; [| intros ?; apply IH].
    unfold TransactionService.batch_step.
    pose proof (keeps_sync env id_). keeps.
Qed.

Lemma keeps_notify_all (env : Env) (l : list Transaction.t) :
  Keeps (TransactionController.notify_all env l).
Proof.
  induction l as [| x l IH]; cbn [TransactionController.notify_all]; keeps.
Qed.

Lemma keeps_batches (env : Env) (rounds : nat) :
  forall ids, Keeps (CronService.batches env rounds ids).
Proof.
  intros ids s Hs. now rewrite batches_run.
Qed.

Lemma keeps_close_all (env : Env) (l : list Ticket.t) :
  Keeps (CronService.close_all env l).
Proof.
  induction l as [| x l IH]; cbn [CronService.close_all]; [apply keeps_ret |].
  apply keeps_bind; [now apply keeps_update_ticket |].
  intros ?. apply keeps_bind; [apply keeps_insert_status_update |].
  intros ?. exact IH.
Qed.

Lemma keeps_processIncomingEmail (env : Env) (emailData : JSON.value) :
  Keeps (TicketController.processIncomingEmail env emailData).
Proof.
  unfold TicketController.processIncomingEmail, first_row. keeps.
Qed.

#[local] Hint Resolve keeps_sync keeps_batch_loop keeps_notify_all keeps_batches
  keeps_close_all keeps_processIncomingEmail : keeps.

(** X24.  Every endpoint, webhook handler and scheduled job keeps the keys
    of the two tables in order: started in a store where ticket ids, ticket
    numbers, transaction ids and external transaction ids are unique and
    below their sequences, it ends in such a store, whatever the request and
    whether it succeeds or fails.  No update changes a key column, and every
    insert takes a fresh sequence value and is refused on a number or external
    id that is taken. *)
Theorem every_operation_keeps_the_keys (env : Env) :
  (forall d, Safe (TicketController.createTicket env d)) /\
  (forall q, Safe (TicketController.getTickets env q)) /\
  (forall i u, Safe (TicketController.updateTicket env i u)) /\
  (forall i, Safe (TicketController.deleteTicket env i)) /\
  (forall d, Safe (TransactionController.createTransaction env d)) /\
  (forall r, Safe (TransactionController.updateTransactionStatus env r)) /\
  (forall i, Safe (TransactionController.refreshTransactionStatus env i)) /\
  (forall ids, Safe (TransactionController.batchUpdateTransactions env ids)) /\
  (forall r, Safe (WebhookController.handleWhatsAppWebhook env r)) /\
  (forall r, Safe (WebhookController.handleEmailWebhook env r)) /\
  (forall r, Safe (WebhookController.handleTransactionWebhook env r)) /\
  (forall r, Safe (WebhookController.handleCRMWebhook env r)) /\
  Safe (CronService.autoCloseResolvedTickets env) /\
  Safe (CronService.updateTransactionStatuses env).
Proof.
  repeat match goal with |- _ /\ _ => split end; intros; apply safe_handler; intros.
  - (* createTicket *)
    unfold first_row, WhatsAppService.sendTrackingLink. keeps.
  - keeps.
  - (* getTickets *) keeps.
  - keeps.
  - (* updateTicket *)
    unfold TicketController.select_by_id, first_row. keeps.
  - keeps.
  - (* deleteTicket *)
    apply keeps_bind; [apply keeps_route_id |]. intros ?.
    apply keeps_bind; [now apply keeps_update_ticket |]. intros ?. keeps.
  - keeps.
  - (* createTransaction *)
    unfold TransactionService.createTransaction. keeps.
  - keeps.
  - (* manual update *)
    unfold first_row. keeps.
  - keeps.
  - (* refresh *) keeps.
  - keeps.
  - (* batch endpoint *)
    unfold TransactionService.batchUpdateTransactions. keeps.
  - keeps.
  - (* WhatsApp webhook *) keeps.
  - keeps.
  - (* e-mail webhook *) keeps.
  - keeps.
  - (* transaction webhook *) keeps.
  - keeps.
  - (* CRM webhook *) keeps.
  - keeps.
  - (* auto-close *)
    unfold CronService.select_tickets_to_close. keeps.
  - keeps.
  - (* polling job *)
    unfold TransactionService.getPendingTransactions. keeps.
  - keeps.
Qed.

(** Started from the two stored transactions, a creation request ends in a
    store whose keys are in order. *)
Lemma every_operation_keeps_the_keys_witness :
  keys_ok (snd (TransactionController.createTransaction (TxExample.env_at 50)
                  (TxCreateExample.request "tx_9" (Some "m@example.com") (Some 100) None)
                  TxExample.store)).
Proof.
  destruct (every_operation_keeps_the_keys (TxExample.env_at 50))
    as (_ & _ & _ & _ & Hcreate & _).
  apply Hcreate.
  unfold keys_ok. cbn.
  repeat split; repeat constructor; cbn; try lia; intuition discriminate.
Defined.

(** ** What an update of a ticket leaves alone, and whom it tells *)

Lemma sendStatusNotifications_mail (env : Env) (ticket : Ticket.t)
    (newStatus : Ticket.Status) (resolution : option string) (s : Store) :
  exists es s',
    TicketController.sendStatusNotifications env ticket newStatus resolution s
    = (Ok tt, s') /\
    email_logs s' = (email_logs s ++ es)%list /\
    (if closure_mail_due newStatus resolution
     then exists e, es = [e] /\
                    EmailLog.recipient_email e = Ticket.customer_email ticket /\
                    EmailLog.email_type e = "closure"
     else es = []) /\
    emitted s' = emitted s.
Proof.
  unfold TicketController.sendStatusNotifications, try_catch.
  unfold bind at 1.
  assert (Hfirst : exists es s1,
            (match newStatus, Util.or_null resolution with
             | Ticket.resolved, Some _ =>
                 _ <- EmailService.sendEmail env
                        (EmailService.mkEmailData (Ticket.customer_email ticket)
                           (Some (Ticket.id ticket)) None "closure") ;;
                 ret tt
             | _, _ => ret tt
             end) s = (Ok tt, s1) /\
            email_logs s1 = (email_logs s ++ es)%list /\
            (if closure_mail_due newStatus resolution
             then exists e, es = [e] /\
                            EmailLog.recipient_email e = Ticket.customer_email ticket /\
                            EmailLog.email_type e = "closure"
             else es = []) /\
            emitted s1 = emitted s).
  { unfold closure_mail_due.
    destruct newStatus, (Util.or_null resolution);
      try solve [exists [], s; cbn; rewrite app_nil_r; repeat split].
    unfold bind.
    destruct (sendEmail_spec env
                (EmailService.mkEmailData (Ticket.customer_email ticket)
                   (Some (Ticket.id ticket)) None "closure") s)
      as (b & e & Hrun & Hto & Hty & _).
    rewrite Hrun. exists [e]. eexists. split; [reflexivity |]. cbn.
    repeat split. exists e. auto. }
  destruct Hfirst as (es & s1 & Hrun & Hel & Hes & Hem). rewrite Hrun.
  destruct (JSON.get "phone" (Ticket.metadata ticket)) as [ph |];
    [destruct (JSON.truthy ph) |];
    try (exists es, s1; repeat split; assumption).
  unfold WhatsAppService.sendStatusUpdate, bind.
  match goal with
  | |- context [WhatsAppService.sendMessage env ?m s1] =>
      destruct (sendMessage_spec env m s1) as (b & r & Hm); rewrite Hm
  end.
  exists es. eexists. split; [reflexivity |]. cbn. repeat split; assumption.
Qed.



Lemma unique_ticket_id (l : list Ticket.t) (x : Ticket.t) :
  NoDup (map Ticket.id l) -> In x l ->
  filter (fun y => Ticket.id y =? Ticket.id x) l = [x].
Proof.
  induction l as [| y l IH]; intros Hnd Hin; [contradiction |].
  cbn in Hnd. inversion Hnd as [| k ks Hnotin Hnd']; subst.
  cbn. destruct Hin as [-> | Hin].
  - rewrite Z.eqb_refl. f_equal.
    apply filter_none. intros z Hz. apply Z.eqb_neq. intros E.
    apply Hnotin. rewrite <- E. now apply in_map.
  - destruct (Ticket.id y =? Ticket.id x) eqn:E.
    + apply Z.eqb_eq in E. exfalso. apply Hnotin. rewrite E. now apply in_map.
    + now apply IH.
Qed.



(** ** Text matching *)

Lemma list_ascii_of_string_app (a b : string) :
  list_ascii_of_string (a ++ b) = (list_ascii_of_string a ++ list_ascii_of_string b)%list.
Proof. induction a as [| c a IH]; cbn; [reflexivity | now rewrite IH]. Qed.

Lemma list_of_toLowerCase (s : string) :
  list_ascii_of_string (Util.toLowerCase s) =
  map Util.lower_ascii (list_ascii_of_string s).
Proof. unfold Util.toLowerCase. apply list_ascii_of_string_of_list_ascii. Qed.

Lemma plain_char_lower (c : ascii) :
  plain_char c = true -> plain_char (Util.lower_ascii c) = true.
Proof.
  destruct c as [b0 b1 b2 b3 b4 b5 b6 b7].
  destruct b0, b1, b2, b3, b4, b5, b6, b7; intros H; try exact H; reflexivity.
Qed.

Lemma like_any_rest (s : list ascii) : Util.like_la ["%"%char] s = true.
Proof.
  induction s as [| c s IH]; [reflexivity |].
  change (Util.like_la ["%"%char] (c :: s))
    with (Util.like_la [] (c :: s) || Util.like_la ["%"%char] s).
  rewrite IH. apply orb_true_r.
Qed.

Lemma like_plain_prefix (p : list ascii) :
  forallb plain_char p = true ->
  forall s, Util.like_la (p ++ ["%"%char]) s = Util.prefixb p s.
Proof.
  induction p as [| c p IH]; intros Hp s.
  - cbn [app Util.prefixb]. apply like_any_rest.
  - cbn [forallb] in Hp. apply andb_true_iff in Hp. destruct Hp as [Hc Hp].
    unfold plain_char in Hc.
    apply andb_true_iff in Hc. destruct Hc as [Hc H3].
    apply andb_true_iff in Hc. destruct Hc as [H1 H2].
    apply negb_true_iff in H1, H2, H3.
    cbn [app Util.like_la]. rewrite H1, H2, H3.
    destruct s as [| d s]; [reflexivity |].
    cbn [Util.prefixb]. now rewrite IH.
Qed.

Lemma like_plain_between (p : list ascii) :
  forallb plain_char p = true ->
  forall s, Util.like_la ("%"%char :: p ++ ["%"%char]) s = Util.includes_la s p.
Proof.
  intros Hp. induction s as [| c s IH].
  - change (Util.like_la ("%"%char :: p ++ ["%"%char]) [])
      with (Util.like_la (p ++ ["%"%char]) [] || false).
    rewrite (like_plain_prefix p Hp). reflexivity.
  - change (Util.like_la ("%"%char :: p ++ ["%"%char]) (c :: s))
      with (Util.like_la (p ++ ["%"%char]) (c :: s) ||
            Util.like_la ("%"%char :: p ++ ["%"%char]) s).
    rewrite (like_plain_prefix p Hp), IH. reflexivity.
Qed.

(** X27.  The partial filters of the ticket list (customer e-mail, merchant
    e-mail, assignee) compare with [ILIKE '%text%'].  For a filter text
    without [%], [_] and backslash this is the case-insensitive substring
    test; the filter text is not escaped, so those characters act as
    wildcards: the filter [%] matches every value. *)
Theorem partial_filter_is_a_substring_test (x v : string) :
  (plain v = true ->
   Util.ilike x (TicketController.wildcard v) =
   Util.includes (Util.toLowerCase x) (Util.toLowerCase v)) /\
  Util.ilike x (TicketController.wildcard "%") = true.
Proof.
  assert (Hw : forall w,
             list_ascii_of_string (Util.toLowerCase (TicketController.wildcard w)) =
             ("%"%char :: map Util.lower_ascii (list_ascii_of_string w) ++ ["%"%char])%list).
  { intros w. rewrite list_of_toLowerCase. unfold TicketController.wildcard.
    cbn [append list_ascii_of_string map].
    rewrite list_ascii_of_string_app, map_app. reflexivity. }
  split.
  - intros Hplain. unfold Util.ilike, Util.includes.
    rewrite Hw, !list_of_toLowerCase.
    apply like_plain_between.
    unfold plain in Hplain. rewrite forallb_forall in *.
    intros c Hc. apply in_map_iff in Hc. destruct Hc as (d & <- & Hd).
    apply plain_char_lower. now apply Hplain.
  - unfold Util.ilike. rewrite Hw, list_of_toLowerCase.
    generalize (map Util.lower_ascii (list_ascii_of_string x)). intros s.
    change (Util.like_la ("%"%char :: ["%"%char; "%"%char]) s = true).
    induction s as [| c s IH]; [reflexivity |].
    change (Util.like_la ("%"%char :: ["%"%char; "%"%char]) (c :: s))
      with (Util.like_la ["%"%char; "%"%char] (c :: s) ||
            Util.like_la ("%"%char :: ["%"%char; "%"%char]) s).
    rewrite IH. apply orb_true_r.
Qed.

Lemma partial_filter_is_a_substring_test_witness :
  Util.ilike "Customer@Example.com" (TicketController.wildcard "example") =
  Util.includes (Util.toLowerCase "Customer@Example.com") (Util.toLowerCase "example").
Proof.
  exact (proj1 (partial_filter_is_a_substring_test "Customer@Example.com" "example")
           eq_refl).
Defined.

Lemma prefixb_app (p rest : list ascii) : Util.prefixb p (p ++ rest) = true.
Proof.
  induction p as [| c p IH]; [reflexivity |].
  cbn. now rewrite Ascii.eqb_refl, IH.
Qed.

Lemma includes_la_middle (before sub after : list ascii) :
  Util.includes_la (before ++ sub ++ after) sub = true.
Proof.
  induction before as [| c before IH].
  - cbn [app]. destruct (sub ++ after)%list eqn:E; cbn [Util.includes_la];
      rewrite <- E, prefixb_app; reflexivity.
  - cbn [app Util.includes_la]. rewrite IH. apply orb_true_r.
Qed.

Lemma trim_start_suffix (l : list ascii) :
  exists u, l = (u ++ WebhookController.trim_start l)%list.
Proof.
  induction l as [| c l (u & IH)]; [exists []; reflexivity |].
  cbn. destruct (WebhookController.is_space c).
  - exists (c :: u). cbn. now rewrite <- IH.
  - exists []. reflexivity.
Qed.

(** Trimming keeps a middle part of the text. *)
Lemma trim_middle (s : string) :
  exists u w,
    list_ascii_of_string s =
    (u ++ list_ascii_of_string (WebhookController.trim s) ++ w)%list.
Proof.
  unfold WebhookController.trim. rewrite list_ascii_of_string_of_list_ascii.
  destruct (trim_start_suffix (list_ascii_of_string s)) as (u & Hu).
  destruct (trim_start_suffix
              (rev (WebhookController.trim_start (list_ascii_of_string s))))
    as (w & Hw).
  exists u, (rev w). rewrite Hu at 1. f_equal.
  rewrite <- rev_app_distr, <- Hw. now rewrite rev_involutive.
Qed.



(** ** The transaction webhook reads the status from the source *)

Lemma transaction_webhook_run (env : Env) (req : WebhookController.Request)
    (st : Store) (tid : JSON.value) :
  signature_passes env req ->
  JSON.get "transaction_id" (WebhookController.body req) = Some tid ->
  JSON.truthy tid = true ->
  JSON.truthy_opt (JSON.get "status" (WebhookController.body req)) = true ->
  exists sfin,
    WebhookController.handleTransactionWebhook env req st =
    (match confirmed_row env (text_param tid) st with
     | Some x =>
         mkResponse 200 true "Transaction status updated" (TransactionData x)
     | None => mkResponse 500 false "Failed to update transaction status" NoData
     end, sfin) /\
    transactions sfin = transactions st /\
    status_updates sfin = status_updates st /\
    email_logs sfin = email_logs st.
Proof.
  intros Hsig Htid Htruthy Hstatus.
  set (st1 := only_pending env "transaction" "status_update" req st).
  assert (E : match WebhookController.configured (TRANSACTION_WEBHOOK_SECRET env) with
              | Some secret =>
                  WebhookController.verifySignature
                    (JSON.stringify (WebhookController.body req))
                    (WebhookController.header "x-signature"
                       (WebhookController.headers req)) secret
              | None => true
              end = true).
  { unfold signature_passes in Hsig.
    destruct (WebhookController.configured (TRANSACTION_WEBHOOK_SECRET env));
      [now apply verifySignature_iff | reflexivity]. }
  unfold WebhookController.handleTransactionWebhook, handler, try_catch.
  unfold bind at 1. rewrite logWebhook_pending by reflexivity.
  fold (only_pending env "transaction" "status_update" req st). fold st1.
  rewrite E, Htid, Hstatus, Htruthy. cbn [negb].
  unfold bind at 1. rewrite sync_run.
  change (confirmed_row env (text_param tid) st1)
    with (confirmed_row env (text_param tid) st).
  destruct (confirmed_row env (text_param tid) st) as [x |].
  - unfold bind at 1. rewrite sendTransactionNotifications_run.
    eexists. split; [reflexivity |]. cbn. auto.
  - eexists. split; [reflexivity |]. cbn. auto.
Qed.


